(** * pkg/cloud/cloud.go: the EBS cloud facade, embedded shallowly

    The Go methods of [cloud] are rendered as functions in a small
    state-and-panic monad.  The state holds the provider's side of the
    world (whatever an [EC2] implementation keeps) and a trace of every
    provider call and device event, in the order the code performs them.
    Go's [(value, error)] results are pairs whose second component is an
    [option error]; pointers are [option]s; [int64] is [Z] with the
    wrap-around written where the code multiplies. *)

From Stdlib Require Import ZArith String List Bool Lia.
Import ListNotations.
Local Open Scope string_scope.
Local Open Scope list_scope.
Local Open Scope Z_scope.

Set Implicit Arguments.

(** ** Machine integers *)

(** Two's-complement reduction of an integer to Go's [int64]. *)
Definition wrap64 (z : Z) : Z := (z + 2 ^ 63) mod 2 ^ 64 - 2 ^ 63.

(** [a * b] on [int64] operands. *)
Definition mul64 (a b : Z) : Z := wrap64 (a * b).

Definition in_int64 (z : Z) : Prop := - 2 ^ 63 <= z < 2 ^ 63.

(** ** Constants of the package *)

Definition VolumeTypeIO1 := "io1".
Definition VolumeTypeIO2 := "io2".
Definition VolumeTypeGP2 := "gp2".
Definition VolumeTypeST2 := "st2".
Definition VolumeTypeStandard := "standard".

Definition MinTotalIOPS : Z := 100.
Definition MaxTotalIOPS : Z := 20000.

Definition DefaultVolumeType := VolumeTypeGP2.

Definition VolumeNameTagKey := "CSIVolumeName".
Definition SnapshotNameTagKey := "CSIVolumeSnapshotName".

(** ec2.VolumeModificationStateCompleted / ...Optimizing of the SDK. *)
Definition VolumeModificationStateCompleted := "completed".
Definition VolumeModificationStateOptimizing := "optimizing".

(** ** Errors *)

(** An argument of a [fmt.Errorf] call other than the error it wraps. *)
Inductive fmtArg :=
| ArgString (s : string)
| ArgInt (n : Z).

(** Go [error] values that reach this package.  [AwsErr] is a value
    implementing [awserr.Error] (the only kind whose [Code()] the package
    inspects); [PlainErr] is any other foreign error; [Errorf] is the
    result of [fmt.Errorf] with an error among its arguments, kept
    structured (format, the other arguments, the error formatted into
    it); [ErrorfMsg] is a [fmt.Errorf] that formats no error. *)
Inductive error :=
| ErrMultiDisks
| ErrDiskExistsDiffSize
| ErrNotFound
| ErrAlreadyExists
| ErrMultiSnapshots
| ErrInvalidMaxResults
| ErrWaitTimeout
| AwsErr (code message : string)
| PlainErr (message : string)
| Errorf (format : string) (args : list fmtArg) (cause : error)
| ErrorfMsg (format : string) (args : list fmtArg).

(** [isAWSError]: the type assertion [err.(awserr.Error)] and the code test. *)
Definition isAWSError (err : error) (code : string) : bool :=
  match err with
  | AwsErr c _ => String.eqb c code
  | _ => false
  end.

Definition isAWSErrorIncorrectModification (err : error) : bool :=
  isAWSError err "IncorrectModificationState".
Definition isAWSErrorInstanceNotFound (err : error) : bool :=
  isAWSError err "InvalidInstanceID.NotFound".
Definition isAWSErrorVolumeNotFound (err : error) : bool :=
  isAWSError err "InvalidVolume.NotFound".
Definition isAWSErrorIncorrectState (err : error) : bool :=
  isAWSError err "IncorrectState".
Definition isAWSErrorInvalidAttachmentNotFound (err : error) : bool :=
  isAWSError err "InvalidAttachment.NotFound".
Definition isAWSErrorSnapshotNotFound (err : error) : bool :=
  isAWSError err "InvalidSnapshot.NotFound".

(** ** SDK value helpers: [aws.StringValue], [aws.Int64Value] *)

Definition StringValue (p : option string) : string :=
  match p with Some s => s | None => EmptyString end.

Definition Int64Value (p : option Z) : Z :=
  match p with Some z => z | None => 0 end.

(** ** SDK shapes (the fields this package reads or writes) *)

Record Tag := { Tag_Key : option string; Tag_Value : option string }.

Record TagSpecification :=
  { ResourceType : option string; Tags : list (option Tag) }.

Record Filter := { Filter_Name : option string; Filter_Values : list (option string) }.

Record VolumeAttachment := { Attachment_State : option string }.

Record Volume :=
  { Volume_VolumeId : option string;
    Volume_Size : option Z;
    Volume_AvailabilityZone : option string;
    Volume_SnapshotId : option string;
    Volume_State : option string;
    Attachments : list (option VolumeAttachment) }.

Record Instance := { InstanceId : option string }.

Record Reservation := { Instances : list (option Instance) }.

Record ec2Snapshot :=
  { ec2Snapshot_SnapshotId : option string;
    ec2Snapshot_VolumeId : option string;
    ec2Snapshot_VolumeSize : option Z;
    ec2Snapshot_StartTime : option Z;
    ec2Snapshot_State : option string }.

Record VolumeModification :=
  { ModificationState : option string; TargetSize : option Z }.

Record AvailabilityZone := { ZoneName : option string }.

(** *** Requests *)

Record DescribeVolumesInput :=
  { DescribeVolumes_Filters : list (option Filter);
    DescribeVolumes_VolumeIds : list (option string);
    DescribeVolumes_NextToken : option string }.

Record CreateVolumeInput :=
  { CreateVolume_AvailabilityZone : option string;
    CreateVolume_Size : option Z;
    CreateVolume_VolumeType : option string;
    CreateVolume_TagSpecifications : list (option TagSpecification);
    CreateVolume_Encrypted : option bool;
    CreateVolume_KmsKeyId : option string;
    CreateVolume_Iops : option Z;
    CreateVolume_SnapshotId : option string }.

Record DeleteVolumeInput := { DeleteVolume_VolumeId : option string }.

Record DetachVolumeInput :=
  { DetachVolume_InstanceId : option string; DetachVolume_VolumeId : option string }.

(** The package's own [AttachVolumeInput] (it shadows the SDK's). *)
Record AttachVolumeInput :=
  { AttachVolume_Device : option string;
    AttachVolume_DryRun : option bool;
    AttachVolume_InstanceId : option string;
    AttachVolume_VolumeId : option string }.

Record DescribeInstancesInput :=
  { DescribeInstances_InstanceIds : list (option string);
    DescribeInstances_NextToken : option string }.

Record CreateSnapshotInput :=
  { CreateSnapshot_VolumeId : option string;
    CreateSnapshot_DryRun : option bool;
    CreateSnapshot_TagSpecifications : list (option TagSpecification);
    CreateSnapshot_Description : option string }.

Record DeleteSnapshotInput :=
  { DeleteSnapshot_SnapshotId : option string; DeleteSnapshot_DryRun : option bool }.

Record DescribeSnapshotsInput :=
  { DescribeSnapshots_Filters : list (option Filter);
    DescribeSnapshots_SnapshotIds : list (option string);
    DescribeSnapshots_MaxResults : option Z;
    DescribeSnapshots_NextToken : option string }.

Record ModifyVolumeInput :=
  { ModifyVolume_VolumeId : option string; ModifyVolume_Size : option Z }.

Record DescribeVolumesModificationsInput :=
  { DescribeVolumesModifications_VolumeIds : list (option string) }.

Record DescribeAvailabilityZonesInput := { }.

(** *** Responses *)

Record DescribeVolumesOutput :=
  { Volumes : list (option Volume); DescribeVolumesOutput_NextToken : option string }.

Record DeleteVolumeOutput := { }.

Record DescribeInstancesOutput :=
  { Reservations : list (option Reservation);
    DescribeInstancesOutput_NextToken : option string }.

Record DeleteSnapshotOutput := { }.

Record DescribeSnapshotsOutput :=
  { Snapshots : list (option ec2Snapshot);
    DescribeSnapshotsOutput_NextToken : option string }.

Record ModifyVolumeOutput :=
  { ModifyVolumeOutput_VolumeModification : option VolumeModification }.

Record DescribeVolumesModificationsOutput :=
  { VolumesModifications : list (option VolumeModification) }.

Record DescribeAvailabilityZonesOutput :=
  { AvailabilityZones : list (option AvailabilityZone) }.

(** ** The package's own data *)

Record Disk :=
  { VolumeID : string;
    CapacityGiB : Z;
    AvailabilityZone_ : string;
    SnapshotID : string }.

(** [Tags] is a Go map; the list is its entries in the order one [range]
    over it visits them. *)
Record DiskOptions :=
  { CapacityBytes : Z;
    DiskOptions_Tags : list (string * string);
    VolumeType : string;
    IOPSPerGB : Z;
    DiskOptions_AvailabilityZone : string;
    Encrypted : bool;
    KmsKeyID : string;
    DiskOptions_SnapshotID : string }.

Record Snapshot :=
  { Snapshot_SnapshotID : string;
    SourceVolumeID : string;
    Snapshot_Size : Z;
    CreationTime : Z;
    ReadyToUse : bool }.

Record ListSnapshotsResponse :=
  { ListSnapshotsResponse_Snapshots : list (option Snapshot);
    ListSnapshotsResponse_NextToken : string }.

Record ec2ListSnapshotsResponse :=
  { ec2ListSnapshotsResponse_Snapshots : list (option ec2Snapshot);
    ec2ListSnapshotsResponse_NextToken : option string }.

(** Modelled from the spec: pkg/cloud/devicemanager is not among the
    sources.  A [Device] is the binding the allocator hands out: a local
    path and whether the binding pre-existed.  Its methods [Release] and
    [Taint] appear below as trace events, which is all this package can
    observe of them. *)
Record Device := { Path : string; IsAlreadyAssigned : bool }.

(** Pulled in from pkg/util, which is not among the sources: the three
    size conversions this file calls.  The development is parametric in
    them; [utilModel] further down gives the reading the spec describes. *)
Record Util :=
  { BytesToGiB : Z -> Z;
    RoundUpGiB : Z -> Z;
    GiBToBytes : Z -> Z }.

(** ** What the code does to its surroundings *)

Inductive Call :=
| CallDescribeVolumes (input : DescribeVolumesInput)
| CallCreateVolume (input : CreateVolumeInput)
| CallDeleteVolume (input : DeleteVolumeInput)
| CallDetachVolume (input : DetachVolumeInput)
| CallAttachVolume (input : AttachVolumeInput)
| CallDescribeInstances (input : DescribeInstancesInput)
| CallCreateSnapshot (input : CreateSnapshotInput)
| CallDeleteSnapshot (input : DeleteSnapshotInput)
| CallDescribeSnapshots (input : DescribeSnapshotsInput)
| CallModifyVolume (input : ModifyVolumeInput)
| CallDescribeVolumesModifications (input : DescribeVolumesModificationsInput)
| CallDescribeAvailabilityZones (input : DescribeAvailabilityZonesInput)
| CallNewDevice (instance : option Instance) (volumeID : string)
| CallGetDevice (instance : option Instance) (volumeID : string).

(** [EvRelease d force] is [d.Release(force)], [EvTaint d] is [d.Taint()];
    [d] is the pointer the method was called on. *)
Inductive Event :=
| EvCall (c : Call)
| EvRelease (d : option Device) (force : bool)
| EvTaint (d : option Device).

(** Run-time panics the code can raise. *)
Inductive panic :=
| NilDereference
| IndexOutOfRange
| InterfaceConversion.

Section Embedding.

(** The provider's state: whatever the transport behind [EC2] and the
    device manager keep between calls. *)
Variable W : Type.

Record St := { world : W; trace : list Event }.

(** A computation ends normally, panics, or exhausts the fuel given to an
    unbounded loop; each outcome carries the state reached. *)
Inductive Outcome (A : Type) :=
| Done (a : A) (s : St)
| Panic (p : panic) (s : St)
| OutOfFuel (s : St).

Arguments Panic {A} p s.
Arguments OutOfFuel {A} s.

Definition M (A : Type) := St -> Outcome A.

Definition ret {A} (a : A) : M A := fun s => Done a s.

Definition bind {A B} (m : M A) (k : A -> M B) : M B :=
  fun s =>
    match m s with
    | Done a s' => k a s'
    | Panic p s' => Panic p s'
    | OutOfFuel s' => OutOfFuel s'
    end.

Definition raise {A} (p : panic) : M A := fun s => Panic p s.

Definition outOfFuel {A} : M A := fun s => OutOfFuel s.

Definition emit (e : Event) : M unit :=
  fun s => Done tt {| world := world s; trace := trace s ++ [e] |}.

(** [*p]: a nil pointer panics. *)
Definition deref {A} (p : option A) : M A :=
  match p with
  | Some a => ret a
  | None => raise NilDereference
  end.

(** A call through the transport: the call is recorded, then the handler
    answers and moves the provider's state. *)
Definition invoke {I O} (tag : I -> Call) (h : I -> W -> (O * W)) (input : I) : M O :=
  fun s =>
    let (o, w') := h input (world s) in
    Done o {| world := w'; trace := trace s ++ [EvCall (tag input)] |}.

(** [defer f(); body]: [f] runs when [body] returns and when it panics. *)
Definition defer {A} (cleanup : M unit) (body : M A) : M A :=
  fun s =>
    match body s with
    | Done a s' =>
        match cleanup s' with
        | Done _ s'' => Done a s''
        | Panic p s'' => Panic p s''
        | OutOfFuel s'' => OutOfFuel s''
        end
    | Panic p s' =>
        match cleanup s' with
        | Done _ s'' => Panic p s''
        | Panic p' s'' => Panic p' s''
        | OutOfFuel s'' => OutOfFuel s''
        end
    | OutOfFuel s' => OutOfFuel s'
    end.

End Embedding.

Arguments Done {W A} a s.
Arguments Panic {W A} p s.
Arguments OutOfFuel {W A} s.
Arguments ret {W A} a _.
Arguments raise {W A} p _.
Arguments outOfFuel {W A} _.
Arguments emit {W} e _.
Arguments deref {W A} p _.

Declare Scope go_scope.
Delimit Scope go_scope with go.
Notation "x <- m ;; k" := (bind m (fun x => k))
  (at level 61, m at next level, right associativity) : go_scope.
Notation "' pat <- m ;; k" := (bind m (fun x => match x with pat => k end))
  (at level 61, pat pattern, m at next level, right associativity) : go_scope.
Notation "m ;;; k" := (bind m (fun _ => k))
  (at level 61, right associativity) : go_scope.
Local Open Scope go_scope.

(** ** The transport, the device manager and the [cloud] struct *)

Section Cloud.

Variable W : Type.

(** A transport method: given the request and the provider's state it
    answers with Go's pair (response pointer, error) and a new state.
    Nothing is assumed of the pair: both may be nil, both may be set. *)
Definition Method (I O : Type) : Type := I -> W -> (option O * option error) * W.

(** request.Operation of the SDK. *)
Record Operation := { Name : string; HTTPMethod : string; HTTPPath : string }.

(** The concrete SDK client [*ec2.EC2] as far as [AttachVolumeRequest]
    uses it: [NewRequest] followed by [Send] fills the output and yields
    the error of the round trip. *)
Record ec2EC2 :=
  { NewRequest_Send :
      Operation -> AttachVolumeInput -> W -> (VolumeAttachment * option error) * W }.

(** The interface [EC2].  [dynamicEC2] is the dynamic type of the value
    stored in the interface: [Some client] when it is the SDK's [*ec2.EC2],
    [None] for any other implementation. *)
Record EC2 :=
  { DescribeVolumesWithContext : Method DescribeVolumesInput DescribeVolumesOutput;
    CreateVolumeWithContext : Method CreateVolumeInput Volume;
    DeleteVolumeWithContext : Method DeleteVolumeInput DeleteVolumeOutput;
    DetachVolumeWithContext : Method DetachVolumeInput VolumeAttachment;
    EC2_AttachVolumeWithContext : Method AttachVolumeInput VolumeAttachment;
    DescribeInstancesWithContext : Method DescribeInstancesInput DescribeInstancesOutput;
    CreateSnapshotWithContext : Method CreateSnapshotInput ec2Snapshot;
    DeleteSnapshotWithContext : Method DeleteSnapshotInput DeleteSnapshotOutput;
    DescribeSnapshotsWithContext : Method DescribeSnapshotsInput DescribeSnapshotsOutput;
    ModifyVolumeWithContext : Method ModifyVolumeInput ModifyVolumeOutput;
    DescribeVolumesModificationsWithContext :
      Method DescribeVolumesModificationsInput DescribeVolumesModificationsOutput;
    DescribeAvailabilityZonesWithContext :
      Method DescribeAvailabilityZonesInput DescribeAvailabilityZonesOutput;
    dynamicEC2 : option ec2EC2 }.

(** Modelled from the spec: the interface dm.DeviceManager of
    pkg/cloud/devicemanager, which is not among the sources:
    allocate-or-reuse and lookup of the Device of an (instance, volume)
    pair. *)
Record DeviceManager :=
  { NewDevice : Method (option Instance * string) Device;
    GetDevice : Method (option Instance * string) Device }.

Record cloud := { region : string; ec2 : EC2; dm : DeviceManager }.

(** The type assertion of [c.ec2] to the SDK client's pointer type, in
    its single-value form: it panics when the dynamic type differs. *)
Definition assertEC2 (c : cloud) : M W ec2EC2 :=
  match dynamicEC2 (ec2 c) with
  | Some client => ret client
  | None => raise InterfaceConversion
  end.

(** [AttachVolumeRequest] then [Send], as [AttachVolumeWithContext] does. *)
Definition AttachVolumeWithContext (client : ec2EC2) (input : option AttachVolumeInput)
  : M W (option VolumeAttachment * option error) :=
  let op := {| Name := "AttachVolume"; HTTPMethod := "POST"; HTTPPath := "/" |} in
  let input :=
    match input with
    | Some i => i
    | None => {| AttachVolume_Device := None; AttachVolume_DryRun := None;
                 AttachVolume_InstanceId := None; AttachVolume_VolumeId := None |}
    end in
  '(out, err) <- invoke CallAttachVolume (NewRequest_Send client op) input ;;
  ret (Some out, err).

(** ** k8s.io/apimachinery/pkg/util/wait *)

(** [wait.ExponentialBackoff]: the condition runs at most [steps] times;
    a true or an error ends the loop with that error, otherwise
    [ErrWaitTimeout].  [L] is the variables the closure captures and
    assigns. *)
Fixpoint ExponentialBackoff {L} (steps : nat) (condition : L -> M W (L * (bool * option error)))
    (l : L) : M W (L * option error) :=
  match steps with
  | O => ret (l, Some ErrWaitTimeout)
  | S steps' =>
      '(l', (ok, err)) <- condition l ;;
      match err with
      | Some e => ret (l', Some e)
      | None =>
          if ok then ret (l', None)
          else ExponentialBackoff steps' condition l'
      end
  end.

(** [wait.Poll], that is [wait.WaitFor] over the channel of [poller]:
    the loop receives from the channel and runs the condition after
    every receive, returning its error, or nil once it holds.  The
    channel delivers one value per tick and is closed at the timeout; the
    receive on the closed channel runs the condition one last time, and
    [ErrWaitTimeout] is returned only if that run does not hold either.
    [ticks] is the number of ticks received before the channel closes, so
    the condition runs at most [ticks + 1] times. *)
Fixpoint Poll {L} (ticks : nat) (condition : L -> M W (L * (bool * option error)))
    (l : L) : M W (L * option error) :=
  match ticks with
  | O =>
      '(l', (ok, err)) <- condition l ;;
      match err with
      | Some e => ret (l', Some e)
      | None =>
          if ok then ret (l', None)
          else ret (l', Some ErrWaitTimeout)
      end
  | S ticks' =>
      '(l', (ok, err)) <- condition l ;;
      match err with
      | Some e => ret (l', Some e)
      | None =>
          if ok then ret (l', None)
          else Poll ticks' condition l'
      end
  end.

Variable util : Util.

(** How many ticks [wait.Poll] receives before its channel is closed at
    the timeout (three seconds apart within one minute in [waitForVolume]);
    the condition runs once per tick and once more at the timeout. *)
Variable pollTicks : nat.

(** ** Lookups *)

(** [request.NextToken = nextToken] on a [DescribeVolumesInput]. *)
Definition setNextToken (request : DescribeVolumesInput) (nextToken : option string)
  : DescribeVolumesInput :=
  {| DescribeVolumes_Filters := DescribeVolumes_Filters request;
     DescribeVolumes_VolumeIds := DescribeVolumes_VolumeIds request;
     DescribeVolumes_NextToken := nextToken |}.

(** The paging loop of [getVolume].  [fuel] bounds the number of pages;
    the request is returned too, since the loop writes the continuation
    token into the caller's request. *)
Fixpoint getVolumePages (c : cloud) (fuel : nat) (request : DescribeVolumesInput)
    (volumes : list (option Volume))
  : M W (DescribeVolumesInput * (list (option Volume) * option error)) :=
  match fuel with
  | O => outOfFuel
  | S fuel' =>
      '(response, err) <- invoke CallDescribeVolumes (DescribeVolumesWithContext (ec2 c)) request ;;
      match err with
      | Some e => ret (request, ([], Some e))
      | None =>
          response <- deref response ;;
          let volumes := volumes ++ Volumes response in
          let nextToken := DescribeVolumesOutput_NextToken response in
          if String.eqb (StringValue nextToken) EmptyString then ret (request, (volumes, None))
          else
            getVolumePages c fuel' (setNextToken request nextToken) volumes
      end
  end.

Definition getVolume' (c : cloud) (fuel : nat) (request : DescribeVolumesInput)
  : M W (DescribeVolumesInput * (option Volume * option error)) :=
  '(request, (volumes, err)) <- getVolumePages c fuel request [] ;;
  match err with
  | Some e => ret (request, (None, Some e))
  | None =>
      let l := length volumes in
      if (1 <? l)%nat then ret (request, (None, Some ErrMultiDisks))
      else if (l <? 1)%nat then ret (request, (None, Some ErrNotFound))
      else
        match volumes with
        | v :: _ => ret (request, (v, None))
        | [] => raise IndexOutOfRange
        end
  end.

Definition getVolume (c : cloud) (fuel : nat) (request : DescribeVolumesInput)
  : M W (option Volume * option error) :=
  '(_, r) <- getVolume' c fuel request ;; ret r.

(** [instances = append(instances, reservation.Instances...)] over the
    reservations of one page. *)
Fixpoint appendReservations (reservations : list (option Reservation))
    (instances : list (option Instance)) : M W (list (option Instance)) :=
  match reservations with
  | [] => ret instances
  | reservation :: rest =>
      reservation <- deref reservation ;;
      appendReservations rest (instances ++ Instances reservation)
  end.

Fixpoint getInstancePages (c : cloud) (fuel : nat) (request : DescribeInstancesInput)
    (instances : list (option Instance))
  : M W (list (option Instance) * option error) :=
  match fuel with
  | O => outOfFuel
  | S fuel' =>
      '(response, err) <-
        invoke CallDescribeInstances (DescribeInstancesWithContext (ec2 c)) request ;;
      match err with
      | Some e =>
          if isAWSErrorInstanceNotFound e then ret ([], Some ErrNotFound)
          else ret ([], Some (Errorf "error listing AWS instances: %q" [] e))
      | None =>
          response <- deref response ;;
          instances <- appendReservations (Reservations response) instances ;;
          let nextToken := DescribeInstancesOutput_NextToken response in
          if String.eqb (StringValue nextToken) EmptyString then ret (instances, None)
          else
            let request :=
              {| DescribeInstances_InstanceIds := DescribeInstances_InstanceIds request;
                 DescribeInstances_NextToken := nextToken |} in
            getInstancePages c fuel' request instances
      end
  end.

Definition getInstance (c : cloud) (fuel : nat) (nodeID : string)
  : M W (option Instance * option error) :=
  let request :=
    {| DescribeInstances_InstanceIds := [Some nodeID];
       DescribeInstances_NextToken := None |} in
  '(instances, err) <- getInstancePages c fuel request [] ;;
  match err with
  | Some e => ret (None, Some e)
  | None =>
      let l := length instances in
      if (1 <? l)%nat then
        ret (None, Some (ErrorfMsg "found %d instances with ID %q"
                           [ArgInt (Z.of_nat l); ArgString nodeID]))
      else if (l <? 1)%nat then ret (None, Some ErrNotFound)
      else
        match instances with
        | i :: _ => ret (i, None)
        | [] => raise IndexOutOfRange
        end
  end.

(** ** Waiting for an attachment state *)

(** The [range volume.Attachments] loop of [verifyVolumeFunc]. *)
Fixpoint scanAttachments (attachments : list (option VolumeAttachment)) (state : string)
  : M W bool :=
  match attachments with
  | [] => ret false
  | a :: rest =>
      a <- deref a ;;
      match Attachment_State a with
      | None => scanAttachments rest state
      | Some st => if String.eqb st state then ret true else scanAttachments rest state
      end
  end.

Definition verifyVolumeFunc (c : cloud) (fuel : nat) (volumeID state : string) (_ : unit)
  : M W (unit * (bool * option error)) :=
  let request :=
    {| DescribeVolumes_Filters := [];
       DescribeVolumes_VolumeIds := [Some volumeID];
       DescribeVolumes_NextToken := None |} in
  '(volume, err) <- getVolume c fuel request ;;
  match err with
  | Some e => ret (tt, (false, Some e))
  | None =>
      volume <- deref volume ;;
      if (length (Attachments volume) =? 0)%nat && String.eqb state "detached"
      then ret (tt, (true, None))
      else
        found <- scanAttachments (Attachments volume) state ;;
        ret (tt, (found, None))
  end.

Definition WaitForAttachmentState (c : cloud) (fuel : nat) (volumeID state : string)
  : M W (option error) :=
  '(_, err) <- ExponentialBackoff 13 (verifyVolumeFunc c fuel volumeID state) tt ;;
  ret err.

(** ** Volumes: create and delete *)

(** The loop of [randomAvailabilityZone] that collects [*zone.ZoneName]. *)
Fixpoint zoneNames (azs : list (option AvailabilityZone)) (zones : list string)
  : M W (list string) :=
  match azs with
  | [] => ret zones
  | zone :: rest =>
      zone <- deref zone ;;
      name <- deref (ZoneName zone) ;;
      zoneNames rest (zones ++ [name])
  end.

Definition randomAvailabilityZone (c : cloud) (region : string) : M W (string * option error) :=
  let request := Build_DescribeAvailabilityZonesInput in
  '(response, err) <-
    invoke CallDescribeAvailabilityZones (DescribeAvailabilityZonesWithContext (ec2 c)) request ;;
  match err with
  | Some e => ret (EmptyString, Some e)
  | None =>
      response <- deref response ;;
      zones <- zoneNames (AvailabilityZones response) [] ;;
      match zones with
      | z :: _ => ret (z, None)
      | [] => raise IndexOutOfRange
      end
  end.

(** The condition closure of [waitForVolume]; the captured [request] is
    the one object every poll hands to [getVolume]. *)
Definition waitForVolumeFunc (c : cloud) (fuel : nat) (request : DescribeVolumesInput)
  : M W (DescribeVolumesInput * (bool * option error)) :=
  '(request, (vol, err)) <- getVolume' c fuel request ;;
  match err with
  | Some e => ret (request, (true, Some e))
  | None =>
      vol <- deref vol ;;
      match Volume_State vol with
      | Some st => ret (request, (String.eqb st "available", None))
      | None => ret (request, (false, None))
      end
  end.

Definition waitForVolume (c : cloud) (fuel : nat) (volumeID : string) : M W (option error) :=
  let request :=
    {| DescribeVolumes_Filters := [];
       DescribeVolumes_VolumeIds := [Some volumeID];
       DescribeVolumes_NextToken := None |} in
  '(_, err) <- Poll pollTicks (waitForVolumeFunc c fuel) request ;;
  ret err.

(** The [switch diskOptions.VolumeType] of [CreateDisk]: the type to
    create and the IOPS, or the error of the default branch.  The product
    is an [int64] product. *)
Definition createTypeAndIops (diskOptions : DiskOptions) (capacityGiB : Z)
  : (string * Z) + error :=
  let vt := VolumeType diskOptions in
  if String.eqb vt VolumeTypeGP2 || String.eqb vt VolumeTypeST2
     || String.eqb vt VolumeTypeStandard
  then inl (vt, 0)
  else if String.eqb vt VolumeTypeIO1 || String.eqb vt VolumeTypeIO2 then
    let iops := mul64 capacityGiB (IOPSPerGB diskOptions) in
    let iops := if iops <? MinTotalIOPS then MinTotalIOPS else iops in
    let iops := if iops >? MaxTotalIOPS then MaxTotalIOPS else iops in
    inl (vt, iops)
  else if String.eqb vt EmptyString then inl (DefaultVolumeType, 0)
  else inr (ErrorfMsg "invalid AWS VolumeType %q" [ArgString vt]).

(** The [CreateVolumeInput] that [CreateDisk] assembles once the type,
    the IOPS and the zone are known. *)
Definition createVolumeRequest (diskOptions : DiskOptions) (capacityGiB : Z)
    (createType : string) (iops : Z) (zone : string) : CreateVolumeInput :=
  let tags :=
    map (fun kv => Some {| Tag_Key := Some (fst kv); Tag_Value := Some (snd kv) |})
        (DiskOptions_Tags diskOptions) in
  let tagSpec := {| ResourceType := Some "volume"; Tags := tags |} in
  let withKey := (0 <? String.length (KmsKeyID diskOptions))%nat in
  let snapshotID := DiskOptions_SnapshotID diskOptions in
  {| CreateVolume_AvailabilityZone := Some zone;
     CreateVolume_Size := Some capacityGiB;
     CreateVolume_VolumeType := Some createType;
     CreateVolume_TagSpecifications := [Some tagSpec];
     CreateVolume_Encrypted := if withKey then Some true else Some (Encrypted diskOptions);
     CreateVolume_KmsKeyId := if withKey then Some (KmsKeyID diskOptions) else None;
     CreateVolume_Iops := if iops >? 0 then Some iops else None;
     CreateVolume_SnapshotId :=
       if (0 <? String.length snapshotID)%nat then Some snapshotID else None |}.

Definition CreateDisk (c : cloud) (fuel : nat) (volumeName : string) (diskOptions : DiskOptions)
  : M W (option Disk * option error) :=
  let capacityGiB := BytesToGiB util (CapacityBytes diskOptions) in
  match createTypeAndIops diskOptions capacityGiB with
  | inr e => ret (None, Some e)
  | inl (createType, iops) =>
      '(zone, err) <-
        (if String.eqb (DiskOptions_AvailabilityZone diskOptions) EmptyString
         then randomAvailabilityZone c (region c)
         else ret (DiskOptions_AvailabilityZone diskOptions, None)) ;;
      match err with
      | Some e => ret (None, Some (Errorf "failed to get availability zone %s" [] e))
      | None =>
          let request := createVolumeRequest diskOptions capacityGiB createType iops zone in
          '(response, err) <-
            invoke CallCreateVolume (CreateVolumeWithContext (ec2 c)) request ;;
          match err with
          | Some e =>
              if isAWSErrorSnapshotNotFound e then ret (None, Some ErrNotFound)
              else ret (None, Some (Errorf "could not create volume in EC2: %v" [] e))
          | None =>
              response <- deref response ;;
              let volumeID := StringValue (Volume_VolumeId response) in
              if (String.length volumeID =? 0)%nat then
                ret (None, Some (ErrorfMsg "volume ID was not returned by CreateVolume" []))
              else
                let size := Int64Value (Volume_Size response) in
                if size =? 0 then
                  ret (None, Some (ErrorfMsg "disk size was not returned by CreateVolume" []))
                else
                  err <- waitForVolume c fuel volumeID ;;
                  match err with
                  | Some e =>
                      ret (None,
                           Some (Errorf "failed to get an available volume in EC2: %v" [] e))
                  | None =>
                      ret (Some {| CapacityGiB := size; VolumeID := volumeID;
                                   AvailabilityZone_ := zone;
                                   SnapshotID := DiskOptions_SnapshotID diskOptions |}, None)
                  end
          end
      end
  end.

Definition DeleteDisk (c : cloud) (volumeID : string) : M W (bool * option error) :=
  let request := {| DeleteVolume_VolumeId := Some volumeID |} in
  '(_, err) <- invoke CallDeleteVolume (DeleteVolumeWithContext (ec2 c)) request ;;
  match err with
  | Some e =>
      if isAWSErrorVolumeNotFound e then ret (false, Some ErrNotFound)
      else ret (false, Some (Errorf "DeleteDisk could not delete volume: %v" [] e))
  | None => ret (true, None)
  end.

(** ** Attach *)

Definition AttachDisk (c : cloud) (fuel : nat) (volumeID nodeID : string)
  : M W (string * option error) :=
  '(instance, err) <- getInstance c fuel nodeID ;;
  match err with
  | Some e => ret (EmptyString, Some e)
  | None =>
      '(device, err) <-
        invoke (fun p => CallNewDevice (fst p) (snd p)) (NewDevice (dm c)) (instance, volumeID) ;;
      match err with
      | Some e => ret (EmptyString, Some e)
      | None =>
          defer (emit (EvRelease device false))
            (d <- deref device ;;
             early <-
               (if negb (IsAlreadyAssigned d) then
                  let request :=
                    {| AttachVolume_Device := None;
                       AttachVolume_DryRun := None;
                       AttachVolume_InstanceId := Some nodeID;
                       AttachVolume_VolumeId := Some volumeID |} in
                  client <- assertEC2 c ;;
                  '(resp, err) <- AttachVolumeWithContext client (Some request) ;;
                  match err with
                  | Some e =>
                      if isAWSError e "VolumeInUse" then ret (Some (EmptyString, Some ErrAlreadyExists))
                      else
                        ret (Some (EmptyString,
                                   Some (Errorf "could not attach volume %q to node %q: %v"
                                           [ArgString volumeID; ArgString nodeID] e)))
                  | None => ret None
                  end
                else ret None) ;;
             match early with
             | Some result => ret result
             | None =>
                 err <- WaitForAttachmentState c fuel volumeID "attached" ;;
                 match err with
                 | Some e => emit (EvTaint device) ;;; ret (EmptyString, Some e)
                 | None => ret (Path d, None)
                 end
             end)
      end
  end.

(** ** Lookup by name *)

Definition GetDiskByName (c : cloud) (fuel : nat) (name : string) (capacityBytes : Z)
  : M W (option Disk * option error) :=
  let request :=
    {| DescribeVolumes_Filters :=
         [Some {| Filter_Name := Some ("tag:" ++ VolumeNameTagKey)%string;
                  Filter_Values := [Some name] |}];
       DescribeVolumes_VolumeIds := [];
       DescribeVolumes_NextToken := None |} in
  '(volume, err) <- getVolume c fuel request ;;
  match err with
  | Some e => ret (None, Some e)
  | None =>
      volume <- deref volume ;;
      let volSizeBytes := Int64Value (Volume_Size volume) in
      if negb (volSizeBytes =? BytesToGiB util capacityBytes) then
        ret (None, Some ErrDiskExistsDiffSize)
      else
        ret (Some {| VolumeID := StringValue (Volume_VolumeId volume);
                     CapacityGiB := volSizeBytes;
                     AvailabilityZone_ := StringValue (Volume_AvailabilityZone volume);
                     SnapshotID := StringValue (Volume_SnapshotId volume) |}, None)
  end.

(** ** Snapshots: delete and list *)

Definition DeleteSnapshot (c : cloud) (snapshotID : string) : M W (bool * option error) :=
  let request :=
    {| DeleteSnapshot_SnapshotId := Some snapshotID; DeleteSnapshot_DryRun := Some false |} in
  '(_, err) <- invoke CallDeleteSnapshot (DeleteSnapshotWithContext (ec2 c)) request ;;
  match err with
  | Some e =>
      if isAWSErrorSnapshotNotFound e then ret (false, Some ErrNotFound)
      else ret (false, Some (Errorf "DeleteSnapshot could not delete volume: %v" [] e))
  | None => ret (true, None)
  end.

Definition ec2SnapshotResponseToStruct (ec2Snapshot : option ec2Snapshot) : option Snapshot :=
  match ec2Snapshot with
  | None => None
  | Some sn =>
      Some {| Snapshot_SnapshotID := StringValue (ec2Snapshot_SnapshotId sn);
              SourceVolumeID := StringValue (ec2Snapshot_VolumeId sn);
              Snapshot_Size := GiBToBytes util (Int64Value (ec2Snapshot_VolumeSize sn));
              CreationTime := Int64Value (ec2Snapshot_StartTime sn);
              ReadyToUse := String.eqb (StringValue (ec2Snapshot_State sn)) "completed" |}
  end.

Definition listSnapshots (c : cloud) (request : DescribeSnapshotsInput)
  : M W (option ec2ListSnapshotsResponse * option error) :=
  '(response, err) <-
    invoke CallDescribeSnapshots (DescribeSnapshotsWithContext (ec2 c)) request ;;
  match err with
  | Some e => ret (None, Some e)
  | None =>
      response <- deref response ;;
      ret (Some {| ec2ListSnapshotsResponse_Snapshots := Snapshots response;
                   ec2ListSnapshotsResponse_NextToken :=
                     DescribeSnapshotsOutput_NextToken response |}, None)
  end.

Definition ListSnapshots (c : cloud) (volumeID : string) (maxResults : Z) (nextToken : string)
  : M W (option ListSnapshotsResponse * option error) :=
  if (maxResults >? 0) && (maxResults <? 5) then ret (None, Some ErrInvalidMaxResults)
  else
    let describeSnapshotsInput :=
      {| DescribeSnapshots_Filters :=
           if negb (String.length volumeID =? 0)%nat
           then [Some {| Filter_Name := Some "volume-id"; Filter_Values := [Some volumeID] |}]
           else [];
         DescribeSnapshots_SnapshotIds := [];
         DescribeSnapshots_MaxResults := Some maxResults;
         DescribeSnapshots_NextToken :=
           if negb (String.length nextToken =? 0)%nat then Some nextToken else None |} in
    '(ec2SnapshotsResponse, err) <- listSnapshots c describeSnapshotsInput ;;
    match err with
    | Some e => ret (None, Some e)
    | None =>
        ec2SnapshotsResponse <- deref ec2SnapshotsResponse ;;
        let snapshots :=
          map ec2SnapshotResponseToStruct
              (ec2ListSnapshotsResponse_Snapshots ec2SnapshotsResponse) in
        if (length snapshots =? 0)%nat then ret (None, Some ErrNotFound)
        else
          ret (Some {| ListSnapshotsResponse_Snapshots := snapshots;
                       ListSnapshotsResponse_NextToken :=
                         StringValue (ec2ListSnapshotsResponse_NextToken ec2SnapshotsResponse) |},
               None)
    end.

(** ** Resize *)

Definition getLatestVolumeModification (c : cloud) (volumeID : string)
  : M W (option VolumeModification * option error) :=
  let request := {| DescribeVolumesModifications_VolumeIds := [Some volumeID] |} in
  '(mod_, err) <-
    invoke CallDescribeVolumesModifications
      (DescribeVolumesModificationsWithContext (ec2 c)) request ;;
  match err with
  | Some e =>
      ret (None, Some (Errorf "error describing modifications in volume %q: %v"
                         [ArgString volumeID] e))
  | None =>
      mod_ <- deref mod_ ;;
      let volumeMods := VolumesModifications mod_ in
      if (length volumeMods =? 0)%nat then
        ret (None, Some (ErrorfMsg "could not find any modifications for volume %q"
                           [ArgString volumeID]))
      else ret (last volumeMods None, None)
  end.

(** Whether a modification state string ends the wait. *)
Definition modificationDone (state : string) : bool :=
  String.eqb state VolumeModificationStateCompleted
  || String.eqb state VolumeModificationStateOptimizing.

(** The condition closure of [waitForVolumeSize]; it assigns the captured
    [modVolSizeGiB]. *)
Definition waitForVolumeSizeFunc (c : cloud) (volumeID : string) (modVolSizeGiB : Z)
  : M W (Z * (bool * option error)) :=
  '(m, err) <- getLatestVolumeModification c volumeID ;;
  match err with
  | Some e => ret (modVolSizeGiB, (false, Some e))
  | None =>
      m <- deref m ;;
      let state := StringValue (ModificationState m) in
      if modificationDone state then ret (Int64Value (TargetSize m), (true, None))
      else ret (modVolSizeGiB, (false, None))
  end.

Definition waitForVolumeSize (c : cloud) (volumeID : string) : M W (Z * option error) :=
  '(modVolSizeGiB, waitErr) <- ExponentialBackoff 20 (waitForVolumeSizeFunc c volumeID) 0 ;;
  match waitErr with
  | Some e => ret (0, Some e)
  | None => ret (modVolSizeGiB, None)
  end.

(** The end of [ResizeDisk], from the point where [mod] is set (possibly
    still nil) and [response] is what ModifyVolume answered. *)
Definition resizeFinish (c : cloud) (volumeID : string)
    (response : option ModifyVolumeOutput) (mod_ : option VolumeModification)
  : M W (Z * option error) :=
  mod_ <-
    match mod_ with
    | None =>
        response <- deref response ;;
        ret (ModifyVolumeOutput_VolumeModification response)
    | Some _ => ret mod_
    end ;;
  m <- deref mod_ ;;
  let state := StringValue (ModificationState m) in
  if modificationDone state then ret (Int64Value (TargetSize m), None)
  else waitForVolumeSize c volumeID.

Definition ResizeDisk (c : cloud) (fuel : nat) (volumeID : string) (newSizeBytes : Z)
  : M W (Z * option error) :=
  let request :=
    {| DescribeVolumes_Filters := [];
       DescribeVolumes_VolumeIds := [Some volumeID];
       DescribeVolumes_NextToken := None |} in
  '(volume, err) <- getVolume c fuel request ;;
  match err with
  | Some e => ret (0, Some e)
  | None =>
      let newSizeGiB := RoundUpGiB util newSizeBytes in
      volume <- deref volume ;;
      let oldSizeGiB := Int64Value (Volume_Size volume) in
      if oldSizeGiB >=? newSizeGiB then ret (oldSizeGiB, None)
      else
        let req :=
          {| ModifyVolume_VolumeId := Some volumeID; ModifyVolume_Size := Some newSizeGiB |} in
        '(response, err) <- invoke CallModifyVolume (ModifyVolumeWithContext (ec2 c)) req ;;
        match err with
        | Some e =>
            if negb (isAWSErrorIncorrectModification e) then
              ret (0, Some (Errorf "could not modify AWS volume %q: %v" [ArgString volumeID] e))
            else
              '(m, err) <- getLatestVolumeModification c volumeID ;;
              match err with
              | Some e' => ret (0, Some e')
              | None => resizeFinish c volumeID response m
              end
        | None => resizeFinish c volumeID response None
        end
  end.

End Cloud.

Arguments getVolumePages {W} c fuel request volumes _.
Arguments getVolume' {W} c fuel request _.
Arguments getVolume {W} c fuel request _.
Arguments getInstance {W} c fuel nodeID _.
Arguments WaitForAttachmentState {W} c fuel volumeID state _.
Arguments zoneNames {W} azs zones _.
Arguments randomAvailabilityZone {W} c region _.
Arguments waitForVolume {W} pollTicks c fuel volumeID _.
Arguments CreateDisk {W} util pollTicks c fuel volumeName diskOptions _.
Arguments DeleteDisk {W} c volumeID _.
Arguments AttachDisk {W} c fuel volumeID nodeID _.
Arguments GetDiskByName {W} util c fuel name capacityBytes _.
Arguments DeleteSnapshot {W} c snapshotID _.
Arguments ListSnapshots {W} util c volumeID maxResults nextToken _.
Arguments getLatestVolumeModification {W} c volumeID _.
Arguments waitForVolumeSize {W} c volumeID _.
Arguments resizeFinish {W} c volumeID response mod_ _.
Arguments ResizeDisk {W} util c fuel volumeID newSizeBytes _.

(** ** Reading outcomes *)

Definition stateOf {W A} (o : Outcome W A) : St W :=
  match o with
  | Done _ s => s
  | Panic _ s => s
  | OutOfFuel s => s
  end.

Definition st {W} (w : W) (tr : list Event) : St W := {| world := w; trace := tr |}.

(** ** A size-conversion instance *)

Definition GiB : Z := 1024 * 1024 * 1024.

(** Modelled from the spec: pkg/util is not among the sources.  Bytes to
    whole GiB by [int64] division, rounding up to whole GiB, and GiB back to
    bytes. *)
Definition utilModel : Util :=
  {| BytesToGiB := fun volumeSizeBytes => Z.quot volumeSizeBytes GiB;
     RoundUpGiB := fun volumeSizeBytes => Z.quot (wrap64 (volumeSizeBytes + GiB - 1)) GiB;
     GiBToBytes := fun volumeSizeGiB => mul64 volumeSizeGiB GiB |}.

(** ** A scripted provider

    The provider's state is the list of answers it will give, in order,
    one constructor per operation; a call that finds the script empty or
    the next answer made for another operation gets an error.  This is the
    ordered-expectations mock the package's interfaces exist for. *)

Inductive Reply :=
| ReplyDescribeVolumes (out : option DescribeVolumesOutput) (err : option error)
| ReplyCreateVolume (out : option Volume) (err : option error)
| ReplyDeleteVolume (out : option DeleteVolumeOutput) (err : option error)
| ReplyDetachVolume (out : option VolumeAttachment) (err : option error)
| ReplyAttachVolume (out : VolumeAttachment) (err : option error)
| ReplyDescribeInstances (out : option DescribeInstancesOutput) (err : option error)
| ReplyCreateSnapshot (out : option ec2Snapshot) (err : option error)
| ReplyDeleteSnapshot (out : option DeleteSnapshotOutput) (err : option error)
| ReplyDescribeSnapshots (out : option DescribeSnapshotsOutput) (err : option error)
| ReplyModifyVolume (out : option ModifyVolumeOutput) (err : option error)
| ReplyDescribeVolumesModifications
    (out : option DescribeVolumesModificationsOutput) (err : option error)
| ReplyDescribeAvailabilityZones
    (out : option DescribeAvailabilityZonesOutput) (err : option error)
| ReplyDevice (out : option Device) (err : option error).

Definition Script := list Reply.

Definition unexpectedCall : error := PlainErr "unexpected call".

Definition scripted {I O} (pick : Reply -> option (option O * option error))
  : Method Script I O :=
  fun _ w =>
    match w with
    | r :: rest =>
        match pick r with
        | Some answer => (answer, rest)
        | None => ((None, Some unexpectedCall), w)
        end
    | [] => ((None, Some unexpectedCall), [])
    end.

Definition scriptedEC2 (dynamic : option (ec2EC2 Script)) : EC2 Script :=
  {| DescribeVolumesWithContext :=
       scripted (fun r => match r with ReplyDescribeVolumes o e => Some (o, e) | _ => None end);
     CreateVolumeWithContext :=
       scripted (fun r => match r with ReplyCreateVolume o e => Some (o, e) | _ => None end);
     DeleteVolumeWithContext :=
       scripted (fun r => match r with ReplyDeleteVolume o e => Some (o, e) | _ => None end);
     DetachVolumeWithContext :=
       scripted (fun r => match r with ReplyDetachVolume o e => Some (o, e) | _ => None end);
     EC2_AttachVolumeWithContext :=
       scripted (fun r => match r with ReplyAttachVolume o e => Some (Some o, e) | _ => None end);
     DescribeInstancesWithContext :=
       scripted (fun r => match r with ReplyDescribeInstances o e => Some (o, e) | _ => None end);
     CreateSnapshotWithContext :=
       scripted (fun r => match r with ReplyCreateSnapshot o e => Some (o, e) | _ => None end);
     DeleteSnapshotWithContext :=
       scripted (fun r => match r with ReplyDeleteSnapshot o e => Some (o, e) | _ => None end);
     DescribeSnapshotsWithContext :=
       scripted (fun r => match r with ReplyDescribeSnapshots o e => Some (o, e) | _ => None end);
     ModifyVolumeWithContext :=
       scripted (fun r => match r with ReplyModifyVolume o e => Some (o, e) | _ => None end);
     DescribeVolumesModificationsWithContext :=
       scripted (fun r => match r with
                          | ReplyDescribeVolumesModifications o e => Some (o, e)
                          | _ => None
                          end);
     DescribeAvailabilityZonesWithContext :=
       scripted (fun r => match r with
                          | ReplyDescribeAvailabilityZones o e => Some (o, e)
                          | _ => None
                          end);
     dynamicEC2 := dynamic |}.

(** The SDK client talking to the scripted provider. *)
Definition scriptedClient : ec2EC2 Script :=
  {| NewRequest_Send := fun _ _ w =>
       match w with
       | ReplyAttachVolume o e :: rest => ((o, e), rest)
       | _ => (({| Attachment_State := None |}, Some unexpectedCall), w)
       end |}.

Definition scriptedDM : DeviceManager Script :=
  {| NewDevice := scripted (fun r => match r with ReplyDevice o e => Some (o, e) | _ => None end);
     GetDevice := scripted (fun r => match r with ReplyDevice o e => Some (o, e) | _ => None end) |}.

(** A [cloud] over a mock transport, and one over the SDK client. *)
Definition mockCloud : cloud Script :=
  {| region := "us-test-1"; ec2 := scriptedEC2 None; dm := scriptedDM |}.

Definition sdkCloud : cloud Script :=
  {| region := "us-test-1"; ec2 := scriptedEC2 (Some scriptedClient); dm := scriptedDM |}.

Definition start (script : Script) : St Script := st script [].

(** ** What the provider answers, stated apart from the code *)

Section Provider.

Variable W : Type.
Variable c : cloud W.

(** [paged request w requests volumes w']: listing volumes from state [w]
    with [request] takes the calls [requests], each answered without
    error, every page but the last carrying a continuation token; the
    pages hold [volumes] in order and the provider ends in [w']. *)
Inductive paged
  : DescribeVolumesInput -> W -> list DescribeVolumesInput -> list (option Volume) -> W -> Prop :=
| paged_last : forall request w out w',
    DescribeVolumesWithContext (ec2 c) request w = ((Some out, None), w') ->
    StringValue (DescribeVolumesOutput_NextToken out) = EmptyString ->
    paged request w [request] (Volumes out) w'
| paged_next : forall request w out w' requests volumes w'',
    DescribeVolumesWithContext (ec2 c) request w = ((Some out, None), w') ->
    StringValue (DescribeVolumesOutput_NextToken out) <> EmptyString ->
    paged (setNextToken request (DescribeVolumesOutput_NextToken out)) w' requests volumes w'' ->
    paged request w (request :: requests) (Volumes out ++ volumes) w''.

Definition modificationsRequest (volumeID : string) : DescribeVolumesModificationsInput :=
  {| DescribeVolumesModifications_VolumeIds := [Some volumeID] |}.

(** [latestIs volumeID w m w']: asked in state [w] for the modifications
    of the volume, the provider answers without error a non-empty list
    whose last record is [m], and moves to [w']. *)
Definition latestIs (volumeID : string) (w : W) (m : VolumeModification) (w' : W) : Prop :=
  exists out,
    DescribeVolumesModificationsWithContext (ec2 c) (modificationsRequest volumeID) w
    = ((Some out, None), w')
    /\ VolumesModifications out <> []
    /\ last (VolumesModifications out) None = Some m.

Definition modificationState (m : VolumeModification) : string :=
  StringValue (ModificationState m).

(** [pending volumeID k w w']: [k] successive queries from [w] each find
    a latest modification whose state is neither "completed" nor
    "optimizing", and leave the provider in [w']. *)
Inductive pending (volumeID : string) : nat -> W -> W -> Prop :=
| pending_O : forall w, pending volumeID O w w
| pending_S : forall k w m w1 w',
    latestIs volumeID w m w1 ->
    modificationState m <> "completed" ->
    modificationState m <> "optimizing" ->
    pending volumeID k w1 w' ->
    pending volumeID (S k) w w'.

(** [obtained req w m w' calls]: the modify call [req] made in [w] ends
    with the modification record [m] in hand, either as its own answer or,
    after a rejection with the provider code IncorrectModificationState,
    as the latest record fetched for the volume; [calls] are the provider
    calls this took. *)
Inductive obtained (volumeID : string) (req : ModifyVolumeInput)
  : W -> VolumeModification -> W -> list Event -> Prop :=
| obtained_own : forall w m w',
    ModifyVolumeWithContext (ec2 c) req w
    = ((Some {| ModifyVolumeOutput_VolumeModification := Some m |}, None), w') ->
    obtained volumeID req w m w' [EvCall (CallModifyVolume req)]
| obtained_recovered : forall w response msg w1 m w',
    ModifyVolumeWithContext (ec2 c) req w
    = ((response, Some (AwsErr "IncorrectModificationState" msg)), w1) ->
    latestIs volumeID w1 m w' ->
    obtained volumeID req w m w'
      [EvCall (CallModifyVolume req);
       EvCall (CallDescribeVolumesModifications (modificationsRequest volumeID))].

End Provider.

(** [clamp lo hi x]: [x] brought into the interval from [lo] to [hi]. *)
Definition clamp (lo hi x : Z) : Z := Z.max lo (Z.min hi x).

Definition isModifyVolume (e : Event) : Prop :=
  exists request, e = EvCall (CallModifyVolume request).

Definition isTaint (e : Event) : Prop := exists d, e = EvTaint d.

(** The request of [GetDiskByName]. *)
Definition nameRequest (name : string) : DescribeVolumesInput :=
  {| DescribeVolumes_Filters :=
       [Some {| Filter_Name := Some "tag:CSIVolumeName"; Filter_Values := [Some name] |}];
     DescribeVolumes_VolumeIds := [];
     DescribeVolumes_NextToken := None |}.

(** The request of the by-ID lookups. *)
Definition idRequest (volumeID : string) : DescribeVolumesInput :=
  {| DescribeVolumes_Filters := [];
     DescribeVolumes_VolumeIds := [Some volumeID];
     DescribeVolumes_NextToken := None |}.

(** The request [ListSnapshots] sends once [maxResults] has passed the
    guard. *)
Definition listRequest (volumeID : string) (maxResults : Z) (nextToken : string)
  : DescribeSnapshotsInput :=
  {| DescribeSnapshots_Filters :=
       if negb (String.length volumeID =? 0)%nat
       then [Some {| Filter_Name := Some "volume-id"; Filter_Values := [Some volumeID] |}]
       else [];
     DescribeSnapshots_SnapshotIds := [];
     DescribeSnapshots_MaxResults := Some maxResults;
     DescribeSnapshots_NextToken :=
       if negb (String.length nextToken =? 0)%nat then Some nextToken else None |}.

Definition describeCalls (requests : list DescribeVolumesInput) : list Event :=
  map (fun r => EvCall (CallDescribeVolumes r)) requests.

(** ** Sample values for the scripted provider *)

Definition volume10 : Volume :=
  {| Volume_VolumeId := Some "vol-1";
     Volume_Size := Some 10;
     Volume_AvailabilityZone := Some "us-test-1a";
     Volume_SnapshotId := None;
     Volume_State := Some "available";
     Attachments := [] |}.

Definition volumesOutput (volumes : list (option Volume)) (token : option string)
  : DescribeVolumesOutput :=
  {| Volumes := volumes; DescribeVolumesOutput_NextToken := token |}.

Definition volumesPage (volumes : list (option Volume)) (token : option string) : Reply :=
  ReplyDescribeVolumes (Some (volumesOutput volumes token)) None.

Definition modification (state : string) (target : Z) : VolumeModification :=
  {| ModificationState := Some state; TargetSize := Some target |}.

Definition modificationsOutput (m : VolumeModification) : DescribeVolumesModificationsOutput :=
  {| VolumesModifications := [Some m] |}.

Definition modificationsPage (m : VolumeModification) : Reply :=
  ReplyDescribeVolumesModifications (Some (modificationsOutput m)) None.

Definition instance1 : Instance := {| InstanceId := Some "i-1" |}.

Definition instancesPage : Reply :=
  ReplyDescribeInstances
    (Some {| Reservations := [Some {| Instances := [Some instance1] |}];
             DescribeInstancesOutput_NextToken := None |}) None.

Definition freshDevice : Device := {| Path := "/dev/xvdba"; IsAlreadyAssigned := false |}.

Definition volumeGone : error := AwsErr "InvalidVolume.NotFound" "gone".

Definition modificationBusy : error := AwsErr "IncorrectModificationState" "busy".

Definition internalError : error := AwsErr "InternalError" "boom".

Definition ioOptions (capacityBytes iopsPerGB : Z) (zone : string) : DiskOptions :=
  {| CapacityBytes := capacityBytes;
     DiskOptions_Tags := [];
     VolumeType := VolumeTypeIO1;
     IOPSPerGB := iopsPerGB;
     DiskOptions_AvailabilityZone := zone;
     Encrypted := false;
     KmsKeyID := EmptyString;
     DiskOptions_SnapshotID := EmptyString |}.

(** A resize that is rejected because another one is under way, which two
    polls later has reached its optimizing stage. *)
Definition resizeScript : Script :=
  [volumesPage [Some volume10] None;
   ReplyModifyVolume None (Some modificationBusy);
   modificationsPage (modification "modifying" 11);
   modificationsPage (modification "modifying" 11);
   modificationsPage (modification "optimizing" 11)].

Definition resizeRequest (volumeID : string) (sizeGiB : Z) : ModifyVolumeInput :=
  {| ModifyVolume_VolumeId := Some volumeID; ModifyVolume_Size := Some sizeGiB |}.

Definition pollEvent (volumeID : string) : Event :=
  EvCall (CallDescribeVolumesModifications (modificationsRequest volumeID)).

(** [adds P m]: from any state, [m] only appends to the trace, and every
    event it appends satisfies [P]; this holds of the state it reaches
    however it ends. *)
Definition adds {W A} (P : Event -> Prop) (m : M W A) : Prop :=
  forall s, exists events,
    trace (stateOf (m s)) = trace s ++ events /\ Forall P events.

(** The zone records of a listing in which every entry and every name is
    present. *)
Definition zonesNamed (names : list string) : list (option AvailabilityZone) :=
  map (fun name => Some {| ZoneName := Some name |}) names.

(** The request of the fresh attach in [AttachDisk]. *)
Definition attachRequest (volumeID nodeID : string) : AttachVolumeInput :=
  {| AttachVolume_Device := None;
     AttachVolume_DryRun := None;
     AttachVolume_InstanceId := Some nodeID;
     AttachVolume_VolumeId := Some volumeID |}.

Definition attachOperation : Operation :=
  {| Name := "AttachVolume"; HTTPMethod := "POST"; HTTPPath := "/" |}.

(** An attach that the provider refuses for a reason other than the
    volume being in use. *)
Definition attachRefusedScript : Script :=
  [instancesPage;
   ReplyDevice (Some freshDevice) None;
   ReplyAttachVolume {| Attachment_State := None |} (Some internalError)].

(** ** The rest of the facade *)

Record SnapshotOptions := { SnapshotOptions_Tags : list (string * string) }.

Section CloudRest.

Variable W : Type.
Variable util : Util.

(** Whether each iteration of a [for ... range] has its own loop
    variables (Go 1.22 on) or all iterations share one pair. *)
Variable loopVarPerIteration : bool.

Definition GetDiskByID (c : cloud W) (fuel : nat) (volumeID : string)
  : M W (option Disk * option error) :=
  let request :=
    {| DescribeVolumes_Filters := [];
       DescribeVolumes_VolumeIds := [Some volumeID];
       DescribeVolumes_NextToken := None |} in
  '(volume, err) <- getVolume c fuel request ;;
  match err with
  | Some e => ret (None, Some e)
  | None =>
      volume <- deref volume ;;
      ret (Some {| VolumeID := StringValue (Volume_VolumeId volume);
                   CapacityGiB := Int64Value (Volume_Size volume);
                   AvailabilityZone_ := StringValue (Volume_AvailabilityZone volume);
                   SnapshotID := EmptyString |}, None)
  end.

Definition IsExistInstance (c : cloud W) (fuel : nat) (nodeID : string) : M W bool :=
  '(instance, err) <- getInstance c fuel nodeID ;;
  match err, instance with
  | None, Some _ => ret true
  | _, _ => ret false
  end.

Definition DetachDisk (c : cloud W) (fuel : nat) (volumeID nodeID : string)
  : M W (option error) :=
  '(instance, err) <- getInstance c fuel nodeID ;;
  match err with
  | Some e => ret (Some e)
  | None =>
      '(device, err) <-
        invoke (fun p => CallGetDevice (fst p) (snd p)) (GetDevice (dm c)) (instance, volumeID) ;;
      match err with
      | Some e => ret (Some e)
      | None =>
          defer (emit (EvRelease device true))
            (_ <- deref device ;;
             let request :=
               {| DetachVolume_InstanceId := Some nodeID;
                  DetachVolume_VolumeId := Some volumeID |} in
             '(_, err) <- invoke CallDetachVolume (DetachVolumeWithContext (ec2 c)) request ;;
             match err with
             | Some e =>
                 if isAWSErrorIncorrectState e
                    || isAWSErrorInvalidAttachmentNotFound e
                    || isAWSErrorVolumeNotFound e
                 then ret (Some ErrNotFound)
                 else
                   ret (Some (Errorf "could not detach volume %q from node %q: %v"
                                [ArgString volumeID; ArgString nodeID] e))
             | None =>
                 err <- WaitForAttachmentState c fuel volumeID "detached" ;;
                 match err with
                 | Some e => ret (Some e)
                 | None => ret None
                 end
             end)
      end
  end.

(** [request.NextToken = nextToken] on a [DescribeSnapshotsInput]. *)
Definition setSnapshotsNextToken (request : DescribeSnapshotsInput)
    (nextToken : option string) : DescribeSnapshotsInput :=
  {| DescribeSnapshots_Filters := DescribeSnapshots_Filters request;
     DescribeSnapshots_SnapshotIds := DescribeSnapshots_SnapshotIds request;
     DescribeSnapshots_MaxResults := DescribeSnapshots_MaxResults request;
     DescribeSnapshots_NextToken := nextToken |}.

(** The paging loop of [getSnapshot]. *)
Fixpoint getSnapshotPages (c : cloud W) (fuel : nat) (request : DescribeSnapshotsInput)
    (snapshots : list (option ec2Snapshot))
  : M W (list (option ec2Snapshot) * option error) :=
  match fuel with
  | O => outOfFuel
  | S fuel' =>
      '(response, err) <-
        invoke CallDescribeSnapshots (DescribeSnapshotsWithContext (ec2 c)) request ;;
      match err with
      | Some e => ret ([], Some e)
      | None =>
          response <- deref response ;;
          let snapshots := snapshots ++ Snapshots response in
          let nextToken := DescribeSnapshotsOutput_NextToken response in
          if String.eqb (StringValue nextToken) EmptyString then ret (snapshots, None)
          else getSnapshotPages c fuel' (setSnapshotsNextToken request nextToken) snapshots
      end
  end.

Definition getSnapshot (c : cloud W) (fuel : nat) (request : DescribeSnapshotsInput)
  : M W (option ec2Snapshot * option error) :=
  '(snapshots, err) <- getSnapshotPages c fuel request [] ;;
  match err with
  | Some e => ret (None, Some e)
  | None =>
      let l := length snapshots in
      if (1 <? l)%nat then ret (None, Some ErrMultiSnapshots)
      else if (l <? 1)%nat then ret (None, Some ErrNotFound)
      else
        match snapshots with
        | sn :: _ => ret (sn, None)
        | [] => raise IndexOutOfRange
        end
  end.

Definition GetSnapshotByName (c : cloud W) (fuel : nat) (name : string)
  : M W (option Snapshot * option error) :=
  let request :=
    {| DescribeSnapshots_Filters :=
         [Some {| Filter_Name := Some ("tag:" ++ SnapshotNameTagKey)%string;
                  Filter_Values := [Some name] |}];
       DescribeSnapshots_SnapshotIds := [];
       DescribeSnapshots_MaxResults := None;
       DescribeSnapshots_NextToken := None |} in
  '(ec2snapshot, err) <- getSnapshot c fuel request ;;
  match err with
  | Some e => ret (None, Some e)
  | None => ret (ec2SnapshotResponseToStruct util ec2snapshot, None)
  end.

Definition GetSnapshotByID (c : cloud W) (fuel : nat) (snapshotID : string)
  : M W (option Snapshot * option error) :=
  let request :=
    {| DescribeSnapshots_Filters := [];
       DescribeSnapshots_SnapshotIds := [Some snapshotID];
       DescribeSnapshots_MaxResults := None;
       DescribeSnapshots_NextToken := None |} in
  '(ec2snapshot, err) <- getSnapshot c fuel request ;;
  match err with
  | Some e => ret (None, Some e)
  | None => ret (ec2SnapshotResponseToStruct util ec2snapshot, None)
  end.

(** The tags the [range snapshotOptions.Tags] loop of [CreateSnapshot]
    leaves in the request.  Each tag holds the addresses of the loop
    variables: with one pair per iteration the tags are the entries
    visited; with a shared pair every tag reads the last entry visited. *)
Definition snapshotTags (entries : list (string * string)) : list (option Tag) :=
  if loopVarPerIteration then
    map (fun kv => Some {| Tag_Key := Some (fst kv); Tag_Value := Some (snd kv) |}) entries
  else
    match rev entries with
    | [] => []
    | kv :: _ =>
        repeat (Some {| Tag_Key := Some (fst kv); Tag_Value := Some (snd kv) |})
               (length entries)
    end.

Definition CreateSnapshot (c : cloud W) (volumeID : string) (snapshotOptions : SnapshotOptions)
  : M W (option Snapshot * option error) :=
  let descriptions := ("Created by AWS EBS CSI driver for volume " ++ volumeID)%string in
  let tags := snapshotTags (SnapshotOptions_Tags snapshotOptions) in
  let tagSpec := {| ResourceType := Some "snapshot"; Tags := tags |} in
  let request :=
    {| CreateSnapshot_VolumeId := Some volumeID;
       CreateSnapshot_DryRun := Some false;
       CreateSnapshot_TagSpecifications := [Some tagSpec];
       CreateSnapshot_Description := Some descriptions |} in
  '(res, err) <- invoke CallCreateSnapshot (CreateSnapshotWithContext (ec2 c)) request ;;
  match err with
  | Some e =>
      ret (None, Some (Errorf "error creating snapshot of volume %s: %v" [ArgString volumeID] e))
  | None =>
      match res with
      | None => ret (None, Some (ErrorfMsg "nil CreateSnapshotResponse" []))
      | Some _ => ret (ec2SnapshotResponseToStruct util res, None)
      end
  end.

End CloudRest.

Arguments GetDiskByID {W} c fuel volumeID _.
Arguments IsExistInstance {W} c fuel nodeID _.
Arguments DetachDisk {W} c fuel volumeID nodeID _.
Arguments getSnapshotPages {W} c fuel request snapshots _.
Arguments getSnapshot {W} c fuel request _.
Arguments GetSnapshotByName {W} util c fuel name _.
Arguments GetSnapshotByID {W} util c fuel snapshotID _.
Arguments CreateSnapshot {W} util loopVarPerIteration c volumeID snapshotOptions _.

(** ** The request type of the attach call *)

(** request.ErrInvalidParams as [Validate] fills it: the context and, in
    order, the names of the required parameters found missing. *)
Record ErrInvalidParams := { Context : string; ParamRequired : list string }.

Definition Validate (s : AttachVolumeInput) : option ErrInvalidParams :=
  let invalidParams := [] in
  let invalidParams :=
    match AttachVolume_InstanceId s with
    | None => invalidParams ++ ["InstanceId"]
    | Some _ => invalidParams
    end in
  let invalidParams :=
    match AttachVolume_VolumeId s with
    | None => invalidParams ++ ["VolumeId"]
    | Some _ => invalidParams
    end in
  if (0 <? length invalidParams)%nat
  then Some {| Context := "AttachVolumeInput"; ParamRequired := invalidParams |}
  else None.

Definition SetDevice (s : AttachVolumeInput) (v : string) : AttachVolumeInput :=
  {| AttachVolume_Device := Some v;
     AttachVolume_DryRun := AttachVolume_DryRun s;
     AttachVolume_InstanceId := AttachVolume_InstanceId s;
     AttachVolume_VolumeId := AttachVolume_VolumeId s |}.

Definition SetDryRun (s : AttachVolumeInput) (v : bool) : AttachVolumeInput :=
  {| AttachVolume_Device := AttachVolume_Device s;
     AttachVolume_DryRun := Some v;
     AttachVolume_InstanceId := AttachVolume_InstanceId s;
     AttachVolume_VolumeId := AttachVolume_VolumeId s |}.

Definition SetInstanceId (s : AttachVolumeInput) (v : string) : AttachVolumeInput :=
  {| AttachVolume_Device := AttachVolume_Device s;
     AttachVolume_DryRun := AttachVolume_DryRun s;
     AttachVolume_InstanceId := Some v;
     AttachVolume_VolumeId := AttachVolume_VolumeId s |}.

Definition SetVolumeId (s : AttachVolumeInput) (v : string) : AttachVolumeInput :=
  {| AttachVolume_Device := AttachVolume_Device s;
     AttachVolume_DryRun := AttachVolume_DryRun s;
     AttachVolume_InstanceId := AttachVolume_InstanceId s;
     AttachVolume_VolumeId := Some v |}.

(** ** More of what the provider answers *)

Definition isDescribe (e : Event) : Prop :=
  (exists request, e = EvCall (CallDescribeVolumes request))
  \/ (exists request, e = EvCall (CallDescribeInstances request))
  \/ (exists request, e = EvCall (CallDescribeSnapshots request)).

(** The test [waitForVolume] makes on the volume it finds. *)
Definition volumeAvailable (v : Volume) : bool :=
  match Volume_State v with
  | Some state => String.eqb state "available"
  | None => false
  end.

Definition attachmentHas (state : string) (a : option VolumeAttachment) : bool :=
  match a with
  | Some a' =>
      match Attachment_State a' with
      | Some st => String.eqb st state
      | None => false
      end
  | None => false
  end.

(** No nil pointer among the attachment records of the volume. *)
Definition attachmentsPresent (v : Volume) : bool :=
  forallb (fun a => match a with Some _ => true | None => false end) (Attachments v).

(** The volume shows the attachment state waited for: it has no
    attachment and the state is detached, or one of its attachments
    reports the state. *)
Definition attachmentReached (state : string) (v : Volume) : bool :=
  ((length (Attachments v) =? 0)%nat && String.eqb state "detached")
  || existsb (attachmentHas state) (Attachments v).

Definition instanceRequest (nodeID : string) : DescribeInstancesInput :=
  {| DescribeInstances_InstanceIds := [Some nodeID]; DescribeInstances_NextToken := None |}.

Definition snapshotIdRequest (snapshotID : string) : DescribeSnapshotsInput :=
  {| DescribeSnapshots_Filters := [];
     DescribeSnapshots_SnapshotIds := [Some snapshotID];
     DescribeSnapshots_MaxResults := None;
     DescribeSnapshots_NextToken := None |}.

Definition snapshotNameRequest (name : string) : DescribeSnapshotsInput :=
  {| DescribeSnapshots_Filters :=
       [Some {| Filter_Name := Some "tag:CSIVolumeSnapshotName"; Filter_Values := [Some name] |}];
     DescribeSnapshots_SnapshotIds := [];
     DescribeSnapshots_MaxResults := None;
     DescribeSnapshots_NextToken := None |}.

Definition detachRequest (volumeID nodeID : string) : DetachVolumeInput :=
  {| DetachVolume_InstanceId := Some nodeID; DetachVolume_VolumeId := Some volumeID |}.

Definition createSnapshotRequest (tags : list (option Tag)) (volumeID : string)
  : CreateSnapshotInput :=
  {| CreateSnapshot_VolumeId := Some volumeID;
     CreateSnapshot_DryRun := Some false;
     CreateSnapshot_TagSpecifications :=
       [Some {| ResourceType := Some "snapshot"; Tags := tags |}];
     CreateSnapshot_Description :=
       Some ("Created by AWS EBS CSI driver for volume " ++ volumeID)%string |}.

Section ProviderRest.

Variable W : Type.
Variable c : cloud W.
Variable fuel : nat.

(** [polled reuse waiting k request w request' w' requests]: [k]
    successive lookups, the first with [request] from state [w], each
    complete within the fuel and each finding exactly one volume on which
    [waiting] holds.  With [reuse] the next lookup starts from the request
    the previous one left behind (its last page request); without, every
    lookup starts from [request].  [requests] are all the calls made. *)
Inductive polled (reuse : bool) (waiting : Volume -> bool)
  : nat -> DescribeVolumesInput -> W -> DescribeVolumesInput -> W
    -> list DescribeVolumesInput -> Prop :=
| polled_O : forall request w, polled reuse waiting O request w request w []
| polled_S : forall k request w requests volume w1 request' w' requests',
    paged c request w requests [Some volume] w1 ->
    (length requests <= fuel)%nat ->
    waiting volume = true ->
    polled reuse waiting k (if reuse then last requests request else request) w1
      request' w' requests' ->
    polled reuse waiting (S k) request w request' w' (requests ++ requests').

(** [instancesListed nodeID w instances w']: the provider answers the
    lookup of the instance in one page, without error and without nil
    reservations; [instances] are the instances of its reservations, in
    order. *)
Definition instancesListed (nodeID : string) (w : W) (instances : list (option Instance))
    (w' : W) : Prop :=
  exists out reservations,
    DescribeInstancesWithContext (ec2 c) (instanceRequest nodeID) w = ((Some out, None), w')
    /\ StringValue (DescribeInstancesOutput_NextToken out) = EmptyString
    /\ Reservations out = map Some reservations
    /\ instances = concat (map Instances reservations).

(** [snapshotsListed request w snapshots w']: the provider answers the
    snapshot listing in one page, without error. *)
Definition snapshotsListed (request : DescribeSnapshotsInput) (w : W)
    (snapshots : list (option ec2Snapshot)) (w' : W) : Prop :=
  exists out,
    DescribeSnapshotsWithContext (ec2 c) request w = ((Some out, None), w')
    /\ StringValue (DescribeSnapshotsOutput_NextToken out) = EmptyString
    /\ Snapshots out = snapshots.

End ProviderRest.

(** ** More sample values *)

Definition attachedVolume : Volume :=
  {| Volume_VolumeId := Some "vol-1";
     Volume_Size := Some 10;
     Volume_AvailabilityZone := Some "us-test-1a";
     Volume_SnapshotId := None;
     Volume_State := Some "in-use";
     Attachments := [Some {| Attachment_State := None |};
                     Some {| Attachment_State := Some "attached" |}] |}.

Definition creatingVolume : Volume :=
  {| Volume_VolumeId := Some "vol-1";
     Volume_Size := Some 10;
     Volume_AvailabilityZone := Some "us-test-1a";
     Volume_SnapshotId := None;
     Volume_State := Some "creating";
     Attachments := [] |}.

Definition assignedDevice : Device := {| Path := "/dev/xvdbb"; IsAlreadyAssigned := true |}.

Definition snapshot1 (state : string) : ec2Snapshot :=
  {| ec2Snapshot_SnapshotId := Some "snap-1";
     ec2Snapshot_VolumeId := Some "vol-1";
     ec2Snapshot_VolumeSize := Some 10;
     ec2Snapshot_StartTime := Some 1;
     ec2Snapshot_State := Some state |}.

Definition snapshotsOutput (snapshots : list (option ec2Snapshot)) (token : option string)
  : DescribeSnapshotsOutput :=
  {| Snapshots := snapshots; DescribeSnapshotsOutput_NextToken := token |}.

Definition snapshotsPage (snapshots : list (option ec2Snapshot)) (token : option string)
  : Reply :=
  ReplyDescribeSnapshots (Some (snapshotsOutput snapshots token)) None.

Definition gpOptions (volumeType zone : string) : DiskOptions :=
  {| CapacityBytes := 4 * GiB;
     DiskOptions_Tags := [("CSIVolumeName", "pvc-1")];
     VolumeType := volumeType;
     IOPSPerGB := 50;
     DiskOptions_AvailabilityZone := zone;
     Encrypted := false;
     KmsKeyID := EmptyString;
     DiskOptions_SnapshotID := EmptyString |}.

Definition createdVolume : Volume :=
  {| Volume_VolumeId := Some "vol-1";
     Volume_Size := Some 4;
     Volume_AvailabilityZone := Some "us-test-1a";
     Volume_SnapshotId := None;
     Volume_State := Some "creating";
     Attachments := [] |}.

Definition instancesOutput (reservations : list Reservation) : DescribeInstancesOutput :=
  {| Reservations := map Some reservations; DescribeInstancesOutput_NextToken := None |}.

(** The end of [CreateDisk], from the answer [r] of the create call. *)
Definition createDiskFinish {W} (pollTicks : nat) (c : cloud W) (fuel : nat)
    (zone snapshotID : string) (r : option Volume * option error)
  : M W (option Disk * option error) :=
  let (response, err) := r in
  match err with
  | Some e =>
      if isAWSErrorSnapshotNotFound e then ret (None, Some ErrNotFound)
      else ret (None, Some (Errorf "could not create volume in EC2: %v" [] e))
  | None =>
      response <- deref response ;;
      let volumeID := StringValue (Volume_VolumeId response) in
      if (String.length volumeID =? 0)%nat then
        ret (None, Some (ErrorfMsg "volume ID was not returned by CreateVolume" []))
      else
        let size := Int64Value (Volume_Size response) in
        if size =? 0 then
          ret (None, Some (ErrorfMsg "disk size was not returned by CreateVolume" []))
        else
          err <- waitForVolume pollTicks c fuel volumeID ;;
          match err with
          | Some e =>
              ret (None, Some (Errorf "failed to get an available volume in EC2: %v" [] e))
          | None =>
              ret (Some {| CapacityGiB := size; VolumeID := volumeID;
                           AvailabilityZone_ := zone;
                           SnapshotID := snapshotID |}, None)
          end
  end.

(** ** Construction *)

(** strconv.ParseBool of the Go library: [None] is its syntax error. *)
Definition ParseBool (str : string) : option bool :=
  if existsb (String.eqb str) ["1"; "t"; "T"; "true"; "TRUE"; "True"] then Some true
  else if existsb (String.eqb str) ["0"; "f"; "F"; "false"; "FALSE"; "False"] then Some false
  else None.

(** http.Client as [newEC2Cloud] sets it up: only the transport's
    TLS setting. *)
Record HTTPClient := { InsecureSkipVerify : bool }.

(** aws.Config, the fields [newEC2Cloud] sets. *)
Record awsConfig :=
  { Config_Region : option string;
    CredentialsChainVerboseErrors : option bool;
    Config_HTTPClient : option HTTPClient;
    Config_Endpoint : option string }.

(** How [newEC2Cloud] ends: with a cloud, with an error, or in the panic
    of session.Must. *)
Inductive newCloudResult (W : Type) :=
| CloudCreated (c : cloud W)
| CloudError (e : error)
| SessionPanic (e : error).

Arguments CloudCreated {W} c.
Arguments CloudError {W} e.
Arguments SessionPanic {W} e.

Section NewCloud.

Variable W : Type.

(** The process environment, as os.Getenv reads it. *)
Variable getenv : string -> string.

(** strconv.Quote, which the message of a ParseBool error applies to its
    input. *)
Variable Quote : string -> string.

(** session.NewSession, ec2.New and dm.NewDeviceManager. *)
Variable Session : Type.
Variable NewSession : awsConfig -> Session + error.
Variable ec2New : Session -> EC2 W.
Variable NewDeviceManager : DeviceManager W.

(** [newEC2Cloud] up to the configuration it opens the session with. *)
Definition sessionConfig (region : string) : awsConfig + error :=
  let envEndpointInsecure := getenv "AWS_EC2_ENDPOINT_UNSECURE" in
  let parsed :=
    if String.eqb envEndpointInsecure EmptyString then inl false
    else
      match ParseBool envEndpointInsecure with
      | Some b => inl b
      | None =>
          inr (Errorf "Unable to parse environment variable AWS_EC2_ENDPOINT_UNSECURE: %v" []
                 (PlainErr ("strconv.ParseBool: parsing " ++ Quote envEndpointInsecure
                            ++ ": invalid syntax")%string))
      end in
  match parsed with
  | inr e => inr e
  | inl isEndpointInsecure =>
      let endpoint := getenv "AWS_EC2_ENDPOINT" in
      inl {| Config_Region := Some region;
             CredentialsChainVerboseErrors := Some true;
             Config_HTTPClient :=
               if isEndpointInsecure then Some {| InsecureSkipVerify := true |} else None;
             Config_Endpoint :=
               if String.eqb endpoint EmptyString then None else Some endpoint |}
  end.

Definition newEC2Cloud (region : string) : newCloudResult W :=
  match sessionConfig region with
  | inr e => CloudError e
  | inl awsConfig =>
      match NewSession awsConfig with
      | inr e => SessionPanic e
      | inl sess =>
          CloudCreated {| region := region; dm := NewDeviceManager; ec2 := ec2New sess |}
      end
  end.

Definition NewCloud (region : string) : newCloudResult W := newEC2Cloud region.

End NewCloud.

(** An environment with the two variables [newEC2Cloud] reads. *)
Definition sampleEnv (insecure endpoint : string) (name : string) : string :=
  if String.eqb name "AWS_EC2_ENDPOINT_UNSECURE" then insecure
  else if String.eqb name "AWS_EC2_ENDPOINT" then endpoint
  else EmptyString.

(** * Properties *)

Unset Implicit Arguments.

(** ** Running the monad *)

Section MonadFacts.

Variable W : Type.

Lemma bind_Done : forall A B (m : M W A) (k : A -> M W B) s a s',
    m s = Done a s' -> bind m k s = k a s'.
Proof. intros. unfold bind. rewrite H. reflexivity. Qed.

Lemma bind_Panic : forall A B (m : M W A) (k : A -> M W B) s p s',
    m s = Panic p s' -> bind m k s = Panic p s'.
Proof. intros. unfold bind. rewrite H. reflexivity. Qed.

Lemma invoke_eq : forall I O (tag : I -> Call) (h : I -> W -> O * W) input s o w',
    h input (world s) = (o, w') ->
    invoke tag h input s = Done o (st w' (trace s ++ [EvCall (tag input)])).
Proof. intros. unfold invoke. rewrite H. reflexivity. Qed.

End MonadFacts.

Ltac run_invoke H :=
  erewrite bind_Done by (apply invoke_eq; exact H); cbv beta iota.

(** ** Error codes *)

(** [isAWSError] holds of the provider errors that carry the code. *)
Lemma isAWSError_code : forall code msg, isAWSError (AwsErr code msg) code = true.
Proof. intros code msg. simpl. apply String.eqb_refl. Qed.

(** It fails on every other error: the errors that are no provider
    errors, and the provider errors with another code. *)
Lemma isAWSError_other : forall e code,
    (forall msg, e <> AwsErr code msg) -> isAWSError e code = false.
Proof.
  intros e code H. destruct e; try reflexivity. simpl.
  destruct (String.eqb code0 code) eqn:E; [|reflexivity].
  apply String.eqb_eq in E. subst code0. exfalso. exact (H message eq_refl).
Qed.

(** The two states that end the wait for a modification. *)
Lemma modificationDone_states : forall state,
    state = "completed" \/ state = "optimizing" -> modificationDone state = true.
Proof. intros state [H|H]; rewrite H; reflexivity. Qed.

Lemma modificationDone_other : forall state,
    state <> "completed" -> state <> "optimizing" -> modificationDone state = false.
Proof.
  intros state Hc Ho. unfold modificationDone.
  apply orb_false_iff. split; apply String.eqb_neq; assumption.
Qed.

(** ** Delete *)

(** C6. DeleteDisk answers a provider error carrying the code
    InvalidVolume.NotFound with [(false, ErrNotFound)], every other error
    (whatever is not a provider error with that code) with [false] and
    that error wrapped in the operation's message, and a provider success
    with [(true, nil)]; DeleteSnapshot does the same with the code
    InvalidSnapshot.NotFound. *)
Theorem Delete_error_mapping :
  forall W (c : cloud W) (id : string) (s : St W),
    (forall out err w',
        let request := {| DeleteVolume_VolumeId := Some id |} in
        DeleteVolumeWithContext (ec2 c) request (world s) = ((out, err), w') ->
        let s' := st w' (trace s ++ [EvCall (CallDeleteVolume request)]) in
        (forall msg, err = Some (AwsErr "InvalidVolume.NotFound" msg) ->
                     DeleteDisk c id s = Done (false, Some ErrNotFound) s')
        /\ (forall e, err = Some e ->
                      (forall msg, e <> AwsErr "InvalidVolume.NotFound" msg) ->
                      DeleteDisk c id s
                      = Done (false, Some (Errorf "DeleteDisk could not delete volume: %v" [] e)) s')
        /\ (err = None -> DeleteDisk c id s = Done (true, None) s'))
    /\
    (forall out err w',
        let request :=
          {| DeleteSnapshot_SnapshotId := Some id; DeleteSnapshot_DryRun := Some false |} in
        DeleteSnapshotWithContext (ec2 c) request (world s) = ((out, err), w') ->
        let s' := st w' (trace s ++ [EvCall (CallDeleteSnapshot request)]) in
        (forall msg, err = Some (AwsErr "InvalidSnapshot.NotFound" msg) ->
                     DeleteSnapshot c id s = Done (false, Some ErrNotFound) s')
        /\ (forall e, err = Some e ->
                      (forall msg, e <> AwsErr "InvalidSnapshot.NotFound" msg) ->
                      DeleteSnapshot c id s
                      = Done (false,
                              Some (Errorf "DeleteSnapshot could not delete volume: %v" [] e)) s')
        /\ (err = None -> DeleteSnapshot c id s = Done (true, None) s')).
Proof.
  intros W c id s; split; intros out err w' request H s'.
  - assert (E : DeleteDisk c id s
                = match err with
                  | Some e =>
                      if isAWSError e "InvalidVolume.NotFound"
                      then Done (false, Some ErrNotFound) s'
                      else Done (false,
                                 Some (Errorf "DeleteDisk could not delete volume: %v" [] e)) s'
                  | None => Done (true, None) s'
                  end).
    { unfold DeleteDisk. run_invoke H. destruct err as [e|]; [|reflexivity].
      unfold isAWSErrorVolumeNotFound.
      destruct (isAWSError e "InvalidVolume.NotFound"); reflexivity. }
    split; [|split].
    + intros msg Hm. rewrite Hm, isAWSError_code in E. exact E.
    + intros e He Hn. rewrite He, (isAWSError_other _ _ Hn) in E. exact E.
    + intros Hn. rewrite Hn in E. exact E.
  - assert (E : DeleteSnapshot c id s
                = match err with
                  | Some e =>
                      if isAWSError e "InvalidSnapshot.NotFound"
                      then Done (false, Some ErrNotFound) s'
                      else Done (false,
                                 Some (Errorf "DeleteSnapshot could not delete volume: %v" [] e))
                                s'
                  | None => Done (true, None) s'
                  end).
    { unfold DeleteSnapshot. run_invoke H. destruct err as [e|]; [|reflexivity].
      unfold isAWSErrorSnapshotNotFound.
      destruct (isAWSError e "InvalidSnapshot.NotFound"); reflexivity. }
    split; [|split].
    + intros msg Hm. rewrite Hm, isAWSError_code in E. exact E.
    + intros e He Hn. rewrite He, (isAWSError_other _ _ Hn) in E. exact E.
    + intros Hn. rewrite Hn in E. exact E.
Qed.

Lemma Delete_error_mapping_witness :
  (forall msg, volumeGone <> AwsErr "InvalidSnapshot.NotFound" msg)
  /\ (forall msg, PlainErr "connection reset" <> AwsErr "InvalidVolume.NotFound" msg)
  /\ DeleteDisk mockCloud "vol-1" (start [ReplyDeleteVolume None (Some volumeGone)])
     = Done (false, Some ErrNotFound)
         (st [] ([] ++ [EvCall (CallDeleteVolume {| DeleteVolume_VolumeId := Some "vol-1" |})]))
  /\ DeleteDisk mockCloud "vol-1"
       (start [ReplyDeleteVolume None (Some (PlainErr "connection reset"))])
     = Done (false, Some (Errorf "DeleteDisk could not delete volume: %v" []
                            (PlainErr "connection reset")))
         (st [] ([] ++ [EvCall (CallDeleteVolume {| DeleteVolume_VolumeId := Some "vol-1" |})]))
  /\ DeleteSnapshot mockCloud "snap-1"
       (start [ReplyDeleteSnapshot None (Some (AwsErr "InvalidSnapshot.NotFound" "gone"))])
     = Done (false, Some ErrNotFound)
         (st [] ([] ++ [EvCall (CallDeleteSnapshot
                                  {| DeleteSnapshot_SnapshotId := Some "snap-1";
                                     DeleteSnapshot_DryRun := Some false |})]))
  /\ DeleteSnapshot mockCloud "snap-1" (start [ReplyDeleteSnapshot None (Some volumeGone)])
     = Done (false, Some (Errorf "DeleteSnapshot could not delete volume: %v" [] volumeGone))
         (st [] ([] ++ [EvCall (CallDeleteSnapshot
                                  {| DeleteSnapshot_SnapshotId := Some "snap-1";
                                     DeleteSnapshot_DryRun := Some false |})])).
Proof.
  assert (H1 : forall msg, volumeGone <> AwsErr "InvalidSnapshot.NotFound" msg)
    by (intros msg; discriminate).
  assert (H2 : forall msg, PlainErr "connection reset" <> AwsErr "InvalidVolume.NotFound" msg)
    by (intros msg; discriminate).
  split; [exact H1|]. split; [exact H2|]. split; [|split; [|split]].
  - exact (proj1 (proj1 (Delete_error_mapping _ mockCloud "vol-1"
                           (start [ReplyDeleteVolume None (Some volumeGone)]))
                    None (Some volumeGone) [] eq_refl)
             "gone" eq_refl).
  - exact (proj1 (proj2 (proj1 (Delete_error_mapping _ mockCloud "vol-1"
                                  (start [ReplyDeleteVolume None
                                            (Some (PlainErr "connection reset"))]))
                           None (Some (PlainErr "connection reset")) [] eq_refl))
             _ eq_refl H2).
  - exact (proj1 (proj2 (Delete_error_mapping _ mockCloud "snap-1"
                           (start [ReplyDeleteSnapshot None
                                     (Some (AwsErr "InvalidSnapshot.NotFound" "gone"))]))
                    None (Some (AwsErr "InvalidSnapshot.NotFound" "gone")) [] eq_refl)
             "gone" eq_refl).
  - exact (proj1 (proj2 (proj2 (Delete_error_mapping _ mockCloud "snap-1"
                                  (start [ReplyDeleteSnapshot None (Some volumeGone)]))
                           None (Some volumeGone) [] eq_refl))
             _ eq_refl H1).
Defined.

(** ** Listing snapshots *)

(** C8. With [maxResults] among 1, 2, 3, 4 ListSnapshots returns
    ErrInvalidMaxResults and leaves the state as it was: no provider call.
    With [maxResults] 0 or at least 5 it makes exactly one
    DescribeSnapshots call carrying that [maxResults], and when the
    provider answers it with at least one snapshot the listing succeeds. *)
Theorem ListSnapshots_maxResults_guard :
  forall W (util : Util) (c : cloud W) (volumeID : string) (maxResults : Z)
         (nextToken : string) (s : St W),
    (1 <= maxResults <= 4 ->
     ListSnapshots util c volumeID maxResults nextToken s
     = Done (None, Some ErrInvalidMaxResults) s)
    /\
    (maxResults = 0 \/ 5 <= maxResults ->
     let request := listRequest volumeID maxResults nextToken in
     let issued := trace s ++ [EvCall (CallDescribeSnapshots request)] in
     DescribeSnapshots_MaxResults request = Some maxResults
     /\ trace (stateOf (ListSnapshots util c volumeID maxResults nextToken s)) = issued
     /\ forall out w',
         DescribeSnapshotsWithContext (ec2 c) request (world s) = ((Some out, None), w') ->
         Snapshots out <> [] ->
         ListSnapshots util c volumeID maxResults nextToken s
         = Done (Some {| ListSnapshotsResponse_Snapshots :=
                           map (ec2SnapshotResponseToStruct util) (Snapshots out);
                         ListSnapshotsResponse_NextToken :=
                           StringValue (DescribeSnapshotsOutput_NextToken out) |}, None)
             (st w' issued)).
Proof.
  intros W util c volumeID maxResults nextToken s. split.
  - intros [Hlo Hhi]. unfold ListSnapshots.
    replace (maxResults >? 0) with true by (symmetry; apply Z.gtb_lt; lia).
    replace (maxResults <? 5) with true by (symmetry; apply Z.ltb_lt; lia).
    reflexivity.
  - intros Hok request issued.
    assert (G : (maxResults >? 0) && (maxResults <? 5) = false).
    { destruct Hok as [-> | H5]; [reflexivity|].
      apply andb_false_iff. right. apply Z.ltb_ge. lia. }
    split; [reflexivity|].
    unfold ListSnapshots. rewrite G. fold (listRequest volumeID maxResults nextToken).
    fold request. unfold listSnapshots.
    destruct (DescribeSnapshotsWithContext (ec2 c) request (world s)) as [[out err] w'] eqn:E.
    split.
    + unfold bind at 1. unfold bind at 1. erewrite invoke_eq by exact E. cbv beta iota.
      destruct err as [e|]; [reflexivity|].
      destruct out as [out|]; [|reflexivity].
      cbn. destruct (Snapshots out); reflexivity.
    + intros out0 w0 E0 Hne. inversion E0; subst.
      unfold bind at 1. unfold bind at 1. erewrite invoke_eq by exact E. cbv beta iota.
      cbn. destruct (Snapshots out0) as [|x xs]; [contradiction|]. reflexivity.
Qed.

Lemma ListSnapshots_maxResults_guard_witness :
  (1 <= 3 <= 4
   /\ ListSnapshots utilModel mockCloud "vol-1" 3 EmptyString (start [])
      = Done (None, Some ErrInvalidMaxResults) (start []))
  /\ ((5 = 0 \/ 5 <= 5)
      /\ trace (stateOf (ListSnapshots utilModel mockCloud "vol-1" 5 EmptyString (start [])))
         = [EvCall (CallDescribeSnapshots (listRequest "vol-1" 5 EmptyString))]).
Proof.
  split; split.
  - lia.
  - apply (proj1 (ListSnapshots_maxResults_guard _ utilModel mockCloud "vol-1" 3 EmptyString
                    (start []))); lia.
  - right; lia.
  - apply (proj2 (ListSnapshots_maxResults_guard _ utilModel mockCloud "vol-1" 5 EmptyString
                    (start []))); right; lia.
Defined.

(** ** Looking a volume up *)

Section GetVolume.

Variable W : Type.
Variable c : cloud W.

Lemma last_default_irrelevant : forall A (x : A) (l : list A) (d d' : A),
    last (x :: l) d = last (x :: l) d'.
Proof.
  intros A x l; revert x. induction l as [|y l IH]; intros x d d'; [reflexivity|].
  change (last (y :: l) d = last (y :: l) d'). apply IH.
Qed.

Lemma paged_nonempty : forall request w requests volumes w',
    paged c request w requests volumes w' -> (1 <= length requests)%nat.
Proof. intros * H. destruct H; simpl; lia. Qed.

(** With fuel for every page, the loop of [getVolume] collects what the
    provider pages out, after whatever it had, and records each call. *)
Lemma getVolumePages_paged : forall request w requests volumes w',
    paged c request w requests volumes w' ->
    forall fuel acc tr,
      (length requests <= fuel)%nat ->
      getVolumePages c fuel request acc (st w tr)
      = Done (last requests request, (acc ++ volumes, None))
          (st w' (tr ++ describeCalls requests)).
Proof.
  induction 1 as [request w out w' E Htok
                 |request w out w' requests volumes w'' E Htok Hrest IH];
    intros fuel acc tr Hfuel.
  - destruct fuel as [|fuel]; [simpl in Hfuel; lia|].
    simpl getVolumePages. run_invoke E. simpl.
    unfold bind, deref, ret. rewrite Htok. reflexivity.
  - destruct fuel as [|fuel]; [simpl in Hfuel; lia|].
    simpl getVolumePages. run_invoke E. simpl.
    unfold bind at 1. unfold deref, ret.
    destruct (String.eqb_spec (StringValue (DescribeVolumesOutput_NextToken out)) EmptyString)
      as [Heq|_]; [contradiction|].
    unfold st at 1. rewrite IH by (simpl in Hfuel; lia).
    pose proof (paged_nonempty _ _ _ _ _ Hrest) as Hne.
    destruct requests as [|r rs]; [simpl in Hne; lia|].
    rewrite (last_default_irrelevant _ r rs _ request).
    rewrite <- !app_assoc. reflexivity.
Qed.

(** What [getVolume] makes of a completed listing. *)
Lemma getVolume_paged : forall request s requests volumes w' fuel,
    paged c request (world s) requests volumes w' ->
    (length requests <= fuel)%nat ->
    getVolume c fuel request s
    = let s' := st w' (trace s ++ describeCalls requests) in
      match volumes with
      | [] => Done (None, Some ErrNotFound) s'
      | [v] => Done (v, None) s'
      | _ :: _ :: _ => Done (None, Some ErrMultiDisks) s'
      end.
Proof.
  intros request [w tr] requests volumes w' fuel Hp Hfuel. simpl in Hp.
  unfold getVolume, getVolume'.
  pose proof (getVolumePages_paged _ _ _ _ _ Hp fuel [] tr Hfuel) as E.
  unfold bind. unfold st in E at 1. simpl app in E. rewrite E. unfold ret.
  destruct volumes as [|v [|v' vs]]; reflexivity.
Qed.

End GetVolume.

(** C5. When the listing filtered by the name tag completes, GetDiskByName
    fails with ErrMultiDisks if it holds two or more volumes, with
    ErrNotFound if it holds none, with ErrDiskExistsDiffSize if it holds
    one volume whose size differs from BytesToGiB(capacityBytes), and
    otherwise returns the Disk made of that volume. *)
Theorem GetDiskByName_outcomes :
  forall W (util : Util) (c : cloud W) (fuel : nat) (name : string) (capacityBytes : Z)
         (s : St W) requests volumes w',
    paged c (nameRequest name) (world s) requests volumes w' ->
    (length requests <= fuel)%nat ->
    let s' := st w' (trace s ++ describeCalls requests) in
    let found := GetDiskByName util c fuel name capacityBytes s in
    ((2 <= length volumes)%nat -> found = Done (None, Some ErrMultiDisks) s')
    /\ (volumes = [] -> found = Done (None, Some ErrNotFound) s')
    /\ (forall v, volumes = [Some v] ->
                  Int64Value (Volume_Size v) <> BytesToGiB util capacityBytes ->
                  found = Done (None, Some ErrDiskExistsDiffSize) s')
    /\ (forall v, volumes = [Some v] ->
                  Int64Value (Volume_Size v) = BytesToGiB util capacityBytes ->
                  found = Done (Some {| VolumeID := StringValue (Volume_VolumeId v);
                                        CapacityGiB := Int64Value (Volume_Size v);
                                        AvailabilityZone_ :=
                                          StringValue (Volume_AvailabilityZone v);
                                        SnapshotID := StringValue (Volume_SnapshotId v) |},
                                None) s').
Proof.
  intros W util c fuel name capacityBytes s requests volumes w' Hp Hfuel s' found.
  pose proof (getVolume_paged _ _ _ _ _ _ _ _ Hp Hfuel) as E. cbv zeta in E. fold s' in E.
  unfold found, GetDiskByName.
  repeat split.
  - intros Hlen. destruct volumes as [|v [|v' vs]]; simpl in Hlen; try lia.
    erewrite bind_Done by exact E. reflexivity.
  - intros Hv. rewrite Hv in E. erewrite bind_Done by exact E. reflexivity.
  - intros v Hv Hne. rewrite Hv in E. erewrite bind_Done by exact E. cbn.
    apply Z.eqb_neq in Hne. rewrite Hne. reflexivity.
  - intros v Hv Heq. rewrite Hv in E. erewrite bind_Done by exact E. cbn.
    apply Z.eqb_eq in Heq. rewrite Heq. reflexivity.
Qed.

(** ** Resize *)

Lemma describeCalls_not_modify : forall requests,
    Forall (fun e => ~ isModifyVolume e) (describeCalls requests).
Proof.
  intros requests. apply Forall_forall. intros e Hin [r Hr]. subst e.
  unfold describeCalls in Hin. apply in_map_iff in Hin.
  destruct Hin as [r' [Heq _]]. discriminate Heq.
Qed.

(** C2. When the volume's current size in GiB is at least
    RoundUpGiB(newSizeBytes), ResizeDisk returns the current size with no
    error, and the only provider calls it makes are the DescribeVolumes
    calls of the lookup: no ModifyVolume call. *)
Theorem ResizeDisk_current_size_suffices :
  forall W (util : Util) (c : cloud W) (fuel : nat) (volumeID : string) (newSizeBytes : Z)
         (s : St W) requests volume w',
    paged c (idRequest volumeID) (world s) requests [Some volume] w' ->
    (length requests <= fuel)%nat ->
    Int64Value (Volume_Size volume) >= RoundUpGiB util newSizeBytes ->
    ResizeDisk util c fuel volumeID newSizeBytes s
    = Done (Int64Value (Volume_Size volume), None) (st w' (trace s ++ describeCalls requests))
    /\ Forall (fun e => ~ isModifyVolume e) (describeCalls requests).
Proof.
  intros W util c fuel volumeID newSizeBytes s requests volume w' Hp Hfuel Hsize.
  split; [|apply describeCalls_not_modify].
  pose proof (getVolume_paged _ _ _ _ _ _ _ _ Hp Hfuel) as E. cbv zeta in E.
  unfold ResizeDisk. erewrite bind_Done by exact E. cbn.
  replace (Int64Value (Volume_Size volume) >=? RoundUpGiB util newSizeBytes) with true
    by (symmetry; apply Z.geb_le; lia).
  reflexivity.
Qed.

Section Resize.

Variable W : Type.
Variable c : cloud W.
Variable volumeID : string.

Lemma getLatestVolumeModification_latestIs : forall w tr m w',
    latestIs c volumeID w m w' ->
    getLatestVolumeModification c volumeID (st w tr) = Done (Some m, None) (st w' (tr ++ [pollEvent volumeID])).
Proof.
  intros w tr m w' [out [E [Hne Hlast]]].
  unfold getLatestVolumeModification.
  fold (modificationsRequest volumeID).
  erewrite bind_Done by (apply invoke_eq; exact E). cbn.
  destruct (VolumesModifications out) as [|x xs]; [contradiction|].
  simpl length. cbn -[last]. rewrite Hlast. reflexivity.
Qed.

(** One round of the wait that finds the modification still in progress. *)
Lemma waitForVolumeSizeFunc_pending : forall w tr m w' acc,
    latestIs c volumeID w m w' ->
    modificationDone (modificationState m) = false ->
    waitForVolumeSizeFunc c volumeID acc (st w tr)
    = Done (acc, (false, None)) (st w' (tr ++ [pollEvent volumeID])).
Proof.
  intros w tr m w' acc Hl Hd. unfold waitForVolumeSizeFunc.
  erewrite bind_Done by (apply getLatestVolumeModification_latestIs; exact Hl).
  cbn. unfold modificationState in Hd. rewrite Hd. reflexivity.
Qed.

(** One round of the wait that finds the modification finished. *)
Lemma waitForVolumeSizeFunc_done : forall w tr m w' acc,
    latestIs c volumeID w m w' ->
    modificationDone (modificationState m) = true ->
    waitForVolumeSizeFunc c volumeID acc (st w tr)
    = Done (Int64Value (TargetSize m), (true, None)) (st w' (tr ++ [pollEvent volumeID])).
Proof.
  intros w tr m w' acc Hl Hd. unfold waitForVolumeSizeFunc.
  erewrite bind_Done by (apply getLatestVolumeModification_latestIs; exact Hl).
  cbn. unfold modificationState in Hd. rewrite Hd. reflexivity.
Qed.

(** [k] rounds in progress use up [k] steps of the backoff. *)
Lemma ExponentialBackoff_pending : forall k w w',
    pending c volumeID k w w' ->
    forall steps acc tr,
      ExponentialBackoff (k + steps) (waitForVolumeSizeFunc c volumeID) acc (st w tr)
      = ExponentialBackoff steps (waitForVolumeSizeFunc c volumeID) acc
          (st w' (tr ++ repeat (pollEvent volumeID) k)).
Proof.
  induction 1 as [w|k w m w1 w' Hl Hc Ho Hrest IH]; intros steps acc tr.
  - simpl. rewrite app_nil_r. reflexivity.
  - simpl plus. simpl ExponentialBackoff.
    erewrite bind_Done
      by (eapply waitForVolumeSizeFunc_pending;
          [exact Hl|apply modificationDone_other; assumption]).
    cbv beta iota. rewrite IH. simpl repeat.
    rewrite <- app_assoc. reflexivity.
Qed.

Lemma waitForVolumeSize_finishes : forall k w w' m w'' tr,
    pending c volumeID k w w' ->
    (k < 20)%nat ->
    latestIs c volumeID w' m w'' ->
    modificationDone (modificationState m) = true ->
    waitForVolumeSize c volumeID (st w tr)
    = Done (Int64Value (TargetSize m), None) (st w'' (tr ++ repeat (pollEvent volumeID) (S k))).
Proof.
  intros k w w' m w'' tr Hp Hk Hl Hd. unfold waitForVolumeSize.
  replace 20%nat with (k + S (19 - k))%nat by lia.
  unfold bind. rewrite (ExponentialBackoff_pending _ _ _ Hp).
  simpl ExponentialBackoff.
  erewrite bind_Done by (eapply waitForVolumeSizeFunc_done; eassumption).
  cbn. rewrite <- app_assoc.
  replace (repeat (pollEvent volumeID) k ++ [pollEvent volumeID]) with (repeat (pollEvent volumeID) (S k)); [reflexivity|].
  clear. induction k as [|k IH]; [reflexivity|]. simpl. simpl in IH. rewrite <- IH. reflexivity.
Qed.

Lemma waitForVolumeSize_timeout : forall w w' tr,
    pending c volumeID 20 w w' ->
    waitForVolumeSize c volumeID (st w tr)
    = Done (0, Some ErrWaitTimeout) (st w' (tr ++ repeat (pollEvent volumeID) 20)).
Proof.
  intros w w' tr Hp. unfold waitForVolumeSize.
  change 20%nat with (20 + 0)%nat at 1.
  unfold bind. rewrite (ExponentialBackoff_pending _ _ _ Hp). reflexivity.
Qed.

End Resize.

(** From the modify call on, [ResizeDisk] with a modification record in
    hand, its own or the recovered one, goes on the same way. *)
Lemma ResizeDisk_obtained :
  forall W (util : Util) (c : cloud W) (fuel : nat) (volumeID : string) (newSizeBytes : Z)
         (s : St W) requests volume w1 m w2 calls,
    paged c (idRequest volumeID) (world s) requests [Some volume] w1 ->
    (length requests <= fuel)%nat ->
    Int64Value (Volume_Size volume) < RoundUpGiB util newSizeBytes ->
    obtained c volumeID
      {| ModifyVolume_VolumeId := Some volumeID;
         ModifyVolume_Size := Some (RoundUpGiB util newSizeBytes) |} w1 m w2 calls ->
    ResizeDisk util c fuel volumeID newSizeBytes s
    = (if modificationDone (modificationState m)
       then ret (Int64Value (TargetSize m), None)
       else waitForVolumeSize c volumeID)
        (st w2 (trace s ++ describeCalls requests ++ calls)).
Proof.
  intros W util c fuel volumeID newSizeBytes s requests volume w1 m w2 calls
         Hp Hfuel Hsize Hob.
  pose proof (getVolume_paged _ _ _ _ _ _ _ _ Hp Hfuel) as E. cbv zeta in E.
  unfold ResizeDisk. erewrite bind_Done by exact E. cbn.
  replace (Int64Value (Volume_Size volume) >=? RoundUpGiB util newSizeBytes) with false
    by (symmetry; rewrite Z.geb_leb; apply Z.leb_gt; lia).
  destruct Hob as [w m w' Em | w response msg w1' m w' Em Hl].
  - erewrite bind_Done by (apply invoke_eq; exact Em). cbn.
    unfold modificationState. rewrite <- app_assoc. reflexivity.
  - erewrite bind_Done by (apply invoke_eq; exact Em). cbv beta iota.
    unfold isAWSErrorIncorrectModification. rewrite isAWSError_code. cbn [negb].
    erewrite bind_Done by (apply getLatestVolumeModification_latestIs; exact Hl).
    cbn. unfold modificationState. rewrite <- !app_assoc. reflexivity.
Qed.

(** C3. When ModifyVolume is rejected with the provider code
    IncorrectModificationState, ResizeDisk fetches the latest modification
    of the volume and goes on with it as with the answer of an accepted
    call.  If the state of the record in hand is "completed" or
    "optimizing", its target size is returned at once.  Otherwise the
    latest modification is polled: after [k < 20] polls that find a state
    other than those two, a poll that finds "completed" or "optimizing"
    makes ResizeDisk return that record's target size; twenty polls that
    find another state end in ErrWaitTimeout. *)
Theorem ResizeDisk_converges_on_modification :
  forall W (util : Util) (c : cloud W) (fuel : nat) (volumeID : string) (newSizeBytes : Z)
         (s : St W) requests volume w1 m w2 calls,
    paged c (idRequest volumeID) (world s) requests [Some volume] w1 ->
    (length requests <= fuel)%nat ->
    Int64Value (Volume_Size volume) < RoundUpGiB util newSizeBytes ->
    obtained c volumeID
      {| ModifyVolume_VolumeId := Some volumeID;
         ModifyVolume_Size := Some (RoundUpGiB util newSizeBytes) |} w1 m w2 calls ->
    let tr := trace s ++ describeCalls requests ++ calls in
    let poll := EvCall (CallDescribeVolumesModifications (modificationsRequest volumeID)) in
    let resized := ResizeDisk util c fuel volumeID newSizeBytes s in
    (modificationState m = "completed" \/ modificationState m = "optimizing" ->
     resized = Done (Int64Value (TargetSize m), None) (st w2 tr))
    /\
    (modificationState m <> "completed" ->
     modificationState m <> "optimizing" ->
     forall k w3,
       pending c volumeID k w2 w3 ->
       ((k < 20)%nat ->
        forall m' w4,
          latestIs c volumeID w3 m' w4 ->
          modificationState m' = "completed" \/ modificationState m' = "optimizing" ->
          resized = Done (Int64Value (TargetSize m'), None) (st w4 (tr ++ repeat poll (S k))))
       /\ (k = 20%nat ->
           resized = Done (0, Some ErrWaitTimeout) (st w3 (tr ++ repeat poll 20)))).
Proof.
  intros W util c fuel volumeID newSizeBytes s requests volume w1 m w2 calls
         Hp Hfuel Hsize Hob tr poll resized.
  pose proof (ResizeDisk_obtained _ util c fuel volumeID newSizeBytes s _ _ _ _ _ _
                Hp Hfuel Hsize Hob) as E.
  fold resized in E. fold tr in E.
  split.
  - intros Hd. rewrite (modificationDone_states _ Hd) in E. exact E.
  - intros Hc Ho k w3 Hpend. rewrite (modificationDone_other _ Hc Ho) in E. split.
    + intros Hk m' w4 Hl Hd'. rewrite E.
      eapply waitForVolumeSize_finishes;
        [exact Hpend|exact Hk|exact Hl|apply modificationDone_states; exact Hd'].
    + intros Hk. subst k. rewrite E.
      apply waitForVolumeSize_timeout; exact Hpend.
Qed.

Lemma GetDiskByName_outcomes_witness :
  paged mockCloud (nameRequest "pvc-1")
    (world (start [volumesPage [Some volume10] None]))
    [nameRequest "pvc-1"] [Some volume10] []
  /\ (length [nameRequest "pvc-1"] <= 1)%nat
  /\ Int64Value (Volume_Size volume10) <> BytesToGiB utilModel (20 * GiB)
  /\ GetDiskByName utilModel mockCloud 1 "pvc-1" (20 * GiB)
       (start [volumesPage [Some volume10] None])
     = Done (None, Some ErrDiskExistsDiffSize)
         (st [] (describeCalls [nameRequest "pvc-1"])).
Proof.
  assert (Hp : paged mockCloud (nameRequest "pvc-1")
                 (world (start [volumesPage [Some volume10] None]))
                 [nameRequest "pvc-1"] [Some volume10] []).
  { refine (@paged_last _ _ _ _ (volumesOutput [Some volume10] None) _ _ _); reflexivity. }
  assert (Hne : Int64Value (Volume_Size volume10) <> BytesToGiB utilModel (20 * GiB)).
  { vm_compute. discriminate. }
  split; [exact Hp|]. split; [apply le_n|]. split; [exact Hne|].
  exact (proj1 (proj2 (proj2 (GetDiskByName_outcomes _ utilModel mockCloud 1 "pvc-1" (20 * GiB)
                                (start [volumesPage [Some volume10] None]) _ _ _
                                Hp (le_n 1))))
           volume10 eq_refl Hne).
Defined.

Lemma ResizeDisk_current_size_suffices_witness :
  paged mockCloud (idRequest "vol-1")
    (world (start [volumesPage [Some volume10] None]))
    [idRequest "vol-1"] [Some volume10] []
  /\ (length [idRequest "vol-1"] <= 1)%nat
  /\ Int64Value (Volume_Size volume10) >= RoundUpGiB utilModel (9 * GiB + 1)
  /\ ResizeDisk utilModel mockCloud 1 "vol-1" (9 * GiB + 1)
       (start [volumesPage [Some volume10] None])
     = Done (10, None) (st [] (describeCalls [idRequest "vol-1"])).
Proof.
  assert (Hp : paged mockCloud (idRequest "vol-1")
                 (world (start [volumesPage [Some volume10] None]))
                 [idRequest "vol-1"] [Some volume10] []).
  { refine (@paged_last _ _ _ _ (volumesOutput [Some volume10] None) _ _ _); reflexivity. }
  assert (Hsize : Int64Value (Volume_Size volume10) >= RoundUpGiB utilModel (9 * GiB + 1)).
  { vm_compute. discriminate. }
  split; [exact Hp|]. split; [apply le_n|]. split; [exact Hsize|].
  exact (proj1 (ResizeDisk_current_size_suffices _ utilModel mockCloud 1 "vol-1" (9 * GiB + 1)
                  (start [volumesPage [Some volume10] None]) _ _ _ Hp (le_n 1) Hsize)).
Defined.

Lemma ResizeDisk_converges_on_modification_witness :
  (paged mockCloud (idRequest "vol-1") (world (start resizeScript))
     [idRequest "vol-1"] [Some volume10] (skipn 1 resizeScript))
  /\ Int64Value (Volume_Size volume10) < RoundUpGiB utilModel (11 * GiB)
  /\ obtained mockCloud "vol-1" (resizeRequest "vol-1" (RoundUpGiB utilModel (11 * GiB)))
       (skipn 1 resizeScript) (modification "modifying" 11) (skipn 3 resizeScript)
       [EvCall (CallModifyVolume (resizeRequest "vol-1" (RoundUpGiB utilModel (11 * GiB))));
        pollEvent "vol-1"]
  /\ modificationState (modification "modifying" 11) <> "completed"
  /\ modificationState (modification "modifying" 11) <> "optimizing"
  /\ pending mockCloud "vol-1" 1 (skipn 3 resizeScript) (skipn 4 resizeScript)
  /\ latestIs mockCloud "vol-1" (skipn 4 resizeScript) (modification "optimizing" 11) []
  /\ ResizeDisk utilModel mockCloud 1 "vol-1" (11 * GiB) (start resizeScript)
     = Done (11, None)
         (st [] (([] ++ describeCalls [idRequest "vol-1"]
                  ++ [EvCall (CallModifyVolume
                                (resizeRequest "vol-1" (RoundUpGiB utilModel (11 * GiB))));
                      pollEvent "vol-1"])
                 ++ repeat (pollEvent "vol-1") 2))
  /\ ResizeDisk utilModel mockCloud 1 "vol-1" (11 * GiB)
       (start [volumesPage [Some volume10] None;
               ReplyModifyVolume None (Some modificationBusy);
               modificationsPage (modification "completed" 12)])
     = Done (12, None)
         (st [] ([] ++ describeCalls [idRequest "vol-1"]
                 ++ [EvCall (CallModifyVolume
                               (resizeRequest "vol-1" (RoundUpGiB utilModel (11 * GiB))));
                     pollEvent "vol-1"])).
Proof.
  assert (Hpage : forall rest,
             paged mockCloud (idRequest "vol-1") (volumesPage [Some volume10] None :: rest)
               [idRequest "vol-1"] [Some volume10] rest).
  { intros rest.
    refine (@paged_last _ _ _ _ (volumesOutput [Some volume10] None) _ _ _); reflexivity. }
  assert (Hp : paged mockCloud (idRequest "vol-1") (world (start resizeScript))
                 [idRequest "vol-1"] [Some volume10] (skipn 1 resizeScript))
    by exact (Hpage _).
  assert (Hsize : Int64Value (Volume_Size volume10) < RoundUpGiB utilModel (11 * GiB)).
  { vm_compute. reflexivity. }
  assert (Hlatest : forall state size rest,
             latestIs mockCloud "vol-1" (modificationsPage (modification state size) :: rest)
               (modification state size) rest).
  { intros state size rest. exists (modificationsOutput (modification state size)).
    split; [reflexivity|]. split; [discriminate|reflexivity]. }
  assert (Hl3 : latestIs mockCloud "vol-1" (skipn 4 resizeScript)
                  (modification "optimizing" 11) [])
    by exact (Hlatest _ _ _).
  assert (Hob : obtained mockCloud "vol-1"
                  (resizeRequest "vol-1" (RoundUpGiB utilModel (11 * GiB)))
                  (skipn 1 resizeScript) (modification "modifying" 11) (skipn 3 resizeScript)
                  [EvCall (CallModifyVolume
                             (resizeRequest "vol-1" (RoundUpGiB utilModel (11 * GiB))));
                   pollEvent "vol-1"]).
  { exact (@obtained_recovered _ mockCloud "vol-1" _ (skipn 1 resizeScript) None "busy"
             (skipn 2 resizeScript) _ _ eq_refl (Hlatest "modifying" 11 _)). }
  assert (Hob' : obtained mockCloud "vol-1"
                   (resizeRequest "vol-1" (RoundUpGiB utilModel (11 * GiB)))
                   [ReplyModifyVolume None (Some modificationBusy);
                    modificationsPage (modification "completed" 12)]
                   (modification "completed" 12) []
                   [EvCall (CallModifyVolume
                              (resizeRequest "vol-1" (RoundUpGiB utilModel (11 * GiB))));
                    pollEvent "vol-1"]).
  { refine (@obtained_recovered _ mockCloud "vol-1" _ _ None "busy"
              [modificationsPage (modification "completed" 12)] _ _ _
              (Hlatest "completed" 12 [])); reflexivity. }
  assert (Hc : modificationState (modification "modifying" 11) <> "completed")
    by discriminate.
  assert (Ho : modificationState (modification "modifying" 11) <> "optimizing")
    by discriminate.
  assert (Hpend : pending mockCloud "vol-1" 1 (skipn 3 resizeScript) (skipn 4 resizeScript)).
  { exact (@pending_S _ mockCloud "vol-1" 0 _ _ _ _ (Hlatest "modifying" 11 _) Hc Ho
             (@pending_O _ mockCloud "vol-1" _)). }
  assert (Hlt : (1 < 20)%nat) by repeat constructor.
  split; [exact Hp|]. split; [exact Hsize|]. split; [exact Hob|].
  split; [exact Hc|]. split; [exact Ho|]. split; [exact Hpend|]. split; [exact Hl3|].
  split.
  - exact (proj1 (proj2 (ResizeDisk_converges_on_modification _ utilModel mockCloud 1 "vol-1"
                           (11 * GiB) (start resizeScript) _ _ _ _ _ _
                           Hp (le_n 1) Hsize Hob)
                    Hc Ho 1%nat _ Hpend) Hlt _ _ Hl3 (or_intror eq_refl)).
  - exact (proj1 (ResizeDisk_converges_on_modification _ utilModel mockCloud 1 "vol-1"
                    (11 * GiB)
                    (start [volumesPage [Some volume10] None;
                            ReplyModifyVolume None (Some modificationBusy);
                            modificationsPage (modification "completed" 12)])
                    _ _ _ _ _ _ (Hpage _) (le_n 1) Hsize Hob')
             (or_introl eq_refl)).
Defined.

(** The two shapes of a ModifyVolume answer without error and without a
    modification record: a nil output, and an output whose
    VolumeModification is nil.  In both, [ResizeDisk] dereferences the nil
    record. *)
Lemma ResizeDisk_missing_modification :
  forall W (util : Util) (c : cloud W) (fuel : nat) (volumeID : string) (newSizeBytes : Z)
         (s : St W) requests volume w1 response w2,
    paged c (idRequest volumeID) (world s) requests [Some volume] w1 ->
    (length requests <= fuel)%nat ->
    Int64Value (Volume_Size volume) < RoundUpGiB util newSizeBytes ->
    ModifyVolumeWithContext (ec2 c) (resizeRequest volumeID (RoundUpGiB util newSizeBytes)) w1
    = ((response, None), w2) ->
    response = None \/ response = Some {| ModifyVolumeOutput_VolumeModification := None |} ->
    ResizeDisk util c fuel volumeID newSizeBytes s
    = Panic NilDereference
        (st w2 (trace s ++ describeCalls requests
                ++ [EvCall (CallModifyVolume
                              (resizeRequest volumeID (RoundUpGiB util newSizeBytes)))])).
Proof.
  intros W util c fuel volumeID newSizeBytes s requests volume w1 response w2
         Hp Hfuel Hsize Em Hshape.
  pose proof (getVolume_paged _ _ _ _ _ _ _ _ Hp Hfuel) as E. cbv zeta in E.
  unfold ResizeDisk. erewrite bind_Done by exact E. cbn.
  replace (Int64Value (Volume_Size volume) >=? RoundUpGiB util newSizeBytes) with false
    by (symmetry; rewrite Z.geb_leb; apply Z.leb_gt; lia).
  erewrite bind_Done by (apply invoke_eq; exact Em).
  destruct Hshape as [-> | ->]; cbn; rewrite <- app_assoc; reflexivity.
Qed.

(** C7. At a ModifyVolume answer with nil error whose output carries no
    VolumeModification record (and at one with a nil output), ResizeDisk
    panics on a nil dereference; it does not return an error. *)
Theorem ResizeDisk_panics_without_modification :
  ResizeDisk utilModel mockCloud 1 "vol-1" (11 * GiB)
    (start [volumesPage [Some volume10] None;
            ReplyModifyVolume (Some {| ModifyVolumeOutput_VolumeModification := None |}) None])
  = Panic NilDereference
      (st [] [EvCall (CallDescribeVolumes (idRequest "vol-1"));
              EvCall (CallModifyVolume (resizeRequest "vol-1" 11))])
  /\ ResizeDisk utilModel mockCloud 1 "vol-1" (11 * GiB)
       (start [volumesPage [Some volume10] None; ReplyModifyVolume None None])
     = Panic NilDereference
         (st [] [EvCall (CallDescribeVolumes (idRequest "vol-1"));
                 EvCall (CallModifyVolume (resizeRequest "vol-1" 11))]).
Proof. split; vm_compute; reflexivity. Qed.

(** ** What a computation adds to the trace *)

Section TraceFacts.

Variable W : Type.
Variable P : Event -> Prop.

Lemma adds_ret : forall A (a : A), adds P (ret (W:=W) a).
Proof. intros A a s. exists []. simpl. rewrite app_nil_r. split; [reflexivity|constructor]. Qed.

Lemma adds_raise : forall A p, adds P (raise (W:=W) (A:=A) p).
Proof. intros A p s. exists []. simpl. rewrite app_nil_r. split; [reflexivity|constructor]. Qed.

Lemma adds_outOfFuel : forall A, adds P (outOfFuel (W:=W) (A:=A)).
Proof. intros A s. exists []. simpl. rewrite app_nil_r. split; [reflexivity|constructor]. Qed.

Lemma adds_deref : forall A (p : option A), adds P (deref (W:=W) p).
Proof. intros A [a|]; [apply adds_ret|apply adds_raise]. Qed.

Lemma adds_emit : forall e, P e -> adds P (emit (W:=W) e).
Proof. intros e He s. exists [e]. simpl. split; [reflexivity|repeat constructor; exact He]. Qed.

Lemma adds_invoke : forall I O (tag : I -> Call) (h : I -> W -> O * W) input,
    P (EvCall (tag input)) -> adds P (invoke tag h input).
Proof.
  intros I O tag h input He s. exists [EvCall (tag input)]. unfold invoke.
  destruct (h input (world s)) as [o w']. simpl.
  split; [reflexivity|repeat constructor; exact He].
Qed.

Lemma adds_bind : forall A B (m : M W A) (k : A -> M W B),
    adds P m -> (forall a, adds P (k a)) -> adds P (bind m k).
Proof.
  intros A B m k Hm Hk s. destruct (Hm s) as [ev1 [E1 F1]]. unfold bind.
  destruct (m s) as [a s1|p s1|s1]; simpl in E1.
  - destruct (Hk a s1) as [ev2 [E2 F2]]. exists (ev1 ++ ev2).
    rewrite E2, E1, app_assoc. split; [reflexivity|apply Forall_app; split; assumption].
  - exists ev1. split; assumption.
  - exists ev1. split; assumption.
Qed.

Lemma adds_defer : forall A (cleanup : M W unit) (body : M W A),
    adds P cleanup -> adds P body -> adds P (defer cleanup body).
Proof.
  intros A cleanup body Hc Hb s. destruct (Hb s) as [ev1 [E1 F1]]. unfold defer.
  destruct (body s) as [a s1|p s1|s1]; simpl in E1.
  - destruct (Hc s1) as [ev2 [E2 F2]]. exists (ev1 ++ ev2).
    split; [|apply Forall_app; split; assumption].
    rewrite app_assoc, <- E1, <- E2. destruct (cleanup s1); reflexivity.
  - destruct (Hc s1) as [ev2 [E2 F2]]. exists (ev1 ++ ev2).
    split; [|apply Forall_app; split; assumption].
    rewrite app_assoc, <- E1, <- E2. destruct (cleanup s1); reflexivity.
  - exists ev1. split; assumption.
Qed.

Lemma adds_ExponentialBackoff :
  forall L (condition : L -> M W (L * (bool * option error))) steps l,
    (forall l', adds P (condition l')) -> adds P (ExponentialBackoff steps condition l).
Proof.
  intros L condition steps. induction steps as [|steps IH]; intros l Hc.
  - apply adds_ret.
  - simpl. apply adds_bind; [apply Hc|]. intros [l' [ok err]].
    destruct err as [e|]; [apply adds_ret|].
    destruct ok; [apply adds_ret|apply IH; exact Hc].
Qed.

Lemma adds_Poll :
  forall L (condition : L -> M W (L * (bool * option error))) ticks l,
    (forall l', adds P (condition l')) -> adds P (Poll ticks condition l).
Proof.
  intros L condition ticks. induction ticks as [|ticks IH]; intros l Hc.
  - simpl. apply adds_bind; [apply Hc|]. intros [l' [ok err]].
    destruct err as [e|]; [apply adds_ret|].
    destruct ok; apply adds_ret.
  - simpl. apply adds_bind; [apply Hc|]. intros [l' [ok err]].
    destruct err as [e|]; [apply adds_ret|].
    destruct ok; [apply adds_ret|apply IH; exact Hc].
Qed.

End TraceFacts.

Section LookupTraces.

Variable W : Type.
Variable c : cloud W.
Variable P : Event -> Prop.
Hypothesis describeVolumes_ok : forall request, P (EvCall (CallDescribeVolumes request)).

Lemma adds_getVolumePages : forall fuel request volumes,
    adds P (getVolumePages c fuel request volumes).
Proof.
  induction fuel as [|fuel IH]; intros request volumes; simpl.
  - apply adds_outOfFuel.
  - apply adds_bind; [apply adds_invoke, describeVolumes_ok|]. intros [response err].
    destruct err as [e|]; [apply adds_ret|].
    apply adds_bind; [apply adds_deref|]. intros out.
    destruct (String.eqb _ _); [apply adds_ret|apply IH].
Qed.

Lemma adds_getVolume' : forall fuel request, adds P (getVolume' c fuel request).
Proof.
  intros fuel request. unfold getVolume'.
  apply adds_bind; [apply adds_getVolumePages|]. intros [request' [volumes err]].
  destruct err as [e|]; [apply adds_ret|].
  destruct (_ <? _)%nat; [apply adds_ret|].
  destruct (_ <? _)%nat; [apply adds_ret|].
  destruct volumes; [apply adds_raise|apply adds_ret].
Qed.

Lemma adds_getVolume : forall fuel request, adds P (getVolume c fuel request).
Proof.
  intros fuel request. unfold getVolume.
  apply adds_bind; [apply adds_getVolume'|]. intros [request' r]. apply adds_ret.
Qed.

Lemma adds_waitForVolume : forall pollTicks fuel volumeID,
    adds P (waitForVolume pollTicks c fuel volumeID).
Proof.
  intros pollTicks fuel volumeID. unfold waitForVolume.
  apply adds_bind; [|intros [request err]; apply adds_ret].
  apply adds_Poll. intros request. unfold waitForVolumeFunc.
  apply adds_bind; [apply adds_getVolume'|]. intros [request' [vol err]].
  destruct err as [e|]; [apply adds_ret|].
  apply adds_bind; [apply adds_deref|]. intros v.
  destruct (Volume_State v); apply adds_ret.
Qed.

End LookupTraces.

(** ** Create *)

Lemma zoneNames_zonesNamed : forall W names zones (s : St W),
    zoneNames (zonesNamed names) zones s = Done (zones ++ names) s.
Proof.
  intros W names. induction names as [|n names IH]; intros zones s; simpl.
  - rewrite app_nil_r. reflexivity.
  - unfold bind at 1. simpl. unfold bind at 1. simpl.
    rewrite IH, <- app_assoc. reflexivity.
Qed.

Lemma zoneNames_Done : forall W azs zones (s : St W) result s',
    zoneNames azs zones s = Done result s' ->
    s' = s /\ exists names, azs = zonesNamed names /\ result = zones ++ names.
Proof.
  intros W azs. induction azs as [|az azs IH]; intros zones s result s' H; simpl in H.
  - inversion H; subst. split; [reflexivity|]. exists []. rewrite app_nil_r. split; reflexivity.
  - destruct az as [[[name|]]|]; try discriminate H.
    unfold bind in H. simpl in H.
    apply IH in H. destruct H as [-> [names [-> ->]]].
    split; [reflexivity|]. exists (name :: names).
    rewrite <- app_assoc. split; reflexivity.
Qed.

Lemma adds_zoneNames : forall W P azs zones, adds P (zoneNames (W:=W) azs zones).
Proof.
  intros W P azs. induction azs as [|az azs IH]; intros zones; simpl.
  - apply adds_ret.
  - apply adds_bind; [apply adds_deref|]. intros z.
    apply adds_bind; [apply adds_deref|]. intros name. apply IH.
Qed.

Lemma adds_randomAvailabilityZone : forall W (c : cloud W) (P : Event -> Prop) region,
    (forall request, P (EvCall (CallDescribeAvailabilityZones request))) ->
    adds P (randomAvailabilityZone c region).
Proof.
  intros W c P region HP. unfold randomAvailabilityZone.
  apply adds_bind; [apply adds_invoke, HP|]. intros [response err].
  destruct err as [e|]; [apply adds_ret|].
  apply adds_bind; [apply adds_deref|]. intros out.
  apply adds_bind; [apply adds_zoneNames|]. intros zones.
  destruct zones; [apply adds_raise|apply adds_ret].
Qed.

Lemma clamp_code : forall x,
    (let iops := if x <? MinTotalIOPS then MinTotalIOPS else x in
     if iops >? MaxTotalIOPS then MaxTotalIOPS else iops)
    = clamp MinTotalIOPS MaxTotalIOPS x.
Proof.
  intros x. unfold clamp, MinTotalIOPS, MaxTotalIOPS. cbv zeta.
  destruct (Z.ltb_spec x 100); destruct (Z.gtb_spec 100 20000);
    try lia; destruct (Z.gtb_spec x 20000); lia.
Qed.

Lemma wrap64_small : forall z, in_int64 z -> wrap64 z = z.
Proof.
  intros z [Hlo Hhi]. unfold wrap64.
  rewrite Z.mod_small by lia. lia.
Qed.

(** The io1/io2 branch of the switch: the two [if]s are a clamp of the
    int64 product. *)
Lemma CreateDisk_io_type : forall o capacityGiB,
    VolumeType o = VolumeTypeIO1 \/ VolumeType o = VolumeTypeIO2 ->
    createTypeAndIops o capacityGiB
    = inl (VolumeType o,
           clamp MinTotalIOPS MaxTotalIOPS (mul64 capacityGiB (IOPSPerGB o))).
Proof.
  intros o capacityGiB Hvt. unfold createTypeAndIops.
  rewrite <- clamp_code. destruct Hvt as [-> | ->]; reflexivity.
Qed.

Lemma clamp_bounds : forall x,
    MinTotalIOPS <= clamp MinTotalIOPS MaxTotalIOPS x <= MaxTotalIOPS.
Proof. intros x. unfold clamp, MinTotalIOPS, MaxTotalIOPS. lia. Qed.

Lemma createVolumeRequest_Iops : forall o capacityGiB createType x zone,
    CreateVolume_Iops
      (createVolumeRequest o capacityGiB createType (clamp MinTotalIOPS MaxTotalIOPS x) zone)
    = Some (clamp MinTotalIOPS MaxTotalIOPS x).
Proof.
  intros o capacityGiB createType x zone. simpl.
  pose proof (clamp_bounds x) as [Hlo _]. unfold MinTotalIOPS in Hlo.
  destruct (Z.gtb_spec (clamp MinTotalIOPS MaxTotalIOPS x) 0); [reflexivity|].
  unfold MinTotalIOPS in *. lia.
Qed.

(** A call that opens a computation opens what it adds to the trace. *)
Lemma bind_invoke_prefix :
  forall W I O B (tag : I -> Call) (h : I -> W -> O * W) input (k : O -> M W B) s,
    (forall o, adds (fun _ => True) (k o)) ->
    exists rest,
      trace (stateOf (bind (invoke tag h input) k s)) = trace s ++ EvCall (tag input) :: rest.
Proof.
  intros W I O B tag h input k s Hk. unfold bind, invoke.
  destruct (h input (world s)) as [o w'].
  destruct (Hk o {| world := w'; trace := trace s ++ [EvCall (tag input)] |}) as [rest [E _]].
  exists rest. rewrite E. simpl. rewrite <- app_assoc. reflexivity.
Qed.

(** The part of [CreateDisk] after the create call adds nothing but the
    DescribeVolumes calls of the wait. *)
Lemma adds_CreateDisk_after_create :
  forall W pollTicks (c : cloud W) fuel (P : Event -> Prop) zone snapshotID
         (r : option Volume * option error),
    (forall request, P (EvCall (CallDescribeVolumes request))) ->
    adds P
      (let (response, err) := r in
       match err with
       | Some e =>
           if isAWSErrorSnapshotNotFound e then ret (None, Some ErrNotFound)
           else ret (None, Some (Errorf "could not create volume in EC2: %v" [] e))
       | None =>
           response <- deref response ;;
           let volumeID := StringValue (Volume_VolumeId response) in
           if (String.length volumeID =? 0)%nat then
             ret (None, Some (ErrorfMsg "volume ID was not returned by CreateVolume" []))
           else
             let size := Int64Value (Volume_Size response) in
             if size =? 0 then
               ret (None, Some (ErrorfMsg "disk size was not returned by CreateVolume" []))
             else
               err <- waitForVolume pollTicks c fuel volumeID ;;
               match err with
               | Some e =>
                   ret (None,
                        Some (Errorf "failed to get an available volume in EC2: %v" [] e))
               | None =>
                   ret (Some {| CapacityGiB := size; VolumeID := volumeID;
                                AvailabilityZone_ := zone;
                                SnapshotID := snapshotID |}, None)
               end
       end).
Proof.
  intros W pollTicks c fuel P zone snapshotID [response err] HP.
  destruct err as [e|].
  - destruct (isAWSErrorSnapshotNotFound e); apply adds_ret.
  - apply adds_bind; [apply adds_deref|]. intros v.
    cbv zeta. destruct (_ =? _)%nat; [apply adds_ret|].
    destruct (_ =? _); [apply adds_ret|].
    apply adds_bind; [apply adds_waitForVolume; exact HP|]. intros err.
    destruct err; apply adds_ret.
Qed.

(** C4, as the code has it.  For io1 and io2, whatever the capacity and
    the rate, the IOPS CreateDisk computes is the int64 product
    BytesToGiB(CapacityBytes) * IOPSPerGB, with its wrap-around, clamped to
    100..20000; that is the clamped exact product whenever the exact
    product fits int64, and every CreateVolume request CreateDisk sends
    carries exactly that value; with a zone given, the request is the
    first call it makes. *)
Theorem CreateDisk_io_iops_clamped :
  forall W (util : Util) (pollTicks : nat) (c : cloud W) (fuel : nat) (volumeName : string)
         (o : DiskOptions),
    VolumeType o = VolumeTypeIO1 \/ VolumeType o = VolumeTypeIO2 ->
    let capacityGiB := BytesToGiB util (CapacityBytes o) in
    let iops := clamp MinTotalIOPS MaxTotalIOPS (mul64 capacityGiB (IOPSPerGB o)) in
    createTypeAndIops o capacityGiB = inl (VolumeType o, iops)
    /\ MinTotalIOPS <= iops <= MaxTotalIOPS
    /\ (in_int64 (capacityGiB * IOPSPerGB o) ->
        iops = clamp MinTotalIOPS MaxTotalIOPS (capacityGiB * IOPSPerGB o))
    /\ adds (fun e => forall request,
                 e = EvCall (CallCreateVolume request) -> CreateVolume_Iops request = Some iops)
         (CreateDisk util pollTicks c fuel volumeName o)
    /\ (DiskOptions_AvailabilityZone o <> EmptyString ->
        forall s, exists rest,
          trace (stateOf (CreateDisk util pollTicks c fuel volumeName o s))
          = trace s
            ++ EvCall (CallCreateVolume
                         (createVolumeRequest o capacityGiB (VolumeType o) iops
                            (DiskOptions_AvailabilityZone o))) :: rest).
Proof.
  intros W util pollTicks c fuel volumeName o Hvt capacityGiB iops.
  pose proof (CreateDisk_io_type o capacityGiB Hvt) as Htype. fold iops in Htype.
  split; [exact Htype|]. split; [apply clamp_bounds|].
  split; [intros Hfit; unfold iops, mul64; rewrite wrap64_small by exact Hfit; reflexivity|].
  split.
  - unfold CreateDisk. fold capacityGiB. rewrite Htype.
    apply adds_bind.
    + destruct (String.eqb _ _); [|apply adds_ret].
      apply adds_randomAvailabilityZone. intros request r Hr. discriminate Hr.
    + intros [zone err]. destruct err as [e|]; [apply adds_ret|].
      apply adds_bind.
      * apply adds_invoke. intros request Hr. inversion Hr; subst request.
        apply createVolumeRequest_Iops.
      * intros r. apply adds_CreateDisk_after_create.
        intros request r' Hr. discriminate Hr.
  - intros Hzone s. unfold CreateDisk. fold capacityGiB. rewrite Htype.
    destruct (String.eqb_spec (DiskOptions_AvailabilityZone o) EmptyString) as [Heq|_];
      [contradiction|].
    unfold bind at 1. unfold ret at 1. cbv beta iota.
    apply bind_invoke_prefix. intros r.
    apply adds_CreateDisk_after_create. intros; exact I.
Qed.

Lemma CreateDisk_io_iops_clamped_witness :
  (VolumeType (ioOptions (4 * GiB) 10 "us-test-1a") = VolumeTypeIO1
   \/ VolumeType (ioOptions (4 * GiB) 10 "us-test-1a") = VolumeTypeIO2)
  /\ in_int64 (BytesToGiB utilModel (4 * GiB) * 10)
  /\ in_int64 (BytesToGiB utilModel (1000 * GiB) * 50)
  /\ createTypeAndIops (ioOptions (4 * GiB) 10 "us-test-1a")
       (BytesToGiB utilModel (CapacityBytes (ioOptions (4 * GiB) 10 "us-test-1a")))
     = inl (VolumeTypeIO1, 100)
  /\ 100 = clamp MinTotalIOPS MaxTotalIOPS (4 * 10)
  /\ createTypeAndIops (ioOptions (1000 * GiB) 50 "us-test-1a")
       (BytesToGiB utilModel (CapacityBytes (ioOptions (1000 * GiB) 50 "us-test-1a")))
     = inl (VolumeTypeIO1, 20000)
  /\ 20000 = clamp MinTotalIOPS MaxTotalIOPS (1000 * 50)
  /\ createTypeAndIops (ioOptions (4 * GiB) 50 "us-test-1a")
       (BytesToGiB utilModel (CapacityBytes (ioOptions (4 * GiB) 50 "us-test-1a")))
     = inl (VolumeTypeIO1, 200).
Proof.
  assert (Hio : forall capacity rate,
             VolumeType (ioOptions capacity rate "us-test-1a") = VolumeTypeIO1
             \/ VolumeType (ioOptions capacity rate "us-test-1a") = VolumeTypeIO2)
    by (intros capacity rate; left; reflexivity).
  assert (Hfit1 : in_int64 (BytesToGiB utilModel (4 * GiB) * 10))
    by (vm_compute; split; [discriminate|reflexivity]).
  assert (Hfit2 : in_int64 (BytesToGiB utilModel (1000 * GiB) * 50))
    by (vm_compute; split; [discriminate|reflexivity]).
  split; [exact (Hio _ _)|]. split; [exact Hfit1|]. split; [exact Hfit2|].
  split; [|split; [|split; [|split]]].
  - exact (proj1 (CreateDisk_io_iops_clamped _ utilModel 20 mockCloud 1 "pvc-1"
                    (ioOptions (4 * GiB) 10 "us-test-1a") (Hio _ _))).
  - exact (proj1 (proj2 (proj2 (CreateDisk_io_iops_clamped _ utilModel 20 mockCloud 1 "pvc-1"
                                  (ioOptions (4 * GiB) 10 "us-test-1a") (Hio _ _))))
             Hfit1).
  - exact (proj1 (CreateDisk_io_iops_clamped _ utilModel 20 mockCloud 1 "pvc-1"
                    (ioOptions (1000 * GiB) 50 "us-test-1a") (Hio _ _))).
  - exact (proj1 (proj2 (proj2 (CreateDisk_io_iops_clamped _ utilModel 20 mockCloud 1 "pvc-1"
                                  (ioOptions (1000 * GiB) 50 "us-test-1a") (Hio _ _))))
             Hfit2).
  - exact (proj1 (CreateDisk_io_iops_clamped _ utilModel 20 mockCloud 1 "pvc-1"
                    (ioOptions (4 * GiB) 50 "us-test-1a") (Hio _ _))).
Defined.

(** C4 as stated fails: 4 GiB at a rate of 2^61 per GiB are both int64
    values, and the exact product 2^63 clamped to 100..20000 is 20000; but
    the int64 product wraps around to a negative number, so CreateDisk
    computes 100 and sends 100 in its create request. *)
Lemma CreateDisk_io_iops_product_wraps :
  in_int64 (CapacityBytes (ioOptions (4 * GiB) (2 ^ 61) "us-test-1a"))
  /\ in_int64 (IOPSPerGB (ioOptions (4 * GiB) (2 ^ 61) "us-test-1a"))
  /\ BytesToGiB utilModel (CapacityBytes (ioOptions (4 * GiB) (2 ^ 61) "us-test-1a")) = 4
  /\ clamp MinTotalIOPS MaxTotalIOPS (4 * 2 ^ 61) = 20000
  /\ createTypeAndIops (ioOptions (4 * GiB) (2 ^ 61) "us-test-1a") 4
     = inl (VolumeTypeIO1, 100)
  /\ CreateDisk utilModel 20 mockCloud 1 "pvc-1" (ioOptions (4 * GiB) (2 ^ 61) "us-test-1a")
       (start [ReplyCreateVolume None (Some internalError)])
     = Done (None, Some (Errorf "could not create volume in EC2: %v" [] internalError))
         (st [] [EvCall (CallCreateVolume
                           (createVolumeRequest (ioOptions (4 * GiB) (2 ^ 61) "us-test-1a")
                              4 VolumeTypeIO1 100 "us-test-1a"))])
  /\ CreateVolume_Iops
       (createVolumeRequest (ioOptions (4 * GiB) (2 ^ 61) "us-test-1a")
          4 VolumeTypeIO1 100 "us-test-1a")
     = Some 100
  /\ 100 <> clamp MinTotalIOPS MaxTotalIOPS (4 * 2 ^ 61).
Proof.
  split; [vm_compute; split; [discriminate|reflexivity]|].
  split; [vm_compute; split; [discriminate|reflexivity]|].
  split; [vm_compute; reflexivity|].
  split; [vm_compute; reflexivity|].
  split; [vm_compute; reflexivity|].
  split; [vm_compute; reflexivity|].
  split; [vm_compute; reflexivity|].
  vm_compute. discriminate.
Qed.

(** C10. With no zone in the options and a DescribeAvailabilityZones
    answer that succeeds with an empty listing, CreateDisk panics with an
    index out of range.  With a non-empty listing, a zone that
    randomAvailabilityZone returns is the name of the listing's first
    entry, and it does return it when every entry carries a name; the
    create request then names that zone. *)
Theorem CreateDisk_zone_from_listing :
  forall W (util : Util) (pollTicks : nat) (c : cloud W) (fuel : nat) (volumeName : string)
         (o : DiskOptions) (s : St W) out w',
    In (VolumeType o)
       [VolumeTypeIO1; VolumeTypeIO2; VolumeTypeGP2; VolumeTypeST2; VolumeTypeStandard;
        EmptyString] ->
    DiskOptions_AvailabilityZone o = EmptyString ->
    DescribeAvailabilityZonesWithContext (ec2 c) Build_DescribeAvailabilityZonesInput (world s)
    = ((Some out, None), w') ->
    let listed :=
      st w' (trace s ++ [EvCall (CallDescribeAvailabilityZones
                                   Build_DescribeAvailabilityZonesInput)]) in
    (AvailabilityZones out = [] ->
     CreateDisk util pollTicks c fuel volumeName o s = Panic IndexOutOfRange listed)
    /\
    (forall first others,
        AvailabilityZones out = first :: others ->
        (forall zone s', randomAvailabilityZone c (region c) s = Done (zone, None) s' ->
                         first = Some {| ZoneName := Some zone |})
        /\ (forall name names,
               first :: others = zonesNamed (name :: names) ->
               randomAvailabilityZone c (region c) s = Done (name, None) listed
               /\ exists createType iops rest,
                   trace (stateOf (CreateDisk util pollTicks c fuel volumeName o s))
                   = trace listed
                     ++ EvCall (CallCreateVolume
                                  (createVolumeRequest o (BytesToGiB util (CapacityBytes o))
                                     createType iops name)) :: rest)).
Proof.
  intros W util pollTicks c fuel volumeName o s out w' Hvt Hzone Eaz listed.
  assert (Hrand : randomAvailabilityZone c (region c) s
                  = bind (zoneNames (AvailabilityZones out) [])
                      (fun zones => match zones with
                                    | z :: _ => ret (z, None)
                                    | [] => raise IndexOutOfRange
                                    end) listed).
  { unfold randomAvailabilityZone. erewrite bind_Done by (apply invoke_eq; exact Eaz).
    reflexivity. }
  assert (Htype : exists createType iops,
             createTypeAndIops o (BytesToGiB util (CapacityBytes o)) = inl (createType, iops)).
  { unfold createTypeAndIops. simpl in Hvt.
    destruct Hvt as [H|[H|[H|[H|[H|[H|[]]]]]]]; rewrite <- H; simpl; eauto. }
  destruct Htype as [createType [iops Htype]].
  split.
  - intros Hempty. unfold CreateDisk. rewrite Htype, Hzone. simpl String.eqb. cbv iota.
    erewrite bind_Panic; [reflexivity|].
    rewrite Hrand, Hempty. reflexivity.
  - intros first others Hlist. split.
    + intros zone s' Hdone. rewrite Hrand, Hlist in Hdone. unfold bind in Hdone.
      destruct (zoneNames (first :: others) [] listed) as [zones s1|p s1|s1] eqn:Ez;
        try discriminate Hdone.
      apply zoneNames_Done in Ez. destruct Ez as [_ [names [Hn Hz]]].
      simpl in Hz. subst zones.
      destruct names as [|n names]; [discriminate Hn|].
      simpl in Hn. inversion Hn; subst. inversion Hdone; subst. reflexivity.
    + intros name names Hnamed.
      assert (Hdone : randomAvailabilityZone c (region c) s = Done (name, None) listed).
      { rewrite Hrand, Hlist, Hnamed.
        erewrite bind_Done by apply zoneNames_zonesNamed. reflexivity. }
      split; [exact Hdone|].
      exists createType, iops.
      unfold CreateDisk. rewrite Htype, Hzone. simpl String.eqb. cbv iota.
      erewrite bind_Done by exact Hdone. cbv beta iota.
      apply bind_invoke_prefix. intros r.
      apply adds_CreateDisk_after_create. intros; exact I.
Qed.

Lemma CreateDisk_zone_from_listing_witness :
  In (VolumeType (ioOptions (4 * GiB) 50 EmptyString))
     [VolumeTypeIO1; VolumeTypeIO2; VolumeTypeGP2; VolumeTypeST2; VolumeTypeStandard;
      EmptyString]
  /\ DiskOptions_AvailabilityZone (ioOptions (4 * GiB) 50 EmptyString) = EmptyString
  /\ CreateDisk utilModel 20 mockCloud 1 "pvc-1" (ioOptions (4 * GiB) 50 EmptyString)
       (start [ReplyDescribeAvailabilityZones (Some {| AvailabilityZones := [] |}) None])
     = Panic IndexOutOfRange
         (st [] ([] ++ [EvCall (CallDescribeAvailabilityZones
                                  Build_DescribeAvailabilityZonesInput)])).
Proof.
  split; [left; reflexivity|]. split; [reflexivity|].
  exact (proj1 (CreateDisk_zone_from_listing _ utilModel 20 mockCloud 1 "pvc-1"
                  (ioOptions (4 * GiB) 50 EmptyString)
                  (start [ReplyDescribeAvailabilityZones
                            (Some {| AvailabilityZones := [] |}) None])
                  {| AvailabilityZones := [] |} []
                  (or_introl eq_refl) eq_refl eq_refl)
           eq_refl).
Defined.

(** ** Attach *)

Section Attach.

Variable W : Type.
Variable c : cloud W.
Variables (fuel : nat) (volumeID nodeID : string).
Variables (s s1 : St W) (instance : option Instance) (d : Device) (w2 : W).

Hypothesis instance_found : getInstance c fuel nodeID s = Done (instance, None) s1.
Hypothesis device_allocated :
  NewDevice (dm c) (instance, volumeID) (world s1) = ((Some d, None), w2).
Hypothesis device_fresh : IsAlreadyAssigned d = false.

(** [AttachDisk] up to the point where the fresh attach starts. *)
Lemma AttachDisk_fresh :
  AttachDisk c fuel volumeID nodeID s
  = defer (emit (EvRelease (Some d) false))
      (early <-
         (client <- assertEC2 c ;;
          '(resp, err) <- AttachVolumeWithContext client (Some (attachRequest volumeID nodeID)) ;;
          match err with
          | Some e =>
              if isAWSError e "VolumeInUse" then ret (Some (EmptyString, Some ErrAlreadyExists))
              else
                ret (Some (EmptyString,
                           Some (Errorf "could not attach volume %q to node %q: %v"
                                   [ArgString volumeID; ArgString nodeID] e)))
          | None => ret None
          end) ;;
       match early with
       | Some result => ret result
       | None =>
           err <- WaitForAttachmentState c fuel volumeID "attached" ;;
           match err with
           | Some e => emit (EvTaint (Some d)) ;;; ret (EmptyString, Some e)
           | None => ret (Path d, None)
           end
       end)
      (st w2 (trace s1 ++ [EvCall (CallNewDevice instance volumeID)])).
Proof.
  unfold AttachDisk. erewrite bind_Done by exact instance_found. cbv beta iota.
  erewrite bind_Done
    by (apply (invoke_eq _ _ _ (fun p => CallNewDevice (fst p) (snd p)) (NewDevice (dm c))
                 (instance, volumeID)); exact device_allocated).
  cbv beta iota. unfold defer, bind at 1, deref, ret at 1. rewrite device_fresh.
  reflexivity.
Qed.

(** Without the SDK client behind the interface, the fresh attach ends at
    the type assertion; the deferred release still runs. *)
Lemma AttachDisk_not_sdk :
  dynamicEC2 (ec2 c) = None ->
  AttachDisk c fuel volumeID nodeID s
  = Panic InterfaceConversion
      (st w2 ((trace s1 ++ [EvCall (CallNewDevice instance volumeID)])
              ++ [EvRelease (Some d) false])).
Proof.
  intros Hdyn. rewrite AttachDisk_fresh.
  unfold defer, bind, assertEC2. rewrite Hdyn. reflexivity.
Qed.

(** A refused fresh attach: the error is mapped and returned, the device
    released, and nothing else happens. *)
Lemma AttachDisk_refused : forall client out e w3,
    dynamicEC2 (ec2 c) = Some client ->
    NewRequest_Send client attachOperation (attachRequest volumeID nodeID) w2
    = ((out, Some e), w3) ->
    AttachDisk c fuel volumeID nodeID s
    = Done (EmptyString,
            Some (if isAWSError e "VolumeInUse" then ErrAlreadyExists
                  else Errorf "could not attach volume %q to node %q: %v"
                         [ArgString volumeID; ArgString nodeID] e))
        (st w3 ((trace s1 ++ [EvCall (CallNewDevice instance volumeID)])
                ++ [EvCall (CallAttachVolume (attachRequest volumeID nodeID));
                    EvRelease (Some d) false])).
Proof.
  intros client out e w3 Hdyn Esend. rewrite AttachDisk_fresh.
  unfold defer, bind, assertEC2, AttachVolumeWithContext, bind, invoke. rewrite Hdyn.
  unfold ret at 1. simpl world. unfold attachOperation in Esend. rewrite Esend.
  cbn -[isAWSError app].
  destruct (isAWSError e "VolumeInUse"); cbn -[app]; rewrite <- app_assoc; reflexivity.
Qed.

(** An accepted attach whose wait for the attached state fails: this is
    where the device is tainted. *)
Lemma AttachDisk_wait_failed : forall client out w3 e s4,
    dynamicEC2 (ec2 c) = Some client ->
    NewRequest_Send client attachOperation (attachRequest volumeID nodeID) w2
    = ((out, None), w3) ->
    WaitForAttachmentState c fuel volumeID "attached"
      (st w3 ((trace s1 ++ [EvCall (CallNewDevice instance volumeID)]) ++ [EvCall (CallAttachVolume (attachRequest volumeID nodeID))]))
    = Done (Some e) s4 ->
    AttachDisk c fuel volumeID nodeID s
    = Done (EmptyString, Some e)
        (st (world s4) (trace s4 ++ [EvTaint (Some d); EvRelease (Some d) false])).
Proof.
  intros client out w3 e s4 Hdyn Esend Hwait. rewrite AttachDisk_fresh.
  unfold defer, bind, assertEC2, AttachVolumeWithContext, bind, invoke. rewrite Hdyn.
  unfold ret at 1. simpl world. unfold attachOperation in Esend. rewrite Esend.
  unfold ret at 1. unfold ret at 1. simpl trace.
  unfold st in Hwait. rewrite Hwait. simpl.
  rewrite <- app_assoc. reflexivity.
Qed.

End Attach.

Lemma adds_appendReservations : forall W P reservations instances,
    adds P (appendReservations (W:=W) reservations instances).
Proof.
  intros W P reservations. induction reservations as [|r rs IH]; intros instances; simpl.
  - apply adds_ret.
  - apply adds_bind; [apply adds_deref|]. intros r'. apply IH.
Qed.

Lemma adds_getInstance : forall W (c : cloud W) (P : Event -> Prop) fuel nodeID,
    (forall request, P (EvCall (CallDescribeInstances request))) ->
    adds P (getInstance c fuel nodeID).
Proof.
  intros W c P fuel nodeID HP. unfold getInstance.
  apply adds_bind.
  - generalize (@nil (option Instance)).
    generalize {| DescribeInstances_InstanceIds := [Some nodeID];
                  DescribeInstances_NextToken := None |}.
    induction fuel as [|fuel IH]; intros request instances; simpl.
    + apply adds_outOfFuel.
    + apply adds_bind; [apply adds_invoke, HP|]. intros [response err].
      destruct err as [e|].
      * destruct (isAWSErrorInstanceNotFound e); apply adds_ret.
      * apply adds_bind; [apply adds_deref|]. intros out.
        apply adds_bind; [apply adds_appendReservations|]. intros instances'.
        destruct (String.eqb _ _); [apply adds_ret|apply IH].
  - intros [instances err]. destruct err as [e|]; [apply adds_ret|].
    destruct (_ <? _)%nat; [apply adds_ret|].
    destruct (_ <? _)%nat; [apply adds_ret|].
    destruct instances; [apply adds_raise|apply adds_ret].
Qed.

(** C1, as the code has it.  When AttachDisk makes a fresh attach call and
    the call fails, a failure with the provider code VolumeInUse returns
    ErrAlreadyExists and every other failure (every error that is not a
    provider error with the code VolumeInUse) returns the error wrapped; in
    both cases the Device is released with Release(false) and is not
    tainted: from entry to return the trace holds the instance lookup, the
    allocation, the attach call and the release, and no Taint. *)
Theorem AttachDisk_refused_attach_released_untainted :
  forall W (c : cloud W) (fuel : nat) (volumeID nodeID : string) (s s1 : St W)
         (instance : option Instance) (d : Device) (w2 : W)
         (client : ec2EC2 W) (out : VolumeAttachment) (e : error) (w3 : W),
    getInstance c fuel nodeID s = Done (instance, None) s1 ->
    NewDevice (dm c) (instance, volumeID) (world s1) = ((Some d, None), w2) ->
    IsAlreadyAssigned d = false ->
    dynamicEC2 (ec2 c) = Some client ->
    NewRequest_Send client attachOperation (attachRequest volumeID nodeID) w2
    = ((out, Some e), w3) ->
    let added :=
      [EvCall (CallNewDevice instance volumeID);
       EvCall (CallAttachVolume (attachRequest volumeID nodeID));
       EvRelease (Some d) false] in
    let attached := AttachDisk c fuel volumeID nodeID s in
    ((forall msg, e <> AwsErr "VolumeInUse" msg) ->
     attached
     = Done (EmptyString,
             Some (Errorf "could not attach volume %q to node %q: %v"
                     [ArgString volumeID; ArgString nodeID] e))
         (st w3 (trace s1 ++ added)))
    /\ (forall msg, e = AwsErr "VolumeInUse" msg ->
        attached = Done (EmptyString, Some ErrAlreadyExists) (st w3 (trace s1 ++ added)))
    /\ exists lookups,
        trace (stateOf attached) = trace s ++ lookups ++ added
        /\ Forall (fun ev => ~ isTaint ev) (lookups ++ added).
Proof.
  intros W c fuel volumeID nodeID s s1 instance d w2 client out e w3
         Hinst Hdev Hfresh Hdyn Esend added attached.
  pose proof (AttachDisk_refused W c fuel volumeID nodeID s s1 instance d w2
                Hinst Hdev Hfresh client out e w3 Hdyn Esend) as E.
  fold attached in E. rewrite <- app_assoc in E. simpl app in E. fold added in E.
  split; [intros He; rewrite (isAWSError_other _ _ He) in E; exact E|].
  split; [intros msg He; rewrite He, isAWSError_code in E; exact E|].
  destruct (adds_getInstance W c (fun ev => ~ isTaint ev) fuel nodeID
              ltac:(intros request [d' Hd]; discriminate Hd) s) as [lookups [Et Hf]].
  rewrite Hinst in Et. simpl in Et.
  exists lookups. split.
  - rewrite E. simpl. rewrite Et, <- app_assoc. reflexivity.
  - apply Forall_app. split; [exact Hf|].
    unfold added. repeat constructor; intros [d' Hd]; discriminate Hd.
Qed.

Lemma AttachDisk_refused_attach_released_untainted_witness :
  (getInstance sdkCloud 1 "i-1" (start attachRefusedScript)
   = Done (Some instance1, None)
       (st (skipn 1 attachRefusedScript)
           [EvCall (CallDescribeInstances
                      {| DescribeInstances_InstanceIds := [Some "i-1"];
                         DescribeInstances_NextToken := None |})]))
  /\ IsAlreadyAssigned freshDevice = false
  /\ (forall msg, internalError <> AwsErr "VolumeInUse" msg)
  /\ AttachDisk sdkCloud 1 "vol-1" "i-1" (start attachRefusedScript)
     = Done (EmptyString,
             Some (Errorf "could not attach volume %q to node %q: %v"
                     [ArgString "vol-1"; ArgString "i-1"] internalError))
         (st [] ([EvCall (CallDescribeInstances
                            {| DescribeInstances_InstanceIds := [Some "i-1"];
                               DescribeInstances_NextToken := None |})]
                 ++ [EvCall (CallNewDevice (Some instance1) "vol-1");
                     EvCall (CallAttachVolume (attachRequest "vol-1" "i-1"));
                     EvRelease (Some freshDevice) false]))
  /\ AttachDisk sdkCloud 1 "vol-1" "i-1"
       (start [instancesPage; ReplyDevice (Some freshDevice) None;
               ReplyAttachVolume {| Attachment_State := None |}
                 (Some (AwsErr "VolumeInUse" "attached elsewhere"))])
     = Done (EmptyString, Some ErrAlreadyExists)
         (st [] ([EvCall (CallDescribeInstances
                            {| DescribeInstances_InstanceIds := [Some "i-1"];
                               DescribeInstances_NextToken := None |})]
                 ++ [EvCall (CallNewDevice (Some instance1) "vol-1");
                     EvCall (CallAttachVolume (attachRequest "vol-1" "i-1"));
                     EvRelease (Some freshDevice) false])).
Proof.
  assert (Hother : forall msg, internalError <> AwsErr "VolumeInUse" msg)
    by (intros msg; discriminate).
  split; [reflexivity|]. split; [reflexivity|]. split; [exact Hother|]. split.
  - exact (proj1 (AttachDisk_refused_attach_released_untainted _ sdkCloud 1 "vol-1" "i-1"
                    (start attachRefusedScript) _ (Some instance1) freshDevice
                    (skipn 2 attachRefusedScript) scriptedClient
                    {| Attachment_State := None |} internalError []
                    eq_refl eq_refl eq_refl eq_refl eq_refl)
             Hother).
  - exact (proj1 (proj2 (AttachDisk_refused_attach_released_untainted _ sdkCloud 1
                           "vol-1" "i-1"
                           (start [instancesPage; ReplyDevice (Some freshDevice) None;
                                   ReplyAttachVolume {| Attachment_State := None |}
                                     (Some (AwsErr "VolumeInUse" "attached elsewhere"))])
                           _ (Some instance1) freshDevice
                           [ReplyAttachVolume {| Attachment_State := None |}
                              (Some (AwsErr "VolumeInUse" "attached elsewhere"))]
                           scriptedClient
                           {| Attachment_State := None |}
                           (AwsErr "VolumeInUse" "attached elsewhere") []
                           eq_refl eq_refl eq_refl eq_refl eq_refl))
             "attached elsewhere" eq_refl).
Defined.

(** C1 as stated fails: here the fresh attach call is made and refused
    with a code other than VolumeInUse, the wrapped error comes back, and
    the Device has not been tainted. *)
Lemma AttachDisk_refused_attach_taint_missing :
  AttachDisk sdkCloud 1 "vol-1" "i-1" (start attachRefusedScript)
  = Done (EmptyString,
          Some (Errorf "could not attach volume %q to node %q: %v"
                  [ArgString "vol-1"; ArgString "i-1"] internalError))
      (st [] [EvCall (CallDescribeInstances
                        {| DescribeInstances_InstanceIds := [Some "i-1"];
                           DescribeInstances_NextToken := None |});
              EvCall (CallNewDevice (Some instance1) "vol-1");
              EvCall (CallAttachVolume (attachRequest "vol-1" "i-1"));
              EvRelease (Some freshDevice) false])
  /\ (forall msg, internalError <> AwsErr "VolumeInUse" msg)
  /\ ~ In (EvTaint (Some freshDevice))
         (trace (stateOf (AttachDisk sdkCloud 1 "vol-1" "i-1" (start attachRefusedScript)))).
Proof.
  split; [reflexivity|]. split; [intros msg; discriminate|].
  simpl. intros [H|[H|[H|[H|[]]]]]; discriminate H.
Qed.

(** C9. When the value behind the EC2 interface is not the SDK client,
    AttachDisk for a Device that was not already assigned panics at the
    type assertion (the deferred release still runs) and returns nothing;
    with the SDK client behind it, the same point is passed, and a refused
    attach comes back as an error. *)
Theorem AttachDisk_fresh_attach_needs_sdk_client :
  forall W (c : cloud W) (fuel : nat) (volumeID nodeID : string) (s s1 : St W)
         (instance : option Instance) (d : Device) (w2 : W),
    getInstance c fuel nodeID s = Done (instance, None) s1 ->
    NewDevice (dm c) (instance, volumeID) (world s1) = ((Some d, None), w2) ->
    IsAlreadyAssigned d = false ->
    let allocated := trace s1 ++ [EvCall (CallNewDevice instance volumeID)] in
    (dynamicEC2 (ec2 c) = None ->
     AttachDisk c fuel volumeID nodeID s
     = Panic InterfaceConversion (st w2 (allocated ++ [EvRelease (Some d) false])))
    /\ (forall client out e w3,
           dynamicEC2 (ec2 c) = Some client ->
           NewRequest_Send client attachOperation (attachRequest volumeID nodeID) w2
           = ((out, Some e), w3) ->
           exists err s',
             AttachDisk c fuel volumeID nodeID s = Done (EmptyString, Some err) s').
Proof.
  intros W c fuel volumeID nodeID s s1 instance d w2 Hinst Hdev Hfresh allocated.
  split.
  - intros Hdyn.
    exact (AttachDisk_not_sdk W c fuel volumeID nodeID s s1 instance d w2
             Hinst Hdev Hfresh Hdyn).
  - intros client out e w3 Hdyn Esend.
    rewrite (AttachDisk_refused W c fuel volumeID nodeID s s1 instance d w2
               Hinst Hdev Hfresh client out e w3 Hdyn Esend).
    eexists. eexists. reflexivity.
Qed.

Lemma AttachDisk_fresh_attach_needs_sdk_client_witness :
  getInstance mockCloud 1 "i-1" (start [instancesPage; ReplyDevice (Some freshDevice) None])
  = Done (Some instance1, None)
      (st [ReplyDevice (Some freshDevice) None]
          [EvCall (CallDescribeInstances
                     {| DescribeInstances_InstanceIds := [Some "i-1"];
                        DescribeInstances_NextToken := None |})])
  /\ IsAlreadyAssigned freshDevice = false
  /\ dynamicEC2 (ec2 mockCloud) = None
  /\ AttachDisk mockCloud 1 "vol-1" "i-1"
       (start [instancesPage; ReplyDevice (Some freshDevice) None])
     = Panic InterfaceConversion
         (st [] (([EvCall (CallDescribeInstances
                             {| DescribeInstances_InstanceIds := [Some "i-1"];
                                DescribeInstances_NextToken := None |})]
                  ++ [EvCall (CallNewDevice (Some instance1) "vol-1")])
                 ++ [EvRelease (Some freshDevice) false])).
Proof.
  split; [reflexivity|]. split; [reflexivity|]. split; [reflexivity|].
  exact (proj1 (AttachDisk_fresh_attach_needs_sdk_client _ mockCloud 1 "vol-1" "i-1"
                  (start [instancesPage; ReplyDevice (Some freshDevice) None])
                  _ (Some instance1) freshDevice []
                  eq_refl eq_refl eq_refl)
           eq_refl).
Defined.

(** * More properties *)

(** ** Lookups and the request they are given *)

Lemma getVolume'_paged :
  forall W (c : cloud W) request (s : St W) requests volumes w' fuel,
    paged c request (world s) requests volumes w' ->
    (length requests <= fuel)%nat ->
    getVolume' c fuel request s
    = let s' := st w' (trace s ++ describeCalls requests) in
      let request' := last requests request in
      match volumes with
      | [] => Done (request', (None, Some ErrNotFound)) s'
      | [v] => Done (request', (v, None)) s'
      | _ :: _ :: _ => Done (request', (None, Some ErrMultiDisks)) s'
      end.
Proof.
  intros W c request [w tr] requests volumes w' fuel Hp Hfuel. simpl in Hp.
  unfold getVolume'.
  pose proof (getVolumePages_paged _ _ _ _ _ _ _ Hp fuel [] tr Hfuel) as E.
  unfold bind. unfold st in E at 1. simpl app in E. rewrite E. unfold ret.
  destruct volumes as [|v [|v' vs]]; reflexivity.
Qed.

(** Every request of a listing after the first carries a continuation
    token. *)
Lemma paged_last_token : forall W (c : cloud W) request w requests volumes w',
    paged c request w requests volumes w' ->
    (2 <= length requests)%nat ->
    StringValue (DescribeVolumes_NextToken (last requests request)) <> EmptyString
    /\ DescribeVolumes_Filters (last requests request) = DescribeVolumes_Filters request
    /\ DescribeVolumes_VolumeIds (last requests request) = DescribeVolumes_VolumeIds request.
Proof.
  intros W c request w requests volumes w' Hp.
  induction Hp as [request w out w' E Htok
                  |request w out w' requests volumes w'' E Htok Hrest IH]; intros Hlen.
  - simpl in Hlen. lia.
  - pose proof (paged_nonempty _ _ _ _ _ _ _ Hrest) as Hne.
    destruct requests as [|r rs]; [simpl in Hne; lia|].
    change (last (request :: r :: rs) request) with (last (r :: rs) request).
    rewrite (last_default_irrelevant _ r rs request
               (setNextToken request (DescribeVolumesOutput_NextToken out))).
    destruct rs as [|r' rs].
    + inversion Hrest; subst.
      * simpl. split; [exact Htok|]. split; reflexivity.
      * match goal with H : paged _ _ _ [] _ _ |- _ =>
          apply paged_nonempty in H; simpl in H; lia end.
    + destruct IH as [Ht [Hf Hi]]; [simpl; lia|].
      split; [exact Ht|]. split; [exact Hf|exact Hi].
Qed.

(** X1. A lookup whose listing runs over several pages hands the caller's
    request back changed: it now holds the continuation token of the
    last page asked for, with the filters and IDs untouched; a one-page
    lookup hands it back as it was. *)
Theorem getVolume_request_after_lookup :
  forall W (c : cloud W) request (s : St W) requests volumes w' fuel,
    paged c request (world s) requests volumes w' ->
    (length requests <= fuel)%nat ->
    exists result,
      getVolume' c fuel request s
      = Done (last requests request, result) (st w' (trace s ++ describeCalls requests))
      /\ (length requests = 1%nat -> last requests request = request)
      /\ ((2 <= length requests)%nat ->
          StringValue (DescribeVolumes_NextToken (last requests request)) <> EmptyString
          /\ DescribeVolumes_Filters (last requests request) = DescribeVolumes_Filters request
          /\ DescribeVolumes_VolumeIds (last requests request)
             = DescribeVolumes_VolumeIds request).
Proof.
  intros W c request s requests volumes w' fuel Hp Hfuel.
  pose proof (getVolume'_paged _ _ _ _ _ _ _ _ Hp Hfuel) as E. cbv zeta in E.
  assert (Hone : length requests = 1%nat -> last requests request = request).
  { intros Hlen. inversion Hp; subst; [reflexivity|].
    match goal with H : paged _ _ _ ?rs _ _ |- _ =>
      apply paged_nonempty in H; simpl in Hlen; lia end. }
  destruct volumes as [|v [|v' vs]]; eexists; (split; [exact E|]);
    (split; [exact Hone|]); apply (paged_last_token _ _ _ _ _ _ _ Hp).
Qed.

Lemma getVolume_request_after_lookup_witness :
  paged mockCloud (idRequest "vol-1")
    (world (start [volumesPage [] (Some "t1"); volumesPage [Some volume10] None]))
    [idRequest "vol-1"; setNextToken (idRequest "vol-1") (Some "t1")] [Some volume10] []
  /\ exists result,
      getVolume' mockCloud 2 (idRequest "vol-1")
        (start [volumesPage [] (Some "t1"); volumesPage [Some volume10] None])
      = Done (setNextToken (idRequest "vol-1") (Some "t1"), result)
          (st [] ([] ++ describeCalls [idRequest "vol-1";
                                       setNextToken (idRequest "vol-1") (Some "t1")])).
Proof.
  assert (Hp : paged mockCloud (idRequest "vol-1")
                 (world (start [volumesPage [] (Some "t1"); volumesPage [Some volume10] None]))
                 [idRequest "vol-1"; setNextToken (idRequest "vol-1") (Some "t1")]
                 [Some volume10] []).
  { refine (@paged_next _ _ _ _ (volumesOutput [] (Some "t1")) _ _ _ _ _ _ _);
      [reflexivity | discriminate |].
    refine (@paged_last _ _ _ _ (volumesOutput [Some volume10] None) _ _ _); reflexivity. }
  split; [exact Hp|].
  destruct (getVolume_request_after_lookup _ mockCloud (idRequest "vol-1")
              (start [volumesPage [] (Some "t1"); volumesPage [Some volume10] None])
              _ _ _ 2%nat Hp (le_n 2)) as [result [E _]].
  exists result. exact E.
Defined.

(** ** Create, beyond the IOPS *)

(** What [CreateDisk] adds to the trace once the switch on the volume
    type has settled the type and the IOPS. *)
Lemma adds_CreateDisk_typed :
  forall W (util : Util) pollTicks (c : cloud W) fuel volumeName o (P : Event -> Prop)
         createType iops,
    createTypeAndIops o (BytesToGiB util (CapacityBytes o)) = inl (createType, iops) ->
    (forall zone,
        P (EvCall (CallCreateVolume
                     (createVolumeRequest o (BytesToGiB util (CapacityBytes o))
                        createType iops zone)))) ->
    (forall request, P (EvCall (CallDescribeAvailabilityZones request))) ->
    (forall request, P (EvCall (CallDescribeVolumes request))) ->
    adds P (CreateDisk util pollTicks c fuel volumeName o).
Proof.
  intros W util pollTicks c fuel volumeName o P createType iops Htype Hcreate Haz Hvol.
  unfold CreateDisk. rewrite Htype.
  apply adds_bind.
  - destruct (String.eqb _ _); [|apply adds_ret].
    apply adds_randomAvailabilityZone. exact Haz.
  - intros [zone err]. destruct err as [e|]; [apply adds_ret|].
    apply adds_bind; [apply adds_invoke, Hcreate|].
    intros r. apply adds_CreateDisk_after_create. exact Hvol.
Qed.

Lemma createTypeAndIops_invalid : forall o capacityGiB,
    ~ In (VolumeType o)
        [VolumeTypeIO1; VolumeTypeIO2; VolumeTypeGP2; VolumeTypeST2; VolumeTypeStandard;
         EmptyString] ->
    createTypeAndIops o capacityGiB
    = inr (ErrorfMsg "invalid AWS VolumeType %q" [ArgString (VolumeType o)]).
Proof.
  intros o capacityGiB Hnot. unfold createTypeAndIops.
  assert (N : forall x, In x [VolumeTypeIO1; VolumeTypeIO2; VolumeTypeGP2; VolumeTypeST2;
                              VolumeTypeStandard; EmptyString] ->
                        String.eqb (VolumeType o) x = false).
  { intros x Hin. apply String.eqb_neq. intros Heq. apply Hnot. rewrite Heq. exact Hin. }
  rewrite !N by (simpl; tauto). reflexivity.
Qed.

(** X2. A volume type other than io1, io2, gp2, st2, standard or the empty
    string makes CreateDisk return the invalid-type error at once: the
    state is untouched, so no zone is looked up and no volume created. *)
Theorem CreateDisk_rejects_unknown_type :
  forall W (util : Util) (pollTicks : nat) (c : cloud W) (fuel : nat) (volumeName : string)
         (o : DiskOptions) (s : St W),
    ~ In (VolumeType o)
        [VolumeTypeIO1; VolumeTypeIO2; VolumeTypeGP2; VolumeTypeST2; VolumeTypeStandard;
         EmptyString] ->
    CreateDisk util pollTicks c fuel volumeName o s
    = Done (None, Some (ErrorfMsg "invalid AWS VolumeType %q" [ArgString (VolumeType o)])) s.
Proof.
  intros W util pollTicks c fuel volumeName o s Hnot.
  unfold CreateDisk. rewrite (createTypeAndIops_invalid _ _ Hnot). reflexivity.
Qed.

Lemma CreateDisk_rejects_unknown_type_witness :
  ~ In (VolumeType (gpOptions "gp3" "us-test-1a"))
      [VolumeTypeIO1; VolumeTypeIO2; VolumeTypeGP2; VolumeTypeST2; VolumeTypeStandard;
       EmptyString]
  /\ CreateDisk utilModel 20 mockCloud 1 "pvc-1" (gpOptions "gp3" "us-test-1a") (start [])
     = Done (None, Some (ErrorfMsg "invalid AWS VolumeType %q" [ArgString "gp3"])) (start []).
Proof.
  assert (H : ~ In (VolumeType (gpOptions "gp3" "us-test-1a"))
                [VolumeTypeIO1; VolumeTypeIO2; VolumeTypeGP2; VolumeTypeST2;
                 VolumeTypeStandard; EmptyString]).
  { simpl. intros [H|[H|[H|[H|[H|[H|[]]]]]]]; discriminate H. }
  split; [exact H|].
  exact (CreateDisk_rejects_unknown_type _ utilModel 20 mockCloud 1 "pvc-1"
           (gpOptions "gp3" "us-test-1a") (start []) H).
Defined.

(** X3. For gp2, st2, standard and the empty type, every CreateVolume
    request CreateDisk sends carries no IOPS, and names the type given,
    gp2 standing in for the empty one; with a zone given the request is
    sent, as the first call. *)
Theorem CreateDisk_plain_types_send_no_iops :
  forall W (util : Util) (pollTicks : nat) (c : cloud W) (fuel : nat) (volumeName : string)
         (o : DiskOptions),
    In (VolumeType o) [VolumeTypeGP2; VolumeTypeST2; VolumeTypeStandard; EmptyString] ->
    let createType :=
      if String.eqb (VolumeType o) EmptyString then VolumeTypeGP2 else VolumeType o in
    adds (fun e => forall request,
              e = EvCall (CallCreateVolume request) ->
              CreateVolume_Iops request = None
              /\ CreateVolume_VolumeType request = Some createType)
      (CreateDisk util pollTicks c fuel volumeName o)
    /\ (DiskOptions_AvailabilityZone o <> EmptyString ->
        forall s, exists request rest,
          trace (stateOf (CreateDisk util pollTicks c fuel volumeName o s))
          = trace s ++ EvCall (CallCreateVolume request) :: rest).
Proof.
  intros W util pollTicks c fuel volumeName o Hvt createType.
  assert (Htype : createTypeAndIops o (BytesToGiB util (CapacityBytes o))
                  = inl (createType, 0)).
  { unfold createTypeAndIops, createType. simpl in Hvt.
    destruct Hvt as [H|[H|[H|[H|[]]]]]; rewrite <- H; reflexivity. }
  split.
  - apply (adds_CreateDisk_typed _ util pollTicks c fuel volumeName o _ createType 0 Htype).
    + intros zone request Hr. inversion Hr; subst request. split; reflexivity.
    + intros request r Hr. discriminate Hr.
    + intros request r Hr. discriminate Hr.
  - intros Hzone s. unfold CreateDisk. rewrite Htype.
    destruct (String.eqb_spec (DiskOptions_AvailabilityZone o) EmptyString) as [Heq|_];
      [contradiction|].
    unfold bind at 1. unfold ret at 1. cbv beta iota.
    eexists. apply bind_invoke_prefix. intros r.
    apply adds_CreateDisk_after_create. intros; exact I.
Qed.

Lemma CreateDisk_plain_types_send_no_iops_witness :
  In (VolumeType (gpOptions EmptyString "us-test-1a"))
     [VolumeTypeGP2; VolumeTypeST2; VolumeTypeStandard; EmptyString]
  /\ exists request rest,
      trace (stateOf (CreateDisk utilModel 20 mockCloud 1 "pvc-1"
                        (gpOptions EmptyString "us-test-1a") (start [])))
      = trace (start []) ++ EvCall (CallCreateVolume request) :: rest.
Proof.
  split; [right; right; right; left; reflexivity|].
  refine (proj2 (CreateDisk_plain_types_send_no_iops _ utilModel 20 mockCloud 1 "pvc-1"
                   (gpOptions EmptyString "us-test-1a")
                   (or_intror (or_intror (or_intror (or_introl eq_refl))))) _ (start [])).
  discriminate.
Defined.

(** X4. Whatever the options, every CreateVolume request CreateDisk sends
    asks for BytesToGiB(CapacityBytes) GiB, carries one tag specification
    of resource type volume holding the options' tags in the order
    ranged, names the source snapshot exactly when one is given, and is
    encrypted with the key when a KMS key is given, whatever the
    Encrypted flag says; without a key it carries the flag and no key. *)
Theorem CreateDisk_request_fields :
  forall W (util : Util) (pollTicks : nat) (c : cloud W) (fuel : nat) (volumeName : string)
         (o : DiskOptions),
    adds (fun e => forall request,
              e = EvCall (CallCreateVolume request) ->
              CreateVolume_Size request = Some (BytesToGiB util (CapacityBytes o))
              /\ CreateVolume_TagSpecifications request
                 = [Some {| ResourceType := Some "volume";
                            Tags := map (fun kv => Some {| Tag_Key := Some (fst kv);
                                                           Tag_Value := Some (snd kv) |})
                                        (DiskOptions_Tags o) |}]
              /\ CreateVolume_SnapshotId request
                 = (if String.eqb (DiskOptions_SnapshotID o) EmptyString then None
                    else Some (DiskOptions_SnapshotID o))
              /\ (KmsKeyID o <> EmptyString ->
                  CreateVolume_Encrypted request = Some true
                  /\ CreateVolume_KmsKeyId request = Some (KmsKeyID o))
              /\ (KmsKeyID o = EmptyString ->
                  CreateVolume_Encrypted request = Some (Encrypted o)
                  /\ CreateVolume_KmsKeyId request = None))
      (CreateDisk util pollTicks c fuel volumeName o).
Proof.
  intros W util pollTicks c fuel volumeName o.
  destruct (createTypeAndIops o (BytesToGiB util (CapacityBytes o)))
    as [[createType iops]|e] eqn:Htype.
  - apply (adds_CreateDisk_typed _ util pollTicks c fuel volumeName o _ createType iops Htype).
    + intros zone request Hr. inversion Hr; subst request. simpl.
      split; [reflexivity|]. split; [reflexivity|]. split.
      * destruct (DiskOptions_SnapshotID o); reflexivity.
      * split; intros Hk.
        -- destruct (KmsKeyID o); [contradiction|]. split; reflexivity.
        -- rewrite Hk. split; reflexivity.
    + intros request r Hr. discriminate Hr.
    + intros request r Hr. discriminate Hr.
  - unfold CreateDisk. rewrite Htype. apply adds_ret.
Qed.

(** With a zone in the options, [CreateDisk] goes straight to the create
    call and finishes on its answer. *)
Lemma CreateDisk_zone_given :
  forall W (util : Util) pollTicks (c : cloud W) fuel volumeName o (s : St W)
         createType iops r w1,
    createTypeAndIops o (BytesToGiB util (CapacityBytes o)) = inl (createType, iops) ->
    DiskOptions_AvailabilityZone o <> EmptyString ->
    CreateVolumeWithContext (ec2 c)
      (createVolumeRequest o (BytesToGiB util (CapacityBytes o)) createType iops
         (DiskOptions_AvailabilityZone o)) (world s) = (r, w1) ->
    CreateDisk util pollTicks c fuel volumeName o s
    = createDiskFinish pollTicks c fuel (DiskOptions_AvailabilityZone o)
        (DiskOptions_SnapshotID o) r
        (st w1 (trace s
                ++ [EvCall (CallCreateVolume
                              (createVolumeRequest o (BytesToGiB util (CapacityBytes o))
                                 createType iops (DiskOptions_AvailabilityZone o)))])).
Proof.
  intros W util pollTicks c fuel volumeName o s createType iops r w1 Htype Hzone Ecreate.
  unfold CreateDisk. rewrite Htype.
  destruct (String.eqb_spec (DiskOptions_AvailabilityZone o) EmptyString) as [Heq|_];
    [contradiction|].
  unfold bind at 1. unfold ret at 1. cbv beta iota.
  erewrite bind_Done by (apply invoke_eq; exact Ecreate).
  destruct r as [response err]. reflexivity.
Qed.

(** X5. With a valid type and a zone given, CreateDisk stops at the answer
    of the create call when that answer is unusable: a provider error
    with the code InvalidSnapshot.NotFound gives ErrNotFound, every other
    error (whatever is not a provider error with that code) comes back
    wrapped, an answer without a volume ID or
    with a size of zero or none gives an error of its own, and a nil
    answer with a nil error makes it panic on the dereference.  In all of
    these the create call is the only call made. *)
Theorem CreateDisk_create_failures :
  forall W (util : Util) (pollTicks : nat) (c : cloud W) (fuel : nat) (volumeName : string)
         (o : DiskOptions) (s : St W) createType iops response err w1,
    createTypeAndIops o (BytesToGiB util (CapacityBytes o)) = inl (createType, iops) ->
    DiskOptions_AvailabilityZone o <> EmptyString ->
    let request :=
      createVolumeRequest o (BytesToGiB util (CapacityBytes o)) createType iops
        (DiskOptions_AvailabilityZone o) in
    CreateVolumeWithContext (ec2 c) request (world s) = ((response, err), w1) ->
    let s1 := st w1 (trace s ++ [EvCall (CallCreateVolume request)]) in
    let created := CreateDisk util pollTicks c fuel volumeName o s in
    (forall msg, err = Some (AwsErr "InvalidSnapshot.NotFound" msg) ->
                 created = Done (None, Some ErrNotFound) s1)
    /\ (forall e, err = Some e ->
                  (forall msg, e <> AwsErr "InvalidSnapshot.NotFound" msg) ->
                  created
                  = Done (None, Some (Errorf "could not create volume in EC2: %v" [] e)) s1)
    /\ (err = None -> response = None -> created = Panic NilDereference s1)
    /\ (forall v, err = None -> response = Some v ->
                  StringValue (Volume_VolumeId v) = EmptyString ->
                  created
                  = Done (None,
                          Some (ErrorfMsg "volume ID was not returned by CreateVolume" [])) s1)
    /\ (forall v, err = None -> response = Some v ->
                  StringValue (Volume_VolumeId v) <> EmptyString ->
                  Int64Value (Volume_Size v) = 0 ->
                  created
                  = Done (None,
                          Some (ErrorfMsg "disk size was not returned by CreateVolume" [])) s1).
Proof.
  intros W util pollTicks c fuel volumeName o s createType iops response err w1
         Htype Hzone request Ecreate s1 created.
  pose proof (CreateDisk_zone_given _ util pollTicks c fuel volumeName o s createType iops
                (response, err) w1 Htype Hzone Ecreate) as E.
  fold request in E. fold s1 in E. fold created in E. rewrite E.
  split; [intros msg ->; reflexivity|].
  split; [intros e -> He; simpl; unfold isAWSErrorSnapshotNotFound;
          rewrite (isAWSError_other _ _ He); reflexivity|].
  split; [intros -> ->; reflexivity|].
  split.
  - intros v -> -> Hid. simpl. unfold bind, deref, ret. rewrite Hid. reflexivity.
  - intros v -> -> Hid Hsize. simpl. unfold bind, deref, ret.
    destruct (StringValue (Volume_VolumeId v)) as [|a rest]; [contradiction|].
    simpl. rewrite Hsize. reflexivity.
Qed.

Lemma CreateDisk_create_failures_witness :
  createTypeAndIops (gpOptions "gp2" "us-test-1a")
    (BytesToGiB utilModel (CapacityBytes (gpOptions "gp2" "us-test-1a")))
  = inl ("gp2", 0)
  /\ DiskOptions_AvailabilityZone (gpOptions "gp2" "us-test-1a") <> EmptyString
  /\ (forall msg, volumeGone <> AwsErr "InvalidSnapshot.NotFound" msg)
  /\ CreateDisk utilModel 20 mockCloud 1 "pvc-1" (gpOptions "gp2" "us-test-1a")
       (start [ReplyCreateVolume None None])
     = Panic NilDereference
         (st [] ([] ++ [EvCall (CallCreateVolume
                                  (createVolumeRequest (gpOptions "gp2" "us-test-1a")
                                     (BytesToGiB utilModel
                                        (CapacityBytes (gpOptions "gp2" "us-test-1a")))
                                     "gp2" 0 "us-test-1a"))]))
  /\ CreateDisk utilModel 20 mockCloud 1 "pvc-1" (gpOptions "gp2" "us-test-1a")
       (start [ReplyCreateVolume None (Some (AwsErr "InvalidSnapshot.NotFound" "no snapshot"))])
     = Done (None, Some ErrNotFound)
         (st [] ([] ++ [EvCall (CallCreateVolume
                                  (createVolumeRequest (gpOptions "gp2" "us-test-1a")
                                     (BytesToGiB utilModel
                                        (CapacityBytes (gpOptions "gp2" "us-test-1a")))
                                     "gp2" 0 "us-test-1a"))]))
  /\ CreateDisk utilModel 20 mockCloud 1 "pvc-1" (gpOptions "gp2" "us-test-1a")
       (start [ReplyCreateVolume None (Some volumeGone)])
     = Done (None, Some (Errorf "could not create volume in EC2: %v" [] volumeGone))
         (st [] ([] ++ [EvCall (CallCreateVolume
                                  (createVolumeRequest (gpOptions "gp2" "us-test-1a")
                                     (BytesToGiB utilModel
                                        (CapacityBytes (gpOptions "gp2" "us-test-1a")))
                                     "gp2" 0 "us-test-1a"))])).
Proof.
  assert (Hz : DiskOptions_AvailabilityZone (gpOptions "gp2" "us-test-1a") <> EmptyString)
    by discriminate.
  assert (Hother : forall msg, volumeGone <> AwsErr "InvalidSnapshot.NotFound" msg)
    by (intros msg; discriminate).
  split; [reflexivity|]. split; [exact Hz|]. split; [exact Hother|].
  split; [|split].
  - exact (proj1 (proj2 (proj2 (CreateDisk_create_failures _ utilModel 20 mockCloud 1 "pvc-1"
                                  (gpOptions "gp2" "us-test-1a")
                                  (start [ReplyCreateVolume None None])
                                  "gp2" 0 None None [] eq_refl Hz eq_refl)))
             eq_refl eq_refl).
  - exact (proj1 (CreateDisk_create_failures _ utilModel 20 mockCloud 1 "pvc-1"
                    (gpOptions "gp2" "us-test-1a")
                    (start [ReplyCreateVolume None
                              (Some (AwsErr "InvalidSnapshot.NotFound" "no snapshot"))])
                    "gp2" 0 None (Some (AwsErr "InvalidSnapshot.NotFound" "no snapshot")) []
                    eq_refl Hz eq_refl)
             "no snapshot" eq_refl).
  - exact (proj1 (proj2 (CreateDisk_create_failures _ utilModel 20 mockCloud 1 "pvc-1"
                           (gpOptions "gp2" "us-test-1a")
                           (start [ReplyCreateVolume None (Some volumeGone)])
                           "gp2" 0 None (Some volumeGone) [] eq_refl Hz eq_refl))
             volumeGone eq_refl Hother).
Defined.

(** ** Waiting for a new volume *)

Section WaitForVolume.

Variable W : Type.
Variable c : cloud W.
Variable fuel : nat.

(** One poll of [waitForVolume] over a listing that completes. *)
Lemma waitForVolumeFunc_paged : forall request w tr requests volumes w',
    paged c request w requests volumes w' ->
    (length requests <= fuel)%nat ->
    waitForVolumeFunc c fuel request (st w tr)
    = let s' := st w' (tr ++ describeCalls requests) in
      let request' := last requests request in
      match volumes with
      | [] => Done (request', (true, Some ErrNotFound)) s'
      | [Some v] => Done (request', (volumeAvailable v, None)) s'
      | [None] => Panic NilDereference s'
      | _ :: _ :: _ => Done (request', (true, Some ErrMultiDisks)) s'
      end.
Proof.
  intros request w tr requests volumes w' Hp Hfuel.
  pose proof (getVolume'_paged _ c request (st w tr) requests volumes w' fuel Hp Hfuel) as E.
  cbv zeta in E. unfold waitForVolumeFunc. cbv zeta. simpl trace in E.
  destruct volumes as [|[v|] [|v' vs]]; erewrite bind_Done by exact E; try reflexivity.
  cbn. unfold volumeAvailable. destruct (Volume_State v); reflexivity.
Qed.

(** Polls that find the volume not yet available use up as many ticks. *)
Lemma Poll_polled : forall k request w request' w' requests,
    polled c fuel true (fun v => negb (volumeAvailable v)) k request w request' w' requests ->
    forall ticks tr,
      Poll (k + ticks) (waitForVolumeFunc c fuel) request (st w tr)
      = Poll ticks (waitForVolumeFunc c fuel) request' (st w' (tr ++ describeCalls requests)).
Proof.
  induction 1 as [request w|k request w requests volume w1 request' w' requests'
                               Hp Hfuel Hwait Hrest IH]; intros ticks tr.
  - simpl. rewrite app_nil_r. reflexivity.
  - simpl plus. simpl Poll.
    pose proof (waitForVolumeFunc_paged _ _ tr _ _ _ Hp Hfuel) as E. cbv zeta in E.
    erewrite bind_Done by exact E.
    cbv beta iota zeta. apply negb_true_iff in Hwait. rewrite Hwait.
    rewrite IH. unfold describeCalls. rewrite map_app, app_assoc. reflexivity.
Qed.

(** Once the ticks are used up the condition runs a last time: one more
    poll than there are ticks, each finding the volume not yet available,
    ends the wait with [ErrWaitTimeout]. *)
Lemma Poll_polled_timeout : forall k request w request' w' requests,
    polled c fuel true (fun v => negb (volumeAvailable v)) (S k) request w request' w'
      requests ->
    forall tr,
      Poll k (waitForVolumeFunc c fuel) request (st w tr)
      = Done (request', Some ErrWaitTimeout) (st w' (tr ++ describeCalls requests)).
Proof.
  induction k as [|k IH]; intros request w request' w' requests H tr;
    inversion H as [|k0 rq w0 rqs v w1 rq' w0' rqs' Hp Hfuel Hwait Hrest]; subst;
    pose proof (waitForVolumeFunc_paged _ _ tr _ _ _ Hp Hfuel) as E; cbv zeta in E;
    apply negb_true_iff in Hwait; simpl Poll; erewrite bind_Done by exact E;
    cbv beta iota zeta; rewrite Hwait.
  - inversion Hrest; subst. rewrite app_nil_r. reflexivity.
  - rewrite (IH _ _ _ _ _ Hrest). unfold describeCalls. rewrite map_app, app_assoc.
    reflexivity.
Qed.

End WaitForVolume.

(** X6. waitForVolume polls until the volume is available: the lookup runs
    once for every tick received within the timeout and once more when the
    timeout closes the channel, so at most [pollTicks + 1] times.  After
    [k <= pollTicks] polls that each find the one volume in another state,
    the next poll starts from the request the polls before have left, and:
    if it finds the volume available the wait ends without error; if it
    finds no volume the wait ends at once with ErrNotFound.  That holds for
    the poll at the timeout too ([k = pollTicks]).  Only when all
    [pollTicks + 1] polls find the volume in another state does the wait
    end with ErrWaitTimeout, after exactly their calls. *)
Theorem waitForVolume_outcomes :
  forall W (c : cloud W) (fuel pollTicks : nat) (volumeID : string) (s : St W)
         k request' w1 requests,
    polled c fuel true (fun v => negb (volumeAvailable v)) k (idRequest volumeID) (world s)
      request' w1 requests ->
    let waited := waitForVolume pollTicks c fuel volumeID s in
    ((k <= pollTicks)%nat ->
     forall requests' volumes w2,
       paged c request' w1 requests' volumes w2 ->
       (length requests' <= fuel)%nat ->
       let s2 := st w2 (trace s ++ describeCalls (requests ++ requests')) in
       (forall v, volumes = [Some v] -> volumeAvailable v = true -> waited = Done None s2)
       /\ (volumes = [] -> waited = Done (Some ErrNotFound) s2))
    /\ (k = S pollTicks ->
        waited = Done (Some ErrWaitTimeout) (st w1 (trace s ++ describeCalls requests))).
Proof.
  intros W c fuel pollTicks volumeID [w tr] k request' w1 requests Hpolled waited.
  simpl in Hpolled. unfold waited, waitForVolume. fold (idRequest volumeID). simpl trace.
  split.
  - intros Hk requests' volumes w2 Hp Hfuel.
    pose proof (waitForVolumeFunc_paged _ c fuel _ _ (tr ++ describeCalls requests) _ _ _
                  Hp Hfuel) as E.
    cbv zeta in E.
    assert (G : forall r,
               waitForVolumeFunc c fuel request' (st w1 (tr ++ describeCalls requests))
               = Done (last requests' request', (true, r))
                   (st w2 ((tr ++ describeCalls requests) ++ describeCalls requests')) ->
               bind (Poll pollTicks (waitForVolumeFunc c fuel) (idRequest volumeID))
                 (fun x => let (_, err) := x in ret err) (st w tr)
               = Done r (st w2 (tr ++ describeCalls (requests ++ requests')))).
    { intros r Er.
      replace pollTicks with (k + (pollTicks - k))%nat by lia.
      unfold bind at 1.
      rewrite (Poll_polled _ c fuel _ _ _ _ _ _ Hpolled).
      destruct (pollTicks - k)%nat; simpl Poll;
        (erewrite bind_Done by exact Er);
        unfold describeCalls; rewrite map_app, app_assoc;
        destruct r; reflexivity. }
    split.
    + intros v Hv Hav. rewrite Hv, Hav in E. exact (G None E).
    + intros Hv. rewrite Hv in E. exact (G (Some ErrNotFound) E).
  - intros Hk. subst k.
    unfold bind. change {| world := w; trace := tr |} with (st w tr).
    rewrite (Poll_polled_timeout _ c fuel _ _ _ _ _ _ Hpolled). reflexivity.
Qed.

Lemma waitForVolume_outcomes_witness :
  (1 <= 1)%nat
  /\ volumeAvailable volume10 = true
  /\ volumeAvailable creatingVolume = false
  /\ waitForVolume 1 mockCloud 1 "vol-1"
       (start [volumesPage [Some creatingVolume] None; volumesPage [Some volume10] None])
     = Done None
         (st [] ([] ++ describeCalls ([idRequest "vol-1"] ++ [idRequest "vol-1"])))
  /\ waitForVolume 1 mockCloud 1 "vol-1"
       (start [volumesPage [Some creatingVolume] None;
               volumesPage [Some creatingVolume] None;
               volumesPage [Some volume10] None])
     = Done (Some ErrWaitTimeout)
         (st [volumesPage [Some volume10] None]
             ([] ++ describeCalls ([idRequest "vol-1"] ++ [idRequest "vol-1"] ++ []))).
Proof.
  assert (Hpage : forall v rest,
             paged mockCloud (idRequest "vol-1") (volumesPage [Some v] None :: rest)
               [idRequest "vol-1"] [Some v] rest).
  { intros v rest.
    refine (@paged_last _ _ _ _ (volumesOutput [Some v] None) _ _ _); reflexivity. }
  assert (Hpolled1 : polled mockCloud 1 true (fun v => negb (volumeAvailable v)) 1
                       (idRequest "vol-1")
                       (world (start [volumesPage [Some creatingVolume] None;
                                      volumesPage [Some volume10] None]))
                       (idRequest "vol-1") [volumesPage [Some volume10] None]
                       ([idRequest "vol-1"] ++ [])).
  { exact (@polled_S _ mockCloud 1 true _ 0 _ _ _ _ _ _ _ [] (Hpage creatingVolume _) (le_n 1) eq_refl
             (@polled_O _ mockCloud 1 true _ _ _)). }
  assert (Hpolled2 : polled mockCloud 1 true (fun v => negb (volumeAvailable v)) 2
                       (idRequest "vol-1")
                       (world (start [volumesPage [Some creatingVolume] None;
                                      volumesPage [Some creatingVolume] None;
                                      volumesPage [Some volume10] None]))
                       (idRequest "vol-1") [volumesPage [Some volume10] None]
                       ([idRequest "vol-1"] ++ [idRequest "vol-1"] ++ [])).
  { exact (@polled_S _ mockCloud 1 true _ 1 _ _ _ _ _ _ _ _ (Hpage creatingVolume _) (le_n 1) eq_refl
             (@polled_S _ mockCloud 1 true _ 0 _ _ _ _ _ _ _ [] (Hpage creatingVolume _) (le_n 1) eq_refl
                (@polled_O _ mockCloud 1 true _ _ _))). }
  split; [exact (le_n 1)|]. split; [reflexivity|]. split; [reflexivity|]. split.
  - exact (proj1 (proj1 (waitForVolume_outcomes _ mockCloud 1 1 "vol-1"
                           (start [volumesPage [Some creatingVolume] None;
                                   volumesPage [Some volume10] None])
                           1 _ _ _ Hpolled1)
                    (le_n 1) _ _ _ (Hpage volume10 []) (le_n 1))
             volume10 eq_refl eq_refl).
  - exact (proj2 (waitForVolume_outcomes _ mockCloud 1 1 "vol-1"
                    (start [volumesPage [Some creatingVolume] None;
                            volumesPage [Some creatingVolume] None;
                            volumesPage [Some volume10] None])
                    2 _ _ _ Hpolled2) eq_refl).
Defined.

Lemma waitForVolume_first_poll :
  forall W (c : cloud W) fuel pollTicks volumeID w tr requests v w2,
    (1 <= pollTicks)%nat ->
    paged c (idRequest volumeID) w requests [Some v] w2 ->
    (length requests <= fuel)%nat ->
    volumeAvailable v = true ->
    waitForVolume pollTicks c fuel volumeID (st w tr)
    = Done None (st w2 (tr ++ describeCalls requests)).
Proof.
  intros W c fuel pollTicks volumeID w tr requests v w2 Hticks Hp Hfuel Hav.
  unfold waitForVolume. fold (idRequest volumeID).
  pose proof (waitForVolumeFunc_paged _ c fuel _ _ tr _ _ _ Hp Hfuel) as E.
  cbv beta iota zeta in E. rewrite Hav in E.
  destruct pollTicks as [|ticks]; simpl Poll;
    unfold bind at 1; (erewrite bind_Done by exact E); reflexivity.
Qed.

(** X7. When the create call answers with a volume ID and a non-zero size
    and the first poll finds that volume available, CreateDisk returns a
    Disk whose capacity is the size the provider answered (not the size
    asked for), with the ID answered, the zone of the options and the
    source snapshot of the options. *)
Theorem CreateDisk_returns_provider_size :
  forall W (util : Util) (pollTicks : nat) (c : cloud W) (fuel : nat) (volumeName : string)
         (o : DiskOptions) (s : St W) createType iops v w1 requests found w2,
    createTypeAndIops o (BytesToGiB util (CapacityBytes o)) = inl (createType, iops) ->
    DiskOptions_AvailabilityZone o <> EmptyString ->
    let request :=
      createVolumeRequest o (BytesToGiB util (CapacityBytes o)) createType iops
        (DiskOptions_AvailabilityZone o) in
    CreateVolumeWithContext (ec2 c) request (world s) = ((Some v, None), w1) ->
    StringValue (Volume_VolumeId v) <> EmptyString ->
    Int64Value (Volume_Size v) <> 0 ->
    (1 <= pollTicks)%nat ->
    paged c (idRequest (StringValue (Volume_VolumeId v))) w1 requests [Some found] w2 ->
    (length requests <= fuel)%nat ->
    volumeAvailable found = true ->
    CreateDisk util pollTicks c fuel volumeName o s
    = Done (Some {| VolumeID := StringValue (Volume_VolumeId v);
                    CapacityGiB := Int64Value (Volume_Size v);
                    AvailabilityZone_ := DiskOptions_AvailabilityZone o;
                    SnapshotID := DiskOptions_SnapshotID o |}, None)
        (st w2 ((trace s ++ [EvCall (CallCreateVolume request)]) ++ describeCalls requests)).
Proof.
  intros W util pollTicks c fuel volumeName o s createType iops v w1 requests found w2
         Htype Hzone request Ecreate Hid Hsize Hticks Hp Hfuel Hav.
  rewrite (CreateDisk_zone_given _ util pollTicks c fuel volumeName o s createType iops
             (Some v, None) w1 Htype Hzone Ecreate).
  fold request. unfold createDiskFinish.
  assert (Hlen : (String.length (StringValue (Volume_VolumeId v)) =? 0)%nat = false)
    by (destruct (StringValue (Volume_VolumeId v)); [contradiction|reflexivity]).
  erewrite bind_Done by reflexivity. cbv zeta.
  apply Z.eqb_neq in Hsize. rewrite Hlen, Hsize.
  erewrite bind_Done by (eapply waitForVolume_first_poll; eassumption).
  reflexivity.
Qed.

Lemma CreateDisk_returns_provider_size_witness :
  createTypeAndIops (gpOptions "gp2" "us-test-1a")
    (BytesToGiB utilModel (CapacityBytes (gpOptions "gp2" "us-test-1a")))
  = inl ("gp2", 0)
  /\ volumeAvailable volume10 = true
  /\ CreateDisk utilModel 20 mockCloud 1 "pvc-1" (gpOptions "gp2" "us-test-1a")
       (start [ReplyCreateVolume (Some volume10) None; volumesPage [Some volume10] None])
     = Done (Some {| VolumeID := "vol-1"; CapacityGiB := 10;
                     AvailabilityZone_ := "us-test-1a"; SnapshotID := EmptyString |}, None)
         (st [] (([] ++ [EvCall (CallCreateVolume
                                   (createVolumeRequest (gpOptions "gp2" "us-test-1a")
                                      (BytesToGiB utilModel
                                         (CapacityBytes (gpOptions "gp2" "us-test-1a")))
                                      "gp2" 0 "us-test-1a"))])
                 ++ describeCalls [idRequest "vol-1"])).
Proof.
  assert (Hp : paged mockCloud (idRequest "vol-1") [volumesPage [Some volume10] None]
                 [idRequest "vol-1"] [Some volume10] []).
  { refine (@paged_last _ _ _ _ (volumesOutput [Some volume10] None) _ _ _); reflexivity. }
  split; [reflexivity|]. split; [reflexivity|].
  refine (CreateDisk_returns_provider_size _ utilModel 20 mockCloud 1 "pvc-1"
            (gpOptions "gp2" "us-test-1a")
            (start [ReplyCreateVolume (Some volume10) None;
                    volumesPage [Some volume10] None])
            "gp2" 0 volume10 _ _ volume10 _ eq_refl _ eq_refl _ _ _ Hp (le_n 1) eq_refl);
    [discriminate | discriminate | discriminate | repeat constructor].
Defined.

(** ** Waiting for an attachment state *)

Lemma scanAttachments_present : forall W attachments state (s : St W),
    forallb (fun a => match a with Some _ => true | None => false end) attachments = true ->
    @scanAttachments W attachments state s
    = Done (existsb (attachmentHas state) attachments) s.
Proof.
  intros W attachments state s. induction attachments as [|a rest IH]; intros Hall.
  - reflexivity.
  - simpl in Hall. destruct a as [a|]; [|discriminate Hall].
    simpl scanAttachments. unfold bind, deref, ret. simpl existsb.
    destruct (Attachment_State a) as [stt|]; simpl.
    + destruct (String.eqb stt state); [reflexivity|apply IH; exact Hall].
    + apply IH; exact Hall.
Qed.

Section WaitForAttachment.

Variable W : Type.
Variable c : cloud W.
Variable fuel : nat.
Variables volumeID state : string.

(** One round of [WaitForAttachmentState] over a listing that completes. *)
Lemma verifyVolumeFunc_paged : forall w tr requests volumes w',
    paged c (idRequest volumeID) w requests volumes w' ->
    (length requests <= fuel)%nat ->
    verifyVolumeFunc c fuel volumeID state tt (st w tr)
    = let s' := st w' (tr ++ describeCalls requests) in
      match volumes with
      | [] => Done (tt, (false, Some ErrNotFound)) s'
      | [Some v] =>
          if attachmentsPresent v then Done (tt, (attachmentReached state v, None)) s'
          else verifyVolumeFunc c fuel volumeID state tt (st w tr)
      | [None] => Panic NilDereference s'
      | _ :: _ :: _ => Done (tt, (false, Some ErrMultiDisks)) s'
      end.
Proof.
  intros w tr requests volumes w' Hp Hfuel.
  pose proof (getVolume_paged _ c (idRequest volumeID) (st w tr) requests volumes w' fuel
                Hp Hfuel) as E.
  cbv zeta in E. simpl trace in E. cbv zeta.
  destruct volumes as [|[v|] [|v' vs]];
    try (unfold verifyVolumeFunc; fold (idRequest volumeID);
         erewrite bind_Done by exact E; reflexivity).
  destruct (attachmentsPresent v) eqn:Hall; [|reflexivity].
  unfold verifyVolumeFunc. fold (idRequest volumeID).
  erewrite bind_Done by exact E. cbv beta iota.
  erewrite bind_Done by reflexivity.
  unfold attachmentReached.
  destruct ((length (Attachments v) =? 0)%nat && String.eqb state "detached"); [reflexivity|].
  erewrite bind_Done by (apply scanAttachments_present; exact Hall).
  reflexivity.
Qed.

Lemma ExponentialBackoff_polled : forall k request w request' w' requests,
    polled c fuel false (fun v => attachmentsPresent v && negb (attachmentReached state v))
      k request w request' w' requests ->
    request = idRequest volumeID ->
    forall steps tr,
      ExponentialBackoff (k + steps) (verifyVolumeFunc c fuel volumeID state) tt (st w tr)
      = ExponentialBackoff steps (verifyVolumeFunc c fuel volumeID state) tt
          (st w' (tr ++ describeCalls requests)).
Proof.
  induction 1 as [request w|k request w requests volume w1 request' w' requests'
                               Hp Hfuel Hwait Hrest IH]; intros Hreq steps tr.
  - simpl. rewrite app_nil_r. reflexivity.
  - subst request. simpl plus. simpl ExponentialBackoff.
    pose proof (verifyVolumeFunc_paged _ tr _ _ _ Hp Hfuel) as E. cbv beta iota zeta in E.
    apply andb_true_iff in Hwait. destruct Hwait as [Hall Hnot].
    apply negb_true_iff in Hnot. rewrite Hall, Hnot in E.
    erewrite bind_Done by exact E. cbv beta iota.
    rewrite IH by reflexivity. unfold describeCalls. rewrite map_app, app_assoc. reflexivity.
Qed.

End WaitForAttachment.

(** X8. WaitForAttachmentState looks the volume up afresh at each of at
    most 13 rounds.  After [k < 13] rounds that find the volume short of
    the state, a round that finds it there ends the wait without error:
    the volume has no attachment and the state waited for is detached, or
    one of its attachments reports the state, attachments with no state
    being skipped.  A round that finds no volume ends the wait at once
    with ErrNotFound, also when waiting for detached.  Thirteen rounds
    short of the state end in ErrWaitTimeout. *)
Theorem WaitForAttachmentState_outcomes :
  forall W (c : cloud W) (fuel : nat) (volumeID state : string) (s : St W)
         k request' w1 requests,
    polled c fuel false (fun v => attachmentsPresent v && negb (attachmentReached state v))
      k (idRequest volumeID) (world s) request' w1 requests ->
    let waited := WaitForAttachmentState c fuel volumeID state s in
    ((k < 13)%nat ->
     forall requests' volumes w2,
       paged c (idRequest volumeID) w1 requests' volumes w2 ->
       (length requests' <= fuel)%nat ->
       let s2 := st w2 (trace s ++ describeCalls (requests ++ requests')) in
       (forall v, volumes = [Some v] -> attachmentsPresent v = true ->
                  attachmentReached state v = true -> waited = Done None s2)
       /\ (volumes = [] -> waited = Done (Some ErrNotFound) s2))
    /\ (k = 13%nat ->
        waited = Done (Some ErrWaitTimeout) (st w1 (trace s ++ describeCalls requests))).
Proof.
  intros W c fuel volumeID state [w tr] k request' w1 requests Hpolled waited.
  simpl in Hpolled. unfold waited, WaitForAttachmentState. simpl trace.
  change {| world := w; trace := tr |} with (st w tr).
  split.
  - intros Hk requests' volumes w2 Hp Hfuel.
    pose proof (verifyVolumeFunc_paged _ c fuel volumeID state _ (tr ++ describeCalls requests)
                  _ _ _ Hp Hfuel) as E.
    cbv zeta in E.
    assert (G : forall ok r,
               (r = None -> ok = true) ->
               verifyVolumeFunc c fuel volumeID state tt (st w1 (tr ++ describeCalls requests))
               = Done (tt, (ok, r))
                   (st w2 ((tr ++ describeCalls requests) ++ describeCalls requests')) ->
               bind (ExponentialBackoff 13 (verifyVolumeFunc c fuel volumeID state) tt)
                 (fun x => let (_, err) := x in ret err) (st w tr)
               = Done r (st w2 (tr ++ describeCalls (requests ++ requests')))).
    { intros ok r Hok Er.
      replace 13%nat with (k + S (12 - k))%nat by lia.
      unfold bind at 1.
      rewrite (ExponentialBackoff_polled _ c fuel volumeID state _ _ _ _ _ _ Hpolled eq_refl).
      simpl ExponentialBackoff.
      erewrite bind_Done by exact Er.
      unfold describeCalls. rewrite map_app, app_assoc.
      destruct r; [reflexivity|]. rewrite (Hok eq_refl). reflexivity. }
    split.
    + intros v Hv Hall Hreached. rewrite Hv in E. cbv beta iota in E.
      rewrite Hall, Hreached in E. exact (G true None (fun _ => eq_refl) E).
    + intros Hv. rewrite Hv in E.
      refine (G false (Some ErrNotFound) _ E). intros H; discriminate H.
  - intros Hk. subst k.
    unfold bind. change 13%nat with (13 + 0)%nat at 1.
    rewrite (ExponentialBackoff_polled _ c fuel volumeID state _ _ _ _ _ _ Hpolled eq_refl).
    reflexivity.
Qed.

Lemma WaitForAttachmentState_outcomes_witness :
  polled mockCloud 1 false
    (fun v => attachmentsPresent v && negb (attachmentReached "attached" v))
    1 (idRequest "vol-1")
    (world (start [volumesPage [Some volume10] None; volumesPage [Some attachedVolume] None]))
    (idRequest "vol-1") [volumesPage [Some attachedVolume] None] [idRequest "vol-1"]
  /\ (1 < 13)%nat
  /\ attachmentsPresent attachedVolume = true
  /\ attachmentReached "attached" attachedVolume = true
  /\ WaitForAttachmentState mockCloud 1 "vol-1" "attached"
       (start [volumesPage [Some volume10] None; volumesPage [Some attachedVolume] None])
     = Done None (st [] ([] ++ describeCalls ([idRequest "vol-1"] ++ [idRequest "vol-1"]))).
Proof.
  assert (Hp1 : paged mockCloud (idRequest "vol-1")
                  [volumesPage [Some volume10] None; volumesPage [Some attachedVolume] None]
                  [idRequest "vol-1"] [Some volume10]
                  [volumesPage [Some attachedVolume] None]).
  { refine (@paged_last _ _ _ _ (volumesOutput [Some volume10] None) _ _ _); reflexivity. }
  assert (Hp2 : paged mockCloud (idRequest "vol-1") [volumesPage [Some attachedVolume] None]
                  [idRequest "vol-1"] [Some attachedVolume] []).
  { refine (@paged_last _ _ _ _ (volumesOutput [Some attachedVolume] None) _ _ _);
      reflexivity. }
  assert (Hpolled : polled mockCloud 1 false
                      (fun v => attachmentsPresent v && negb (attachmentReached "attached" v))
                      1 (idRequest "vol-1")
                      (world (start [volumesPage [Some volume10] None;
                                     volumesPage [Some attachedVolume] None]))
                      (idRequest "vol-1") [volumesPage [Some attachedVolume] None]
                      [idRequest "vol-1"]).
  { exact (@polled_S _ mockCloud 1 false _ 0 _ _ _ _ _ _ _ [] Hp1 (le_n 1) eq_refl
             (@polled_O _ mockCloud 1 false _ _ _)). }
  assert (Hlt : (1 < 13)%nat) by repeat constructor.
  split; [exact Hpolled|]. split; [exact Hlt|]. split; [reflexivity|]. split; [reflexivity|].
  exact (proj1 (proj1 (WaitForAttachmentState_outcomes _ mockCloud 1 "vol-1" "attached"
                         (start [volumesPage [Some volume10] None;
                                 volumesPage [Some attachedVolume] None])
                         1 _ _ _ Hpolled)
                  Hlt _ _ _ Hp2 (le_n 1))
           attachedVolume eq_refl eq_refl eq_refl).
Defined.

(** ** Attach and detach: the device *)

Lemma adds_scanAttachments : forall W P attachments state,
    adds P (@scanAttachments W attachments state).
Proof.
  intros W P attachments state. induction attachments as [|a rest IH]; simpl.
  - apply adds_ret.
  - apply adds_bind; [apply adds_deref|]. intros a'.
    destruct (Attachment_State a') as [stt|]; [|exact IH].
    destruct (String.eqb stt state); [apply adds_ret|exact IH].
Qed.

Lemma adds_WaitForAttachmentState :
  forall W (c : cloud W) (P : Event -> Prop) fuel volumeID state,
    (forall request, P (EvCall (CallDescribeVolumes request))) ->
    adds P (WaitForAttachmentState c fuel volumeID state).
Proof.
  intros W c P fuel volumeID state HP. unfold WaitForAttachmentState.
  apply adds_bind; [|intros [u err]; apply adds_ret].
  apply adds_ExponentialBackoff. intros []. unfold verifyVolumeFunc.
  apply adds_bind; [apply adds_getVolume; exact HP|]. intros [volume err].
  destruct err as [e|]; [apply adds_ret|].
  apply adds_bind; [apply adds_deref|]. intros v.
  destruct (_ && _); [apply adds_ret|].
  apply adds_bind; [apply adds_scanAttachments|]. intros found. apply adds_ret.
Qed.

(** A deferred event is the last thing in the trace, however the body
    ends. *)
Lemma defer_emit_last : forall W A (e : Event) (body : M W A) (s : St W),
    match defer (emit e) body s with
    | Done _ s' => exists tr, trace s' = tr ++ [e]
    | Panic _ s' => exists tr, trace s' = tr ++ [e]
    | OutOfFuel _ => True
    end.
Proof.
  intros W A e body s. unfold defer, emit.
  destruct (body s) as [a s'|p s'|s']; simpl; [eexists; reflexivity|eexists; reflexivity|exact I].
Qed.

(** X9. Once the device manager has handed AttachDisk a Device without
    error, AttachDisk ends, whether it returns or panics, with
    Release(false) on that Device as the last thing it does. *)
Theorem AttachDisk_always_releases :
  forall W (c : cloud W) (fuel : nat) (volumeID nodeID : string) (s s1 : St W)
         (instance : option Instance) (device : option Device) (w2 : W),
    getInstance c fuel nodeID s = Done (instance, None) s1 ->
    NewDevice (dm c) (instance, volumeID) (world s1) = ((device, None), w2) ->
    (forall r s', AttachDisk c fuel volumeID nodeID s = Done r s' ->
                  exists tr, trace s' = tr ++ [EvRelease device false])
    /\ (forall p s', AttachDisk c fuel volumeID nodeID s = Panic p s' ->
                     exists tr, trace s' = tr ++ [EvRelease device false]).
Proof.
  intros W c fuel volumeID nodeID s s1 instance device w2 Hinst Hdev.
  unfold AttachDisk. erewrite bind_Done by exact Hinst. cbv beta iota.
  erewrite bind_Done
    by (apply (invoke_eq _ _ _ (fun p => CallNewDevice (fst p) (snd p)) (NewDevice (dm c))
                 (instance, volumeID)); exact Hdev).
  cbv beta iota.
  match goal with
  | |- context [defer (emit ?e) ?body ?s0] =>
      pose proof (defer_emit_last _ _ e body s0) as L;
      destruct (defer (emit e) body s0) as [a s'|p s'|s']
  end.
  - split; [intros r s'' H; inversion H; subst; exact L|intros p s'' H; discriminate H].
  - split; [intros r s'' H; discriminate H|intros p' s'' H; inversion H; subst; exact L].
  - split; intros ? ? H; discriminate H.
Qed.

Lemma AttachDisk_always_releases_witness :
  getInstance mockCloud 1 "i-1" (start [instancesPage; ReplyDevice (Some freshDevice) None])
  = Done (Some instance1, None)
      (st [ReplyDevice (Some freshDevice) None]
          [EvCall (CallDescribeInstances (instanceRequest "i-1"))])
  /\ AttachDisk mockCloud 1 "vol-1" "i-1"
       (start [instancesPage; ReplyDevice (Some freshDevice) None])
     = Panic InterfaceConversion
         (st [] [EvCall (CallDescribeInstances (instanceRequest "i-1"));
                 EvCall (CallNewDevice (Some instance1) "vol-1");
                 EvRelease (Some freshDevice) false])
  /\ exists tr,
      trace (st (W:=Script) []
               [EvCall (CallDescribeInstances (instanceRequest "i-1"));
                EvCall (CallNewDevice (Some instance1) "vol-1");
                EvRelease (Some freshDevice) false])
      = tr ++ [EvRelease (Some freshDevice) false].
Proof.
  split; [reflexivity|]. split; [reflexivity|].
  exact (proj2 (AttachDisk_always_releases _ mockCloud 1 "vol-1" "i-1"
                  (start [instancesPage; ReplyDevice (Some freshDevice) None])
                  _ (Some instance1) (Some freshDevice) [] eq_refl eq_refl)
           InterfaceConversion _ eq_refl).
Defined.

(** X10. When the Device handed out was already assigned, AttachDisk makes
    no attach call and no type assertion, whatever stands behind the EC2
    interface: it only waits for the attached state.  If the wait ends
    without error the Device's path is returned; if it ends with an error
    that error is returned and the Device is tainted, then released.  All
    the wait adds to the trace are DescribeVolumes calls. *)
Theorem AttachDisk_reuses_assigned_device :
  forall W (c : cloud W) (fuel : nat) (volumeID nodeID : string) (s s1 : St W)
         (instance : option Instance) (d : Device) (w2 : W) werr s3,
    getInstance c fuel nodeID s = Done (instance, None) s1 ->
    NewDevice (dm c) (instance, volumeID) (world s1) = ((Some d, None), w2) ->
    IsAlreadyAssigned d = true ->
    let allocated := st w2 (trace s1 ++ [EvCall (CallNewDevice instance volumeID)]) in
    WaitForAttachmentState c fuel volumeID "attached" allocated = Done werr s3 ->
    AttachDisk c fuel volumeID nodeID s
    = Done (match werr with
            | None => (Path d, None)
            | Some e => (EmptyString, Some e)
            end)
        (st (world s3)
            (trace s3
             ++ match werr with
                | None => [EvRelease (Some d) false]
                | Some _ => [EvTaint (Some d); EvRelease (Some d) false]
                end))
    /\ exists lookups,
        trace s3 = trace allocated ++ lookups
        /\ Forall (fun e => exists request, e = EvCall (CallDescribeVolumes request)) lookups.
Proof.
  intros W c fuel volumeID nodeID s s1 instance d w2 werr s3 Hinst Hdev Hassigned
         allocated Hwait.
  split.
  - unfold AttachDisk. erewrite bind_Done by exact Hinst. cbv beta iota.
    erewrite bind_Done
      by (apply (invoke_eq _ _ _ (fun p => CallNewDevice (fst p) (snd p)) (NewDevice (dm c))
                   (instance, volumeID)); exact Hdev).
    cbv beta iota. unfold defer, bind at 1, deref, ret at 1. rewrite Hassigned.
    cbn [negb]. unfold bind at 1. unfold ret at 1. cbv beta iota.
    cbn [fst snd]. fold allocated. erewrite bind_Done by exact Hwait.
    destruct werr as [e|]; cbn; [rewrite <- app_assoc|]; reflexivity.
  - destruct (adds_WaitForAttachmentState _ c
                (fun e => exists request, e = EvCall (CallDescribeVolumes request))
                fuel volumeID "attached" ltac:(intros request; eexists; reflexivity)
                allocated) as [lookups [Et Hf]].
    rewrite Hwait in Et. exists lookups. split; [exact Et|exact Hf].
Qed.

Lemma AttachDisk_reuses_assigned_device_witness :
  getInstance mockCloud 1 "i-1"
    (start [instancesPage; ReplyDevice (Some assignedDevice) None;
            volumesPage [Some attachedVolume] None])
  = Done (Some instance1, None)
      (st [ReplyDevice (Some assignedDevice) None; volumesPage [Some attachedVolume] None]
          [EvCall (CallDescribeInstances (instanceRequest "i-1"))])
  /\ IsAlreadyAssigned assignedDevice = true
  /\ AttachDisk mockCloud 1 "vol-1" "i-1"
       (start [instancesPage; ReplyDevice (Some assignedDevice) None;
               volumesPage [Some attachedVolume] None])
     = Done ("/dev/xvdbb", None)
         (st [] [EvCall (CallDescribeInstances (instanceRequest "i-1"));
                 EvCall (CallNewDevice (Some instance1) "vol-1");
                 EvCall (CallDescribeVolumes (idRequest "vol-1"));
                 EvRelease (Some assignedDevice) false]).
Proof.
  split; [reflexivity|]. split; [reflexivity|].
  exact (proj1 (AttachDisk_reuses_assigned_device _ mockCloud 1 "vol-1" "i-1"
                  (start [instancesPage; ReplyDevice (Some assignedDevice) None;
                          volumesPage [Some attachedVolume] None])
                  _ (Some instance1) assignedDevice
                  [volumesPage [Some attachedVolume] None] None
                  (st [] [EvCall (CallDescribeInstances (instanceRequest "i-1"));
                          EvCall (CallNewDevice (Some instance1) "vol-1");
                          EvCall (CallDescribeVolumes (idRequest "vol-1"))])
                  eq_refl eq_refl eq_refl eq_refl)).
Defined.

(** ** Detach *)

Section Detach.

Variable W : Type.
Variable c : cloud W.
Variables (fuel : nat) (volumeID nodeID : string).
Variables (s s1 : St W) (instance : option Instance) (device : option Device) (w2 : W).

Hypothesis instance_found : getInstance c fuel nodeID s = Done (instance, None) s1.
Hypothesis device_found :
  GetDevice (dm c) (instance, volumeID) (world s1) = ((device, None), w2).

(** [DetachDisk] from the point where the device lookup has answered. *)
Lemma DetachDisk_found :
  DetachDisk c fuel volumeID nodeID s
  = defer (emit (EvRelease device true))
      (_ <- deref device ;;
       '(_, err) <- invoke CallDetachVolume (DetachVolumeWithContext (ec2 c))
                      (detachRequest volumeID nodeID) ;;
       match err with
       | Some e =>
           if isAWSErrorIncorrectState e
              || isAWSErrorInvalidAttachmentNotFound e
              || isAWSErrorVolumeNotFound e
           then ret (Some ErrNotFound)
           else
             ret (Some (Errorf "could not detach volume %q from node %q: %v"
                          [ArgString volumeID; ArgString nodeID] e))
       | None =>
           err <- WaitForAttachmentState c fuel volumeID "detached" ;;
           match err with
           | Some e => ret (Some e)
           | None => ret None
           end
       end)
      (st w2 (trace s1 ++ [EvCall (CallGetDevice instance volumeID)])).
Proof.
  unfold DetachDisk. erewrite bind_Done by exact instance_found. cbv beta iota.
  erewrite bind_Done
    by (apply (invoke_eq _ _ _ (fun p => CallGetDevice (fst p) (snd p)) (GetDevice (dm c))
                 (instance, volumeID)); exact device_found).
  reflexivity.
Qed.

End Detach.

(** X11. Whatever the Device found says about being assigned, DetachDisk
    makes the detach call.  A provider error with the code
    IncorrectState, with the code InvalidAttachment.NotFound or with the
    code InvalidVolume.NotFound comes back as ErrNotFound; every other
    error (whatever is not a provider error with one of these three
    codes) comes back wrapped; neither is followed by a wait, and the
    Device is released with Release(true). *)
Theorem DetachDisk_error_mapping :
  forall W (c : cloud W) (fuel : nat) (volumeID nodeID : string) (s s1 : St W)
         (instance : option Instance) (d : Device) (w2 : W) out e w3,
    getInstance c fuel nodeID s = Done (instance, None) s1 ->
    GetDevice (dm c) (instance, volumeID) (world s1) = ((Some d, None), w2) ->
    DetachVolumeWithContext (ec2 c) (detachRequest volumeID nodeID) w2 = ((out, Some e), w3) ->
    let s' :=
      st w3 (trace s1
             ++ [EvCall (CallGetDevice instance volumeID);
                 EvCall (CallDetachVolume (detachRequest volumeID nodeID));
                 EvRelease (Some d) true]) in
    let detached := DetachDisk c fuel volumeID nodeID s in
    (forall msg, e = AwsErr "IncorrectState" msg -> detached = Done (Some ErrNotFound) s')
    /\ (forall msg, e = AwsErr "InvalidAttachment.NotFound" msg ->
                    detached = Done (Some ErrNotFound) s')
    /\ (forall msg, e = AwsErr "InvalidVolume.NotFound" msg ->
                    detached = Done (Some ErrNotFound) s')
    /\ ((forall msg, e <> AwsErr "IncorrectState" msg) ->
        (forall msg, e <> AwsErr "InvalidAttachment.NotFound" msg) ->
        (forall msg, e <> AwsErr "InvalidVolume.NotFound" msg) ->
        detached
        = Done (Some (Errorf "could not detach volume %q from node %q: %v"
                        [ArgString volumeID; ArgString nodeID] e)) s').
Proof.
  intros W c fuel volumeID nodeID s s1 instance d w2 out e w3 Hinst Hdev Edetach s' detached.
  assert (E : detached
              = Done (Some (if isAWSError e "IncorrectState"
                               || isAWSError e "InvalidAttachment.NotFound"
                               || isAWSError e "InvalidVolume.NotFound"
                            then ErrNotFound
                            else Errorf "could not detach volume %q from node %q: %v"
                                   [ArgString volumeID; ArgString nodeID] e)) s').
  { unfold detached, s'.
    rewrite (DetachDisk_found _ c fuel volumeID nodeID s s1 instance (Some d) w2 Hinst Hdev).
    unfold defer. erewrite bind_Done by reflexivity.
    erewrite bind_Done by (apply invoke_eq; exact Edetach). cbv beta iota.
    unfold isAWSErrorIncorrectState, isAWSErrorInvalidAttachmentNotFound,
      isAWSErrorVolumeNotFound.
    destruct (isAWSError e "IncorrectState" || isAWSError e "InvalidAttachment.NotFound"
              || isAWSError e "InvalidVolume.NotFound");
      cbn; rewrite <- !app_assoc; reflexivity. }
  split; [intros msg He; subst e; exact E|].
  split; [intros msg He; subst e; exact E|].
  split; [intros msg He; subst e; exact E|].
  intros H1 H2 H3.
  rewrite (isAWSError_other _ _ H1), (isAWSError_other _ _ H2), (isAWSError_other _ _ H3)
    in E.
  exact E.
Qed.

Lemma DetachDisk_error_mapping_witness :
  (forall rest,
      getInstance mockCloud 1 "i-1" (start (instancesPage :: rest))
      = Done (Some instance1, None)
          (st rest [EvCall (CallDescribeInstances (instanceRequest "i-1"))]))
  /\ (forall msg, internalError <> AwsErr "IncorrectState" msg)
  /\ (forall msg, internalError <> AwsErr "InvalidAttachment.NotFound" msg)
  /\ (forall msg, internalError <> AwsErr "InvalidVolume.NotFound" msg)
  /\ (forall e,
        In e [AwsErr "IncorrectState" "detaching";
              AwsErr "InvalidAttachment.NotFound" "no attachment"; volumeGone] ->
        DetachDisk mockCloud 1 "vol-1" "i-1"
          (start [instancesPage; ReplyDevice (Some freshDevice) None;
                  ReplyDetachVolume None (Some e)])
        = Done (Some ErrNotFound)
            (st [] ([EvCall (CallDescribeInstances (instanceRequest "i-1"))]
                    ++ [EvCall (CallGetDevice (Some instance1) "vol-1");
                        EvCall (CallDetachVolume (detachRequest "vol-1" "i-1"));
                        EvRelease (Some freshDevice) true])))
  /\ DetachDisk mockCloud 1 "vol-1" "i-1"
       (start [instancesPage; ReplyDevice (Some freshDevice) None;
               ReplyDetachVolume None (Some internalError)])
     = Done (Some (Errorf "could not detach volume %q from node %q: %v"
                     [ArgString "vol-1"; ArgString "i-1"] internalError))
         (st [] ([EvCall (CallDescribeInstances (instanceRequest "i-1"))]
                 ++ [EvCall (CallGetDevice (Some instance1) "vol-1");
                     EvCall (CallDetachVolume (detachRequest "vol-1" "i-1"));
                     EvRelease (Some freshDevice) true])).
Proof.
  assert (H1 : forall msg, internalError <> AwsErr "IncorrectState" msg)
    by (intros msg; discriminate).
  assert (H2 : forall msg, internalError <> AwsErr "InvalidAttachment.NotFound" msg)
    by (intros msg; discriminate).
  assert (H3 : forall msg, internalError <> AwsErr "InvalidVolume.NotFound" msg)
    by (intros msg; discriminate).
  pose (run := fun e =>
          DetachDisk_error_mapping _ mockCloud 1 "vol-1" "i-1"
            (start [instancesPage; ReplyDevice (Some freshDevice) None;
                    ReplyDetachVolume None (Some e)])
            _ (Some instance1) freshDevice [ReplyDetachVolume None (Some e)]
            None e [] eq_refl eq_refl eq_refl).
  split; [intros rest; reflexivity|].
  split; [exact H1|]. split; [exact H2|]. split; [exact H3|]. split.
  - intros e [He|[He|[He|[]]]]; subst e.
    + exact (proj1 (run _) _ eq_refl).
    + exact (proj1 (proj2 (run _)) _ eq_refl).
    + exact (proj1 (proj2 (proj2 (run _))) _ eq_refl).
  - exact (proj2 (proj2 (proj2 (run internalError))) H1 H2 H3).
Defined.

(** X12. Once the device manager has answered DetachDisk's lookup without
    error, DetachDisk ends, whether it returns or panics, with
    Release(true) on the Device found as the last thing it does. *)
Theorem DetachDisk_always_releases :
  forall W (c : cloud W) (fuel : nat) (volumeID nodeID : string) (s s1 : St W)
         (instance : option Instance) (device : option Device) (w2 : W),
    getInstance c fuel nodeID s = Done (instance, None) s1 ->
    GetDevice (dm c) (instance, volumeID) (world s1) = ((device, None), w2) ->
    (forall r s', DetachDisk c fuel volumeID nodeID s = Done r s' ->
                  exists tr, trace s' = tr ++ [EvRelease device true])
    /\ (forall p s', DetachDisk c fuel volumeID nodeID s = Panic p s' ->
                     exists tr, trace s' = tr ++ [EvRelease device true]).
Proof.
  intros W c fuel volumeID nodeID s s1 instance device w2 Hinst Hdev.
  rewrite (DetachDisk_found _ c fuel volumeID nodeID s s1 instance device w2 Hinst Hdev).
  match goal with
  | |- context [defer (emit ?e) ?body ?s0] =>
      pose proof (defer_emit_last _ _ e body s0) as L;
      destruct (defer (emit e) body s0) as [a s'|p s'|s']
  end.
  - split; [intros r s'' H; inversion H; subst; exact L|intros p s'' H; discriminate H].
  - split; [intros r s'' H; discriminate H|intros p' s'' H; inversion H; subst; exact L].
  - split; intros ? ? H; discriminate H.
Qed.

Lemma DetachDisk_always_releases_witness :
  getInstance mockCloud 1 "i-1"
    (start [instancesPage; ReplyDevice None None])
  = Done (Some instance1, None)
      (st [ReplyDevice None None] [EvCall (CallDescribeInstances (instanceRequest "i-1"))])
  /\ DetachDisk mockCloud 1 "vol-1" "i-1" (start [instancesPage; ReplyDevice None None])
     = Panic NilDereference
         (st [] [EvCall (CallDescribeInstances (instanceRequest "i-1"));
                 EvCall (CallGetDevice (Some instance1) "vol-1");
                 EvRelease None true])
  /\ exists tr,
      trace (st (W:=Script) []
               [EvCall (CallDescribeInstances (instanceRequest "i-1"));
                EvCall (CallGetDevice (Some instance1) "vol-1");
                EvRelease None true])
      = tr ++ [EvRelease None true].
Proof.
  split; [reflexivity|]. split; [reflexivity|].
  exact (proj2 (DetachDisk_always_releases _ mockCloud 1 "vol-1" "i-1"
                  (start [instancesPage; ReplyDevice None None])
                  _ (Some instance1) None [] eq_refl eq_refl)
           NilDereference _ eq_refl).
Defined.

(** X13. AttachDisk and DetachDisk give up before touching a device when
    the instance lookup fails, returning its error with nothing but the
    lookup's calls made; and when the device manager answers with an
    error they return that error with no release and no taint, the
    device-manager call being the last thing in the trace. *)
Theorem Attach_Detach_early_failures :
  forall W (c : cloud W) (fuel : nat) (volumeID nodeID : string) (s s1 : St W),
    (forall instance e,
        getInstance c fuel nodeID s = Done (instance, Some e) s1 ->
        AttachDisk c fuel volumeID nodeID s = Done (EmptyString, Some e) s1
        /\ DetachDisk c fuel volumeID nodeID s = Done (Some e) s1)
    /\ (forall instance device e w2,
           getInstance c fuel nodeID s = Done (instance, None) s1 ->
           (NewDevice (dm c) (instance, volumeID) (world s1) = ((device, Some e), w2) ->
            AttachDisk c fuel volumeID nodeID s
            = Done (EmptyString, Some e)
                (st w2 (trace s1 ++ [EvCall (CallNewDevice instance volumeID)])))
           /\ (GetDevice (dm c) (instance, volumeID) (world s1) = ((device, Some e), w2) ->
               DetachDisk c fuel volumeID nodeID s
               = Done (Some e)
                   (st w2 (trace s1 ++ [EvCall (CallGetDevice instance volumeID)])))).
Proof.
  intros W c fuel volumeID nodeID s s1. split.
  - intros instance e Hinst. split.
    + unfold AttachDisk. erewrite bind_Done by exact Hinst. reflexivity.
    + unfold DetachDisk. erewrite bind_Done by exact Hinst. reflexivity.
  - intros instance device e w2 Hinst. split; intros Hdev.
    + unfold AttachDisk. erewrite bind_Done by exact Hinst. cbv beta iota.
      erewrite bind_Done
        by (apply (invoke_eq _ _ _ (fun p => CallNewDevice (fst p) (snd p))
                     (NewDevice (dm c)) (instance, volumeID)); exact Hdev).
      reflexivity.
    + unfold DetachDisk. erewrite bind_Done by exact Hinst. cbv beta iota.
      erewrite bind_Done
        by (apply (invoke_eq _ _ _ (fun p => CallGetDevice (fst p) (snd p))
                     (GetDevice (dm c)) (instance, volumeID)); exact Hdev).
      reflexivity.
Qed.

Lemma Attach_Detach_early_failures_witness :
  getInstance mockCloud 1 "i-1"
    (start [ReplyDescribeInstances None (Some (AwsErr "InvalidInstanceID.NotFound" "none"))])
  = Done (None, Some ErrNotFound)
      (st [] [EvCall (CallDescribeInstances (instanceRequest "i-1"))])
  /\ AttachDisk mockCloud 1 "vol-1" "i-1"
       (start [ReplyDescribeInstances None
                 (Some (AwsErr "InvalidInstanceID.NotFound" "none"))])
     = Done (EmptyString, Some ErrNotFound)
         (st [] [EvCall (CallDescribeInstances (instanceRequest "i-1"))]).
Proof.
  split; [reflexivity|].
  exact (proj1 (proj1 (Attach_Detach_early_failures _ mockCloud 1 "vol-1" "i-1"
                         (start [ReplyDescribeInstances None
                                   (Some (AwsErr "InvalidInstanceID.NotFound" "none"))])
                         _)
                  None ErrNotFound eq_refl)).
Defined.

(** ** What the operations call *)

(** X14. Whatever the provider and the device manager answer, AttachDisk
    adds to the trace only instance lookups, the allocation of a Device
    for the volume, an attach call naming exactly the volume and the
    node, volume lookups, taints and Release(false); DetachDisk adds only
    instance lookups, the lookup of the Device, a detach call naming
    exactly the volume and the node, volume lookups and Release(true): it
    never taints. *)
Theorem Attach_Detach_calls :
  forall W (c : cloud W) (fuel : nat) (volumeID nodeID : string),
    adds (fun e =>
            (exists request, e = EvCall (CallDescribeInstances request))
            \/ (exists instance, e = EvCall (CallNewDevice instance volumeID))
            \/ e = EvCall (CallAttachVolume (attachRequest volumeID nodeID))
            \/ (exists request, e = EvCall (CallDescribeVolumes request))
            \/ (exists d, e = EvTaint d)
            \/ (exists d, e = EvRelease d false))
      (AttachDisk c fuel volumeID nodeID)
    /\ adds (fun e =>
               (exists request, e = EvCall (CallDescribeInstances request))
               \/ (exists instance, e = EvCall (CallGetDevice instance volumeID))
               \/ e = EvCall (CallDetachVolume (detachRequest volumeID nodeID))
               \/ (exists request, e = EvCall (CallDescribeVolumes request))
               \/ (exists d, e = EvRelease d true))
         (DetachDisk c fuel volumeID nodeID).
Proof.
  intros W c fuel volumeID nodeID. split.
  - unfold AttachDisk.
    apply adds_bind; [apply adds_getInstance; intros r; left; eexists; reflexivity|].
    intros [instance err]. destruct err as [e|]; [apply adds_ret|].
    apply adds_bind;
      [apply adds_invoke; right; left; eexists; reflexivity|].
    intros [device err]. destruct err as [e|]; [apply adds_ret|].
    apply adds_defer;
      [apply adds_emit; right; right; right; right; right; eexists; reflexivity|].
    apply adds_bind; [apply adds_deref|]. intros d.
    apply adds_bind.
    + destruct (negb (IsAlreadyAssigned d)); [|apply adds_ret].
      apply adds_bind; [unfold assertEC2; destruct (dynamicEC2 (ec2 c));
                        [apply adds_ret|apply adds_raise]|].
      intros client. apply adds_bind.
      * unfold AttachVolumeWithContext.
        apply adds_bind; [apply adds_invoke; right; right; left; reflexivity|].
        intros [out err]. apply adds_ret.
      * intros [resp err]. destruct err as [e|]; [|apply adds_ret].
        destruct (isAWSError e "VolumeInUse"); apply adds_ret.
    + intros [result|]; [apply adds_ret|].
      apply adds_bind;
        [apply adds_WaitForAttachmentState; intros r; right; right; right; left;
         eexists; reflexivity|].
      intros [e|]; [|apply adds_ret].
      apply adds_bind;
        [apply adds_emit; right; right; right; right; left; eexists; reflexivity|].
      intros _. apply adds_ret.
  - unfold DetachDisk.
    apply adds_bind; [apply adds_getInstance; intros r; left; eexists; reflexivity|].
    intros [instance err]. destruct err as [e|]; [apply adds_ret|].
    apply adds_bind;
      [apply adds_invoke; right; left; eexists; reflexivity|].
    intros [device err]. destruct err as [e|]; [apply adds_ret|].
    apply adds_defer;
      [apply adds_emit; right; right; right; right; eexists; reflexivity|].
    apply adds_bind; [apply adds_deref|]. intros d.
    apply adds_bind; [apply adds_invoke; right; right; left; reflexivity|].
    intros [out err]. destruct err as [e|].
    + destruct (_ || _); apply adds_ret.
    + apply adds_bind;
        [apply adds_WaitForAttachmentState; intros r; right; right; right; left;
         eexists; reflexivity|].
      intros [e|]; apply adds_ret.
Qed.

Lemma adds_getLatestVolumeModification :
  forall W (c : cloud W) (P : Event -> Prop) volumeID,
    P (pollEvent volumeID) -> adds P (getLatestVolumeModification c volumeID).
Proof.
  intros W c P volumeID HP. unfold getLatestVolumeModification.
  apply adds_bind; [apply adds_invoke; exact HP|].
  intros [out err]. destruct err as [e|]; [apply adds_ret|].
  apply adds_bind; [apply adds_deref|]. intros o.
  destruct (_ =? _)%nat; apply adds_ret.
Qed.

Lemma adds_waitForVolumeSize :
  forall W (c : cloud W) (P : Event -> Prop) volumeID,
    P (pollEvent volumeID) -> adds P (waitForVolumeSize c volumeID).
Proof.
  intros W c P volumeID HP. unfold waitForVolumeSize.
  apply adds_bind.
  - apply adds_ExponentialBackoff. intros acc. unfold waitForVolumeSizeFunc.
    apply adds_bind; [apply adds_getLatestVolumeModification; exact HP|].
    intros [m err]. destruct err as [e|]; [apply adds_ret|].
    apply adds_bind; [apply adds_deref|]. intros m'.
    destruct (modificationDone _); apply adds_ret.
  - intros [size err]. destruct err; apply adds_ret.
Qed.

(** X15. Whatever the provider answers, ResizeDisk adds to the trace only
    volume lookups, a ModifyVolume call for exactly this volume and
    RoundUpGiB(newSizeBytes) GiB, and queries of this volume's
    modifications: it never asks for another size. *)
Theorem ResizeDisk_calls :
  forall W (util : Util) (c : cloud W) (fuel : nat) (volumeID : string) (newSizeBytes : Z),
    adds (fun e =>
            (exists request, e = EvCall (CallDescribeVolumes request))
            \/ e = EvCall (CallModifyVolume
                             (resizeRequest volumeID (RoundUpGiB util newSizeBytes)))
            \/ e = pollEvent volumeID)
      (ResizeDisk util c fuel volumeID newSizeBytes).
Proof.
  intros W util c fuel volumeID newSizeBytes. unfold ResizeDisk.
  assert (Hfinish : forall response m,
             adds (fun e =>
                     (exists request, e = EvCall (CallDescribeVolumes request))
                     \/ e = EvCall (CallModifyVolume
                                      (resizeRequest volumeID (RoundUpGiB util newSizeBytes)))
                     \/ e = pollEvent volumeID)
               (resizeFinish c volumeID response m)).
  { intros response m. unfold resizeFinish.
    apply adds_bind.
    - destruct m; [apply adds_ret|].
      apply adds_bind; [apply adds_deref|]. intros r. apply adds_ret.
    - intros m'. apply adds_bind; [apply adds_deref|]. intros m''.
      destruct (modificationDone _); [apply adds_ret|].
      apply adds_waitForVolumeSize. right; right; reflexivity. }
  apply adds_bind; [apply adds_getVolume; intros r; left; eexists; reflexivity|].
  intros [volume err]. destruct err as [e|]; [apply adds_ret|].
  apply adds_bind; [apply adds_deref|]. intros v.
  destruct (_ >=? _); [apply adds_ret|].
  apply adds_bind; [apply adds_invoke; right; left; reflexivity|].
  intros [response err]. destruct err as [e|]; [|apply Hfinish].
  destruct (negb _); [apply adds_ret|].
  apply adds_bind; [apply adds_getLatestVolumeModification; right; right; reflexivity|].
  intros [m err]. destruct err as [e'|]; [apply adds_ret|apply Hfinish].
Qed.

(** ** Resize: the ways it fails *)

(** X16. ResizeDisk returns 0 with an error, and stops there, when the
    lookup finds no volume (ErrNotFound) or several (ErrMultiDisks),
    neither being followed by a modify call; when the modify call fails
    with an error that is not a provider error with the code
    IncorrectModificationState (the error wrapped, no query of
    modifications after it); and, after a provider error with the code
    IncorrectModificationState, when the query of modifications fails
    (wrapped) or answers with no record at all. *)
Theorem ResizeDisk_failures :
  forall W (util : Util) (c : cloud W) (fuel : nat) (volumeID : string) (newSizeBytes : Z)
         (s : St W) requests volumes w1,
    paged c (idRequest volumeID) (world s) requests volumes w1 ->
    (length requests <= fuel)%nat ->
    let looked := trace s ++ describeCalls requests in
    let request := resizeRequest volumeID (RoundUpGiB util newSizeBytes) in
    let modified := looked ++ [EvCall (CallModifyVolume request)] in
    let resized := ResizeDisk util c fuel volumeID newSizeBytes s in
    (volumes = [] -> resized = Done (0, Some ErrNotFound) (st w1 looked))
    /\ ((2 <= length volumes)%nat -> resized = Done (0, Some ErrMultiDisks) (st w1 looked))
    /\ (forall v response e w2,
           volumes = [Some v] ->
           Int64Value (Volume_Size v) < RoundUpGiB util newSizeBytes ->
           ModifyVolumeWithContext (ec2 c) request w1 = ((response, Some e), w2) ->
           ((forall msg, e <> AwsErr "IncorrectModificationState" msg) ->
            resized
            = Done (0, Some (Errorf "could not modify AWS volume %q: %v"
                               [ArgString volumeID] e)) (st w2 modified))
           /\ (forall msg, e = AwsErr "IncorrectModificationState" msg ->
               forall out e' w3,
                 DescribeVolumesModificationsWithContext (ec2 c)
                   (modificationsRequest volumeID) w2 = ((out, e'), w3) ->
                 (forall e'', e' = Some e'' ->
                              resized
                              = Done (0, Some (Errorf
                                                 "error describing modifications in volume %q: %v"
                                                 [ArgString volumeID] e''))
                                  (st w3 (modified ++ [pollEvent volumeID])))
                 /\ (forall o, e' = None -> out = Some o -> VolumesModifications o = [] ->
                               resized
                               = Done (0, Some (ErrorfMsg
                                                  "could not find any modifications for volume %q"
                                                  [ArgString volumeID]))
                                   (st w3 (modified ++ [pollEvent volumeID]))))).
Proof.
  intros W util c fuel volumeID newSizeBytes s requests volumes w1 Hp Hfuel
         looked request modified resized.
  pose proof (getVolume_paged _ _ _ _ _ _ _ _ Hp Hfuel) as E. cbv zeta in E. fold looked in E.
  split; [intros Hv; rewrite Hv in E; unfold resized, ResizeDisk;
          erewrite bind_Done by exact E; reflexivity|].
  split.
  { intros Hlen. destruct volumes as [|v [|v' vs]]; simpl in Hlen; try lia.
    unfold resized, ResizeDisk. erewrite bind_Done by exact E. reflexivity. }
  intros v response e w2 Hv Hsize Em. rewrite Hv in E.
  assert (G : resized
              = (if negb (isAWSErrorIncorrectModification e)
                 then ret (0, Some (Errorf "could not modify AWS volume %q: %v"
                                      [ArgString volumeID] e))
                 else
                   '(m, err) <- getLatestVolumeModification c volumeID ;;
                   match err with
                   | Some e' => ret (0, Some e')
                   | None => resizeFinish c volumeID response m
                   end) (st w2 modified)).
  { unfold resized, ResizeDisk. erewrite bind_Done by exact E. cbn.
    replace (Int64Value (Volume_Size v) >=? RoundUpGiB util newSizeBytes) with false
      by (symmetry; rewrite Z.geb_leb; apply Z.leb_gt; lia).
    erewrite bind_Done by (apply invoke_eq; exact Em). reflexivity. }
  rewrite G. unfold isAWSErrorIncorrectModification. split.
  - intros He. rewrite (isAWSError_other _ _ He). reflexivity.
  - intros msg He out e' w3 Eq. rewrite He, isAWSError_code. cbn [negb].
    unfold getLatestVolumeModification. fold (modificationsRequest volumeID).
    split.
    + intros e'' He'. subst e'.
      erewrite bind_Done; [|erewrite bind_Done by (apply invoke_eq; exact Eq); reflexivity].
      reflexivity.
    + intros o He' Ho Hempty. subst e' out.
      erewrite bind_Done;
        [|erewrite bind_Done by (apply invoke_eq; exact Eq); cbn; rewrite Hempty; reflexivity].
      reflexivity.
Qed.

Lemma ResizeDisk_failures_witness :
  (forall rest,
      paged mockCloud (idRequest "vol-1")
        (world (start (volumesPage [Some volume10] None :: rest)))
        [idRequest "vol-1"] [Some volume10] rest)
  /\ Int64Value (Volume_Size volume10) < RoundUpGiB utilModel (11 * GiB)
  /\ (forall msg, internalError <> AwsErr "IncorrectModificationState" msg)
  /\ ResizeDisk utilModel mockCloud 1 "vol-1" (11 * GiB)
       (start [volumesPage [Some volume10] None; ReplyModifyVolume None (Some internalError)])
     = Done (0, Some (Errorf "could not modify AWS volume %q: %v" [ArgString "vol-1"]
                        internalError))
         (st [] (([] ++ describeCalls [idRequest "vol-1"])
                 ++ [EvCall (CallModifyVolume
                               (resizeRequest "vol-1" (RoundUpGiB utilModel (11 * GiB))))]))
  /\ ResizeDisk utilModel mockCloud 1 "vol-1" (11 * GiB)
       (start [volumesPage [Some volume10] None;
               ReplyModifyVolume None (Some modificationBusy);
               ReplyDescribeVolumesModifications
                 (Some {| VolumesModifications := [] |}) None])
     = Done (0, Some (ErrorfMsg "could not find any modifications for volume %q"
                        [ArgString "vol-1"]))
         (st [] ((([] ++ describeCalls [idRequest "vol-1"])
                  ++ [EvCall (CallModifyVolume
                                (resizeRequest "vol-1" (RoundUpGiB utilModel (11 * GiB))))])
                 ++ [pollEvent "vol-1"]))
  /\ ResizeDisk utilModel mockCloud 1 "vol-1" (11 * GiB)
       (start [volumesPage [Some volume10] None;
               ReplyModifyVolume None (Some modificationBusy);
               ReplyDescribeVolumesModifications None (Some internalError)])
     = Done (0, Some (Errorf "error describing modifications in volume %q: %v"
                        [ArgString "vol-1"] internalError))
         (st [] ((([] ++ describeCalls [idRequest "vol-1"])
                  ++ [EvCall (CallModifyVolume
                                (resizeRequest "vol-1" (RoundUpGiB utilModel (11 * GiB))))])
                 ++ [pollEvent "vol-1"])).
Proof.
  assert (Hp : forall rest,
             paged mockCloud (idRequest "vol-1")
               (world (start (volumesPage [Some volume10] None :: rest)))
               [idRequest "vol-1"] [Some volume10] rest).
  { intros rest.
    refine (@paged_last _ _ _ _ (volumesOutput [Some volume10] None) _ _ _); reflexivity. }
  assert (Hsize : Int64Value (Volume_Size volume10) < RoundUpGiB utilModel (11 * GiB)).
  { vm_compute. reflexivity. }
  assert (Hother : forall msg, internalError <> AwsErr "IncorrectModificationState" msg)
    by (intros msg; discriminate).
  split; [exact Hp|]. split; [exact Hsize|]. split; [exact Hother|].
  split; [|split].
  - exact (proj1 (proj2 (proj2 (ResizeDisk_failures _ utilModel mockCloud 1 "vol-1"
                                  (11 * GiB)
                                  (start [volumesPage [Some volume10] None;
                                          ReplyModifyVolume None (Some internalError)])
                                  _ _ _ (Hp _) (le_n 1)))
                    volume10 None internalError [] eq_refl Hsize eq_refl)
             Hother).
  - exact (proj2 (proj2 (proj2 (proj2 (ResizeDisk_failures _ utilModel mockCloud 1 "vol-1"
                                         (11 * GiB)
                                         (start [volumesPage [Some volume10] None;
                                                 ReplyModifyVolume None (Some modificationBusy);
                                                 ReplyDescribeVolumesModifications
                                                   (Some {| VolumesModifications := [] |})
                                                   None])
                                         _ _ _ (Hp _) (le_n 1)))
                           volume10 None modificationBusy
                           [ReplyDescribeVolumesModifications
                              (Some {| VolumesModifications := [] |}) None]
                           eq_refl Hsize eq_refl)
                    "busy" eq_refl
                    (Some {| VolumesModifications := [] |}) None [] eq_refl)
             {| VolumesModifications := [] |} eq_refl eq_refl eq_refl).
  - exact (proj1 (proj2 (proj2 (proj2 (ResizeDisk_failures _ utilModel mockCloud 1 "vol-1"
                                         (11 * GiB)
                                         (start [volumesPage [Some volume10] None;
                                                 ReplyModifyVolume None (Some modificationBusy);
                                                 ReplyDescribeVolumesModifications None
                                                   (Some internalError)])
                                         _ _ _ (Hp _) (le_n 1)))
                           volume10 None modificationBusy
                           [ReplyDescribeVolumesModifications None (Some internalError)]
                           eq_refl Hsize eq_refl)
                    "busy" eq_refl None (Some internalError) [] eq_refl)
             internalError eq_refl).
Defined.

(** ** Lookups by ID *)

(** X17. When the listing by volume ID completes, GetDiskByID fails with
    ErrMultiDisks if it holds two or more volumes and with ErrNotFound
    if it holds none; for exactly one it returns the Disk made of the
    volume's ID, size and zone, whatever the size, and with an empty
    SnapshotID even when the volume names a source snapshot. *)
Theorem GetDiskByID_outcomes :
  forall W (c : cloud W) (fuel : nat) (volumeID : string) (s : St W) requests volumes w',
    paged c (idRequest volumeID) (world s) requests volumes w' ->
    (length requests <= fuel)%nat ->
    let s' := st w' (trace s ++ describeCalls requests) in
    let found := GetDiskByID c fuel volumeID s in
    ((2 <= length volumes)%nat -> found = Done (None, Some ErrMultiDisks) s')
    /\ (volumes = [] -> found = Done (None, Some ErrNotFound) s')
    /\ (forall v, volumes = [Some v] ->
                  found = Done (Some {| VolumeID := StringValue (Volume_VolumeId v);
                                        CapacityGiB := Int64Value (Volume_Size v);
                                        AvailabilityZone_ :=
                                          StringValue (Volume_AvailabilityZone v);
                                        SnapshotID := EmptyString |}, None) s').
Proof.
  intros W c fuel volumeID s requests volumes w' Hp Hfuel s' found.
  pose proof (getVolume_paged _ _ _ _ _ _ _ _ Hp Hfuel) as E. cbv zeta in E. fold s' in E.
  unfold found, GetDiskByID.
  split; [|split].
  - intros Hlen. destruct volumes as [|v [|v' vs]]; simpl in Hlen; try lia.
    erewrite bind_Done by exact E. reflexivity.
  - intros Hv. rewrite Hv in E. erewrite bind_Done by exact E. reflexivity.
  - intros v Hv. rewrite Hv in E. erewrite bind_Done by exact E. reflexivity.
Qed.

Lemma GetDiskByID_outcomes_witness :
  paged mockCloud (idRequest "vol-1") (world (start [volumesPage [] None]))
    [idRequest "vol-1"] [] []
  /\ GetDiskByID mockCloud 1 "vol-1" (start [volumesPage [] None])
     = Done (None, Some ErrNotFound) (st [] ([] ++ describeCalls [idRequest "vol-1"])).
Proof.
  assert (Hp : paged mockCloud (idRequest "vol-1") (world (start [volumesPage [] None]))
                 [idRequest "vol-1"] [] []).
  { refine (@paged_last _ _ _ _ (volumesOutput [] None) _ _ _); reflexivity. }
  split; [exact Hp|].
  exact (proj1 (proj2 (GetDiskByID_outcomes _ mockCloud 1 "vol-1"
                         (start [volumesPage [] None]) _ _ _ Hp (le_n 1)))
           eq_refl).
Defined.

(** ** Instances *)

Lemma appendReservations_present : forall W reservations instances (s : St W),
    @appendReservations W (map Some reservations) instances s
    = Done (instances ++ concat (map Instances reservations)) s.
Proof.
  intros W reservations. induction reservations as [|r rs IH]; intros instances s; simpl.
  - rewrite app_nil_r. reflexivity.
  - unfold bind at 1. simpl. rewrite IH, <- app_assoc. reflexivity.
Qed.

Lemma getInstance_listed :
  forall W (c : cloud W) fuel nodeID (s : St W) instances w',
    instancesListed c nodeID (world s) instances w' ->
    (1 <= fuel)%nat ->
    getInstance c fuel nodeID s
    = let s' := st w' (trace s ++ [EvCall (CallDescribeInstances (instanceRequest nodeID))]) in
      match instances with
      | [] => Done (None, Some ErrNotFound) s'
      | [i] => Done (i, None) s'
      | _ :: _ :: _ =>
          Done (None, Some (ErrorfMsg "found %d instances with ID %q"
                              [ArgInt (Z.of_nat (length instances)); ArgString nodeID])) s'
      end.
Proof.
  intros W c fuel nodeID s instances w' [out [reservations [E [Htok [Hres Hinst]]]]] Hfuel.
  destruct fuel as [|fuel]; [lia|].
  unfold getInstance. fold (instanceRequest nodeID). simpl getInstancePages.
  unfold bind at 1. unfold bind at 1.
  erewrite invoke_eq by exact E. cbv beta iota.
  unfold bind at 1. unfold deref, ret at 1. rewrite Hres.
  unfold bind at 1. rewrite appendReservations_present. simpl app. rewrite <- Hinst.
  rewrite Htok. simpl String.eqb. cbv beta iota. unfold ret at 1. cbv beta iota zeta.
  destruct instances as [|i [|i' rest]]; reflexivity.
Qed.

(** X18. getInstance turns a provider error with the code
    InvalidInstanceID.NotFound into ErrNotFound and wraps every other
    error (whatever is not a provider error with that code).
    When the provider answers in one page, the instances of all its
    reservations count together: none gives ErrNotFound, exactly one is
    returned, and two or more, also when spread over reservations, give
    an error stating their number. *)
Theorem getInstance_outcomes :
  forall W (c : cloud W) (fuel : nat) (nodeID : string) (s : St W),
    (1 <= fuel)%nat ->
    let s' w' := st w' (trace s ++ [EvCall (CallDescribeInstances (instanceRequest nodeID))]) in
    (forall out e w',
        DescribeInstancesWithContext (ec2 c) (instanceRequest nodeID) (world s)
        = ((out, Some e), w') ->
        (forall msg, e = AwsErr "InvalidInstanceID.NotFound" msg ->
                     getInstance c fuel nodeID s = Done (None, Some ErrNotFound) (s' w'))
        /\ ((forall msg, e <> AwsErr "InvalidInstanceID.NotFound" msg) ->
            getInstance c fuel nodeID s
            = Done (None, Some (Errorf "error listing AWS instances: %q" [] e)) (s' w')))
    /\ (forall instances w',
           instancesListed c nodeID (world s) instances w' ->
           (instances = [] -> getInstance c fuel nodeID s = Done (None, Some ErrNotFound) (s' w'))
           /\ (forall i, instances = [i] -> getInstance c fuel nodeID s = Done (i, None) (s' w'))
           /\ ((2 <= length instances)%nat ->
               getInstance c fuel nodeID s
               = Done (None, Some (ErrorfMsg "found %d instances with ID %q"
                                     [ArgInt (Z.of_nat (length instances)); ArgString nodeID]))
                   (s' w'))).
Proof.
  intros W c fuel nodeID s Hfuel s'. split.
  - intros out e w' E. destruct fuel as [|fuel]; [lia|].
    assert (G : getInstance c (S fuel) nodeID s
                = Done (None, Some (if isAWSError e "InvalidInstanceID.NotFound"
                                    then ErrNotFound
                                    else Errorf "error listing AWS instances: %q" [] e))
                    (s' w')).
    { unfold getInstance. fold (instanceRequest nodeID). simpl getInstancePages.
      unfold bind at 1. unfold bind at 1. erewrite invoke_eq by exact E. cbv beta iota.
      unfold isAWSErrorInstanceNotFound.
      destruct (isAWSError e "InvalidInstanceID.NotFound"); reflexivity. }
    split.
    + intros msg He. rewrite He, isAWSError_code in G. exact G.
    + intros He. rewrite (isAWSError_other _ _ He) in G. exact G.
  - intros instances w' Hl.
    pose proof (getInstance_listed _ c fuel nodeID s instances w' Hl Hfuel) as E.
    cbv zeta in E. split; [|split].
    + intros Hi. rewrite Hi in E. exact E.
    + intros i Hi. rewrite Hi in E. exact E.
    + intros Hlen. destruct instances as [|i [|i' rest]]; simpl in Hlen; try lia. exact E.
Qed.

Lemma getInstance_outcomes_witness :
  (1 <= 1)%nat
  /\ instancesListed mockCloud "i-1"
       (world (start [ReplyDescribeInstances
                        (Some (instancesOutput [ {| Instances := [Some instance1] |};
                                                 {| Instances := [Some instance1] |} ]))
                        None]))
       [Some instance1; Some instance1] []
  /\ (forall msg, volumeGone <> AwsErr "InvalidInstanceID.NotFound" msg)
  /\ getInstance mockCloud 1 "i-1"
       (start [ReplyDescribeInstances
                 (Some (instancesOutput [ {| Instances := [Some instance1] |};
                                          {| Instances := [Some instance1] |} ]))
                 None])
     = Done (None, Some (ErrorfMsg "found %d instances with ID %q"
                           [ArgInt (Z.of_nat (length [Some instance1; Some instance1]));
                            ArgString "i-1"]))
         (st [] ([] ++ [EvCall (CallDescribeInstances (instanceRequest "i-1"))]))
  /\ getInstance mockCloud 1 "i-1"
       (start [ReplyDescribeInstances None
                 (Some (AwsErr "InvalidInstanceID.NotFound" "no instance"))])
     = Done (None, Some ErrNotFound)
         (st [] ([] ++ [EvCall (CallDescribeInstances (instanceRequest "i-1"))]))
  /\ getInstance mockCloud 1 "i-1" (start [ReplyDescribeInstances None (Some volumeGone)])
     = Done (None, Some (Errorf "error listing AWS instances: %q" [] volumeGone))
         (st [] ([] ++ [EvCall (CallDescribeInstances (instanceRequest "i-1"))])).
Proof.
  assert (Hl : instancesListed mockCloud "i-1"
                 (world (start [ReplyDescribeInstances
                                  (Some (instancesOutput
                                           [ {| Instances := [Some instance1] |};
                                             {| Instances := [Some instance1] |} ]))
                                  None]))
                 [Some instance1; Some instance1] []).
  { exists (instancesOutput [ {| Instances := [Some instance1] |};
                              {| Instances := [Some instance1] |} ]).
    exists [ {| Instances := [Some instance1] |}; {| Instances := [Some instance1] |} ].
    split; [reflexivity|]. split; [reflexivity|]. split; reflexivity. }
  assert (Hother : forall msg, volumeGone <> AwsErr "InvalidInstanceID.NotFound" msg)
    by (intros msg; discriminate).
  split; [apply le_n|]. split; [exact Hl|]. split; [exact Hother|].
  split; [|split].
  - exact (proj2 (proj2 (proj2 (getInstance_outcomes _ mockCloud 1 "i-1"
                                  (start [ReplyDescribeInstances
                                            (Some (instancesOutput
                                                     [ {| Instances := [Some instance1] |};
                                                       {| Instances := [Some instance1] |} ]))
                                            None])
                                  (le_n 1))
                           _ _ Hl))
             (le_n 2)).
  - exact (proj1 (proj1 (getInstance_outcomes _ mockCloud 1 "i-1"
                           (start [ReplyDescribeInstances None
                                     (Some (AwsErr "InvalidInstanceID.NotFound"
                                              "no instance"))])
                           (le_n 1))
                    None (AwsErr "InvalidInstanceID.NotFound" "no instance") [] eq_refl)
             "no instance" eq_refl).
  - exact (proj2 (proj1 (getInstance_outcomes _ mockCloud 1 "i-1"
                           (start [ReplyDescribeInstances None (Some volumeGone)])
                           (le_n 1))
                    None volumeGone [] eq_refl)
             Hother).
Defined.

(** X19. IsExistInstance answers true only for an instance found: false
    when the first provider call fails, whatever the error, and, for a
    one-page answer, true exactly when the reservations hold one instance
    and its pointer is not nil. *)
Theorem IsExistInstance_outcomes :
  forall W (c : cloud W) (fuel : nat) (nodeID : string) (s : St W),
    (1 <= fuel)%nat ->
    let s' w' := st w' (trace s ++ [EvCall (CallDescribeInstances (instanceRequest nodeID))]) in
    (forall out e w',
        DescribeInstancesWithContext (ec2 c) (instanceRequest nodeID) (world s)
        = ((out, Some e), w') ->
        IsExistInstance c fuel nodeID s = Done false (s' w'))
    /\ (forall instances w',
           instancesListed c nodeID (world s) instances w' ->
           IsExistInstance c fuel nodeID s
           = Done (match instances with
                   | [Some _] => true
                   | _ => false
                   end) (s' w')).
Proof.
  intros W c fuel nodeID s Hfuel s'. split.
  - intros out e w' E. destruct fuel as [|fuel]; [lia|].
    unfold IsExistInstance, getInstance. fold (instanceRequest nodeID). simpl getInstancePages.
    unfold bind at 1. unfold bind at 1. unfold bind at 1.
    erewrite invoke_eq by exact E. cbv beta iota.
    destruct (isAWSErrorInstanceNotFound e); reflexivity.
  - intros instances w' Hl.
    pose proof (getInstance_listed _ c fuel nodeID s instances w' Hl Hfuel) as E.
    cbv zeta in E. unfold IsExistInstance.
    destruct instances as [|[i|] [|i' rest]]; erewrite bind_Done by exact E; reflexivity.
Qed.

Lemma IsExistInstance_outcomes_witness :
  (1 <= 1)%nat
  /\ IsExistInstance mockCloud 1 "i-1" (start [ReplyDescribeInstances None (Some internalError)])
     = Done false (st [] ([] ++ [EvCall (CallDescribeInstances (instanceRequest "i-1"))])).
Proof.
  split; [apply le_n|].
  exact (proj1 (IsExistInstance_outcomes _ mockCloud 1 "i-1"
                  (start [ReplyDescribeInstances None (Some internalError)]) (le_n 1))
           None internalError [] eq_refl).
Defined.

(** ** Snapshots *)

Lemma getSnapshot_listed :
  forall W (c : cloud W) fuel request (s : St W) snapshots w',
    snapshotsListed c request (world s) snapshots w' ->
    (1 <= fuel)%nat ->
    getSnapshot c fuel request s
    = let s' := st w' (trace s ++ [EvCall (CallDescribeSnapshots request)]) in
      match snapshots with
      | [] => Done (None, Some ErrNotFound) s'
      | [sn] => Done (sn, None) s'
      | _ :: _ :: _ => Done (None, Some ErrMultiSnapshots) s'
      end.
Proof.
  intros W c fuel request s snapshots w' [out [E [Htok Hsn]]] Hfuel.
  destruct fuel as [|fuel]; [lia|].
  unfold getSnapshot. simpl getSnapshotPages.
  unfold bind at 1. unfold bind at 1.
  erewrite invoke_eq by exact E. cbv beta iota.
  unfold bind at 1. unfold deref, ret at 1. rewrite Htok, Hsn.
  simpl String.eqb. cbv beta iota. simpl app. unfold ret at 1. cbv beta iota zeta.
  destruct snapshots as [|sn [|sn' rest]]; reflexivity.
Qed.

(** X20. GetSnapshotByID and GetSnapshotByName, on a one-page answer:
    no snapshot gives ErrNotFound and two or more ErrMultiSnapshots; one
    snapshot is returned with its IDs, its size in bytes
    GiBToBytes(VolumeSize), and ReadyToUse set exactly when its state is
    completed (a missing state counts as not ready).  The two differ only
    in the request: by ID, or by the CSIVolumeSnapshotName tag. *)
Theorem GetSnapshot_outcomes :
  forall W (util : Util) (c : cloud W) (fuel : nat) (key : string) (s : St W) (byName : bool)
         snapshots w',
    (1 <= fuel)%nat ->
    let request := if byName then snapshotNameRequest key else snapshotIdRequest key in
    let got :=
      if byName then GetSnapshotByName util c fuel key s
      else GetSnapshotByID util c fuel key s in
    snapshotsListed c request (world s) snapshots w' ->
    let s' := st w' (trace s ++ [EvCall (CallDescribeSnapshots request)]) in
    (snapshots = [] -> got = Done (None, Some ErrNotFound) s')
    /\ ((2 <= length snapshots)%nat -> got = Done (None, Some ErrMultiSnapshots) s')
    /\ (forall sn, snapshots = [Some sn] ->
                   exists ready,
                     got = Done (Some {| Snapshot_SnapshotID :=
                                           StringValue (ec2Snapshot_SnapshotId sn);
                                         SourceVolumeID := StringValue (ec2Snapshot_VolumeId sn);
                                         Snapshot_Size :=
                                           GiBToBytes util
                                             (Int64Value (ec2Snapshot_VolumeSize sn));
                                         CreationTime := Int64Value (ec2Snapshot_StartTime sn);
                                         ReadyToUse := ready |}, None) s'
                     /\ (ready = true <-> ec2Snapshot_State sn = Some "completed")).
Proof.
  intros W util c fuel key s byName snapshots w' Hfuel request got Hl s'.
  pose proof (getSnapshot_listed _ c fuel request s snapshots w' Hl Hfuel) as E.
  cbv zeta in E. fold s' in E.
  assert (G : got
              = bind (getSnapshot c fuel request)
                  (fun x => let (ec2snapshot, err) := x in
                            match err with
                            | Some e => ret (None, Some e)
                            | None => ret (ec2SnapshotResponseToStruct util ec2snapshot, None)
                            end) s).
  { unfold got, request. destruct byName; reflexivity. }
  rewrite G. split; [|split].
  - intros Hs. rewrite Hs in E. erewrite bind_Done by exact E. reflexivity.
  - intros Hlen. destruct snapshots as [|sn [|sn' rest]]; simpl in Hlen; try lia.
    erewrite bind_Done by exact E. reflexivity.
  - intros sn Hs. rewrite Hs in E. erewrite bind_Done by exact E.
    eexists. split; [reflexivity|].
    destruct (ec2Snapshot_State sn) as [stt|]; simpl.
    + rewrite String.eqb_eq. split; [intros ->; reflexivity|intros H; inversion H; reflexivity].
    + split; intros H; discriminate H.
Qed.

Lemma GetSnapshot_outcomes_witness :
  (1 <= 1)%nat
  /\ snapshotsListed mockCloud (snapshotIdRequest "snap-1")
       (world (start [snapshotsPage [Some (snapshot1 "pending")] None]))
       [Some (snapshot1 "pending")] []
  /\ exists ready,
      GetSnapshotByID utilModel mockCloud 1 "snap-1"
        (start [snapshotsPage [Some (snapshot1 "pending")] None])
      = Done (Some {| Snapshot_SnapshotID := "snap-1"; SourceVolumeID := "vol-1";
                      Snapshot_Size := GiBToBytes utilModel 10; CreationTime := 1;
                      ReadyToUse := ready |}, None)
          (st [] ([] ++ [EvCall (CallDescribeSnapshots (snapshotIdRequest "snap-1"))]))
      /\ (ready = true <-> ec2Snapshot_State (snapshot1 "pending") = Some "completed").
Proof.
  assert (Hl : snapshotsListed mockCloud (snapshotIdRequest "snap-1")
                 (world (start [snapshotsPage [Some (snapshot1 "pending")] None]))
                 [Some (snapshot1 "pending")] []).
  { exists (snapshotsOutput [Some (snapshot1 "pending")] None).
    split; [reflexivity|]. split; reflexivity. }
  split; [apply le_n|]. split; [exact Hl|].
  exact (proj2 (proj2 (GetSnapshot_outcomes _ utilModel mockCloud 1 "snap-1"
                         (start [snapshotsPage [Some (snapshot1 "pending")] None])
                         false _ _ (le_n 1) Hl))
           (snapshot1 "pending") eq_refl).
Defined.

(** X21. ListSnapshots, past the guard on maxResults, returns a provider
    error as it is, unwrapped; answers ErrNotFound for a page with no
    snapshot, dropping the page's continuation token if it has one;
    keeps a nil snapshot of the page as a nil entry of its result; and
    panics on a nil answer with a nil error. *)
Theorem ListSnapshots_edges :
  forall W (util : Util) (c : cloud W) (volumeID : string) (maxResults : Z)
         (nextToken : string) (s : St W) out err w',
    (maxResults <= 0 \/ 5 <= maxResults) ->
    let request := listRequest volumeID maxResults nextToken in
    DescribeSnapshotsWithContext (ec2 c) request (world s) = ((out, err), w') ->
    let s' := st w' (trace s ++ [EvCall (CallDescribeSnapshots request)]) in
    let listed := ListSnapshots util c volumeID maxResults nextToken s in
    (forall e, err = Some e -> listed = Done (None, Some e) s')
    /\ (err = None -> out = None -> listed = Panic NilDereference s')
    /\ (forall o, err = None -> out = Some o -> Snapshots o = [] ->
                  listed = Done (None, Some ErrNotFound) s')
    /\ (forall o rest, err = None -> out = Some o -> Snapshots o = None :: rest ->
                       listed
                       = Done (Some {| ListSnapshotsResponse_Snapshots :=
                                         None :: map (ec2SnapshotResponseToStruct util) rest;
                                       ListSnapshotsResponse_NextToken :=
                                         StringValue (DescribeSnapshotsOutput_NextToken o) |},
                               None) s').
Proof.
  intros W util c volumeID maxResults nextToken s out err w' Hok request E s' listed.
  assert (G : (maxResults >? 0) && (maxResults <? 5) = false).
  { destruct Hok as [H0 | H5].
    - apply andb_false_iff. left. rewrite Z.gtb_ltb. apply Z.ltb_ge. lia.
    - apply andb_false_iff. right. apply Z.ltb_ge. lia. }
  assert (L : listed
              = bind (listSnapshots c request)
                  (fun x => let (ec2SnapshotsResponse, err) := x in
                            match err with
                            | Some e => ret (None, Some e)
                            | None =>
                                ec2SnapshotsResponse <- deref ec2SnapshotsResponse ;;
                                let snapshots :=
                                  map (ec2SnapshotResponseToStruct util)
                                    (ec2ListSnapshotsResponse_Snapshots ec2SnapshotsResponse) in
                                if (length snapshots =? 0)%nat then ret (None, Some ErrNotFound)
                                else
                                  ret (Some {| ListSnapshotsResponse_Snapshots := snapshots;
                                               ListSnapshotsResponse_NextToken :=
                                                 StringValue
                                                   (ec2ListSnapshotsResponse_NextToken
                                                      ec2SnapshotsResponse) |}, None)
                            end) s).
  { unfold listed, ListSnapshots. rewrite G. reflexivity. }
  rewrite L. unfold listSnapshots.
  split; [|split; [|split]].
  - intros e He. subst err.
    erewrite bind_Done; [|erewrite bind_Done by (apply invoke_eq; exact E); reflexivity].
    reflexivity.
  - intros He Ho. subst err out.
    erewrite bind_Panic; [reflexivity|].
    erewrite bind_Done by (apply invoke_eq; exact E). reflexivity.
  - intros o He Ho Hempty. subst err out.
    erewrite bind_Done; [|erewrite bind_Done by (apply invoke_eq; exact E); reflexivity].
    cbn. rewrite Hempty. reflexivity.
  - intros o rest He Ho Hnil. subst err out.
    erewrite bind_Done; [|erewrite bind_Done by (apply invoke_eq; exact E); reflexivity].
    cbn. rewrite Hnil. reflexivity.
Qed.

Lemma ListSnapshots_edges_witness :
  (0 <= 0 \/ 5 <= 0)
  /\ ListSnapshots utilModel mockCloud "vol-1" 0 EmptyString
       (start [snapshotsPage [] (Some "more")])
     = Done (None, Some ErrNotFound)
         (st [] ([] ++ [EvCall (CallDescribeSnapshots (listRequest "vol-1" 0 EmptyString))])).
Proof.
  split; [left; apply Z.le_refl|].
  exact (proj1 (proj2 (proj2 (ListSnapshots_edges _ utilModel mockCloud "vol-1" 0 EmptyString
                                (start [snapshotsPage [] (Some "more")])
                                (Some (snapshotsOutput [] (Some "more"))) None []
                                (or_introl (Z.le_refl 0)) eq_refl)))
           (snapshotsOutput [] (Some "more")) eq_refl eq_refl eq_refl).
Defined.

(** X22. CreateSnapshot makes exactly one call, a CreateSnapshot for the
    volume with DryRun false and the description naming the volume, and
    never panics: a provider error comes back wrapped with the volume
    ID, a nil answer with a nil error comes back as an error of its own,
    and a snapshot answered comes back converted.  The request carries
    one tag per entry of the options; where the loop variables are shared
    between iterations every one of them holds the key and value of the
    last entry ranged. *)
Theorem CreateSnapshot_outcomes :
  forall W (util : Util) (loopVarPerIteration : bool) (c : cloud W) (volumeID : string)
         (snapshotOptions : SnapshotOptions) (s : St W) res err w',
    let tags := snapshotTags loopVarPerIteration (SnapshotOptions_Tags snapshotOptions) in
    let request := createSnapshotRequest tags volumeID in
    CreateSnapshotWithContext (ec2 c) request (world s) = ((res, err), w') ->
    CreateSnapshot util loopVarPerIteration c volumeID snapshotOptions s
    = Done (match err, res with
            | Some e, _ =>
                (None, Some (Errorf "error creating snapshot of volume %s: %v"
                               [ArgString volumeID] e))
            | None, None => (None, Some (ErrorfMsg "nil CreateSnapshotResponse" []))
            | None, Some sn => (ec2SnapshotResponseToStruct util (Some sn), None)
            end)
        (st w' (trace s ++ [EvCall (CallCreateSnapshot request)]))
    /\ length tags = length (SnapshotOptions_Tags snapshotOptions)
    /\ (loopVarPerIteration = false ->
        forall entries key value,
          SnapshotOptions_Tags snapshotOptions = entries ++ [(key, value)] ->
          Forall (fun t => t = Some {| Tag_Key := Some key; Tag_Value := Some value |}) tags).
Proof.
  intros W util loopVarPerIteration c volumeID snapshotOptions s res err w' tags request E.
  split; [|split].
  - unfold CreateSnapshot. fold tags. fold (createSnapshotRequest tags volumeID). fold request.
    erewrite bind_Done by (apply invoke_eq; exact E).
    destruct err as [e|]; [reflexivity|]. destruct res; reflexivity.
  - unfold tags, snapshotTags. destruct loopVarPerIteration.
    + apply length_map.
    + destruct (SnapshotOptions_Tags snapshotOptions) as [|kv rest] eqn:Ht; [reflexivity|].
      destruct (rev (kv :: rest)) as [|kv' rest'] eqn:Hr.
      * apply (f_equal (@length _)) in Hr. rewrite length_rev in Hr. discriminate Hr.
      * apply repeat_length.
  - intros Hshared entries key value Hentries. unfold tags, snapshotTags.
    rewrite Hshared, Hentries, rev_app_distr. simpl.
    apply Forall_forall. intros t Hin. apply repeat_spec in Hin. exact Hin.
Qed.

Lemma CreateSnapshot_outcomes_witness :
  CreateSnapshotWithContext (ec2 mockCloud)
    (createSnapshotRequest
       (snapshotTags false (SnapshotOptions_Tags {| SnapshotOptions_Tags := [("a", "1"); ("b", "2")] |}))
       "vol-1")
    (world (start [ReplyCreateSnapshot None None]))
  = ((None, None), [])
  /\ CreateSnapshot utilModel false mockCloud "vol-1"
       {| SnapshotOptions_Tags := [("a", "1"); ("b", "2")] |}
       (start [ReplyCreateSnapshot None None])
     = Done (None, Some (ErrorfMsg "nil CreateSnapshotResponse" []))
         (st [] ([] ++ [EvCall (CallCreateSnapshot
                                  (createSnapshotRequest
                                     (snapshotTags false
                                        (SnapshotOptions_Tags
                                           {| SnapshotOptions_Tags := [("a", "1"); ("b", "2")] |}))
                                     "vol-1"))])).
Proof.
  split; [reflexivity|].
  exact (proj1 (CreateSnapshot_outcomes _ utilModel false mockCloud "vol-1"
                  {| SnapshotOptions_Tags := [("a", "1"); ("b", "2")] |}
                  (start [ReplyCreateSnapshot None None]) None None [] eq_refl)).
Defined.

(** ** The lookups change nothing *)

Lemma adds_getSnapshot : forall W (c : cloud W) (P : Event -> Prop) fuel request,
    (forall r, P (EvCall (CallDescribeSnapshots r))) ->
    adds P (getSnapshot c fuel request).
Proof.
  intros W c P fuel request HP. unfold getSnapshot.
  apply adds_bind.
  - generalize (@nil (option ec2Snapshot)). revert request.
    induction fuel as [|fuel IH]; intros request snapshots; simpl.
    + apply adds_outOfFuel.
    + apply adds_bind; [apply adds_invoke, HP|]. intros [response err].
      destruct err as [e|]; [apply adds_ret|].
      apply adds_bind; [apply adds_deref|]. intros out.
      destruct (String.eqb _ _); [apply adds_ret|apply IH].
  - intros [snapshots err]. destruct err as [e|]; [apply adds_ret|].
    destruct (_ <? _)%nat; [apply adds_ret|].
    destruct (_ <? _)%nat; [apply adds_ret|].
    destruct snapshots; [apply adds_raise|apply adds_ret].
Qed.

(** X23. Whatever the provider answers, and however they end, the lookups
    GetDiskByName, GetDiskByID, GetSnapshotByName, GetSnapshotByID,
    ListSnapshots, IsExistInstance and WaitForAttachmentState make only
    Describe calls (volumes, instances, snapshots): nothing is created,
    modified, attached, detached or deleted, and no device is touched. *)
Theorem lookups_only_describe :
  forall W (util : Util) (c : cloud W) (fuel : nat) (key state : string) (n : Z),
    adds isDescribe (GetDiskByName util c fuel key n)
    /\ adds isDescribe (GetDiskByID c fuel key)
    /\ adds isDescribe (GetSnapshotByName util c fuel key)
    /\ adds isDescribe (GetSnapshotByID util c fuel key)
    /\ adds isDescribe (ListSnapshots util c key n state)
    /\ adds isDescribe (IsExistInstance c fuel key)
    /\ adds isDescribe (WaitForAttachmentState c fuel key state).
Proof.
  intros W util c fuel key state n.
  assert (Hv : forall r, isDescribe (EvCall (CallDescribeVolumes r)))
    by (intros r; left; eexists; reflexivity).
  assert (Hi : forall r, isDescribe (EvCall (CallDescribeInstances r)))
    by (intros r; right; left; eexists; reflexivity).
  assert (Hs : forall r, isDescribe (EvCall (CallDescribeSnapshots r)))
    by (intros r; right; right; eexists; reflexivity).
  repeat split.
  - unfold GetDiskByName. apply adds_bind; [apply adds_getVolume; exact Hv|].
    intros [volume err]. destruct err as [e|]; [apply adds_ret|].
    apply adds_bind; [apply adds_deref|]. intros v. destruct (negb _); apply adds_ret.
  - unfold GetDiskByID. apply adds_bind; [apply adds_getVolume; exact Hv|].
    intros [volume err]. destruct err as [e|]; [apply adds_ret|].
    apply adds_bind; [apply adds_deref|]. intros v. apply adds_ret.
  - unfold GetSnapshotByName. apply adds_bind; [apply adds_getSnapshot; exact Hs|].
    intros [sn err]. destruct err as [e|]; apply adds_ret.
  - unfold GetSnapshotByID. apply adds_bind; [apply adds_getSnapshot; exact Hs|].
    intros [sn err]. destruct err as [e|]; apply adds_ret.
  - unfold ListSnapshots. destruct (_ && _); [apply adds_ret|].
    apply adds_bind.
    + unfold listSnapshots. apply adds_bind; [apply adds_invoke, Hs|].
      intros [response err]. destruct err as [e|]; [apply adds_ret|].
      apply adds_bind; [apply adds_deref|]. intros out. apply adds_ret.
    + intros [response err]. destruct err as [e|]; [apply adds_ret|].
      apply adds_bind; [apply adds_deref|]. intros r.
      cbv zeta. destruct (_ =? _)%nat; apply adds_ret.
  - unfold IsExistInstance. apply adds_bind; [apply adds_getInstance; exact Hi|].
    intros [instance err]. destruct err as [e|]; [apply adds_ret|].
    destruct instance; apply adds_ret.
  - apply adds_WaitForAttachmentState. exact Hv.
Qed.

(** ** The request type of the attach call *)

(** X24. Validate accepts an AttachVolumeInput exactly when both the
    instance ID and the volume ID are set; the device name and the dry-run
    flag play no part.  What it rejects it reports under the context
    AttachVolumeInput, listing InstanceId before VolumeId.  Hence an
    input run through SetInstanceId and SetVolumeId is accepted, and so is
    the request AttachDisk builds, which names no device. *)
Theorem Validate_required_fields :
  forall (input : AttachVolumeInput) (device instanceID volumeID : string) (dry : bool),
    (Validate input = None
     <-> AttachVolume_InstanceId input <> None /\ AttachVolume_VolumeId input <> None)
    /\ (forall report, Validate input = Some report ->
                       Context report = "AttachVolumeInput"
                       /\ ParamRequired report
                          = (match AttachVolume_InstanceId input with
                             | None => ["InstanceId"]
                             | Some _ => []
                             end)
                            ++ (match AttachVolume_VolumeId input with
                                | None => ["VolumeId"]
                                | Some _ => []
                                end))
    /\ Validate (SetDevice input device) = Validate input
    /\ Validate (SetDryRun input dry) = Validate input
    /\ Validate (SetVolumeId (SetInstanceId input instanceID) volumeID) = None
    /\ Validate (attachRequest volumeID instanceID) = None
    /\ AttachVolume_Device (attachRequest volumeID instanceID) = None.
Proof.
  intros [dev dr ins vol] device instanceID volumeID dry.
  split; [|split; [|repeat split]].
  - unfold Validate. simpl. destruct ins, vol; simpl; split;
      try (intros H; discriminate H);
      try (intros [H1 H2]; congruence);
      try (intros _; split; discriminate); reflexivity.
  - intros report. unfold Validate. simpl.
    destruct ins, vol; simpl; intros H; inversion H; subst; split; reflexivity.
Qed.

Lemma Validate_required_fields_witness :
  Validate {| AttachVolume_Device := Some "/dev/xvdba"; AttachVolume_DryRun := None;
              AttachVolume_InstanceId := None; AttachVolume_VolumeId := None |}
  = Some {| Context := "AttachVolumeInput"; ParamRequired := ["InstanceId"; "VolumeId"] |}
  /\ Context {| Context := "AttachVolumeInput"; ParamRequired := ["InstanceId"; "VolumeId"] |}
     = "AttachVolumeInput".
Proof.
  split; [reflexivity|].
  exact (proj1 (proj1 (proj2 (Validate_required_fields
                                {| AttachVolume_Device := Some "/dev/xvdba";
                                   AttachVolume_DryRun := None;
                                   AttachVolume_InstanceId := None;
                                   AttachVolume_VolumeId := None |}
                                "d" "i-1" "vol-1" false))
                  _ eq_refl)).
Defined.

Lemma CreateDisk_request_fields_witness :
  exists events,
    trace (stateOf (CreateDisk utilModel 20 mockCloud 1 "pvc-1" (gpOptions "gp2" "us-test-1a")
                      (start [ReplyCreateVolume None (Some internalError)])))
    = trace (start [ReplyCreateVolume None (Some internalError)]) ++ events
    /\ Forall (fun e => forall request,
                   e = EvCall (CallCreateVolume request) ->
                   CreateVolume_Size request
                   = Some (BytesToGiB utilModel (CapacityBytes (gpOptions "gp2" "us-test-1a"))))
         events.
Proof.
  destruct (CreateDisk_request_fields _ utilModel 20 mockCloud 1 "pvc-1"
              (gpOptions "gp2" "us-test-1a")
              (start [ReplyCreateVolume None (Some internalError)])) as [events [E F]].
  exists events. split; [exact E|].
  eapply Forall_impl; [|exact F]. intros e H request Hr. exact (proj1 (H request Hr)).
Defined.

(** ** Construction *)

(** X25. newEC2Cloud reads two environment variables.  It fails, without
    opening a session, exactly when AWS_EC2_ENDPOINT_UNSECURE is set to
    something other than the twelve spellings ParseBool knows.
    Otherwise the session is opened for the region with certificate
    verification switched off exactly when the variable is one of 1, t,
    T, true, TRUE, True (unset and the false spellings give the same
    configuration), and with the endpoint overridden exactly when
    AWS_EC2_ENDPOINT is non-empty, whatever it holds; a session that
    cannot be opened is a panic, not an error. *)
Theorem newEC2Cloud_outcomes :
  forall W (getenv : string -> string) (Quote : string -> string) (Session : Type)
         (NewSession : awsConfig -> Session + error) (ec2New : Session -> EC2 W)
         (NewDeviceManager : DeviceManager W) (region : string),
    let flag := getenv "AWS_EC2_ENDPOINT_UNSECURE" in
    let endpoint := getenv "AWS_EC2_ENDPOINT" in
    let insecure := existsb (String.eqb flag) ["1"; "t"; "T"; "true"; "TRUE"; "True"] in
    let known :=
      insecure || existsb (String.eqb flag) ["0"; "f"; "F"; "false"; "FALSE"; "False"]
      || String.eqb flag EmptyString in
    let created := newEC2Cloud getenv Quote NewSession ec2New NewDeviceManager region in
    let config :=
      {| Config_Region := Some region;
         CredentialsChainVerboseErrors := Some true;
         Config_HTTPClient := if insecure then Some {| InsecureSkipVerify := true |} else None;
         Config_Endpoint := if String.eqb endpoint EmptyString then None else Some endpoint |} in
    (known = false <-> exists e, created = CloudError e)
    /\ (known = true ->
        (forall sess, NewSession config = inl sess ->
                      created = CloudCreated {| region := region; dm := NewDeviceManager;
                                                ec2 := ec2New sess |})
        /\ (forall e, NewSession config = inr e -> created = SessionPanic e)).
Proof.
  intros W getenv Quote Session NewSession ec2New NewDeviceManager region
         flag endpoint insecure known created config.
  assert (Hcfg : (known = true -> sessionConfig getenv Quote region = inl config)
                 /\ (known = false -> exists e, sessionConfig getenv Quote region = inr e)).
  { unfold sessionConfig, ParseBool. fold flag. fold endpoint.
    unfold known, config, insecure. cbv zeta.
    destruct (String.eqb flag EmptyString) eqn:He.
    - apply String.eqb_eq in He.
      assert (Ht : existsb (String.eqb flag) ["1"; "t"; "T"; "true"; "TRUE"; "True"] = false)
        by (rewrite He; reflexivity).
      rewrite Ht.
      split; [intros _; reflexivity|rewrite orb_true_r; intros H; discriminate H].
    - generalize (existsb (String.eqb flag) ["0"; "f"; "F"; "false"; "FALSE"; "False"]).
      generalize (existsb (String.eqb flag) ["1"; "t"; "T"; "true"; "TRUE"; "True"]).
      intros isTrue isFalse.
      destruct isTrue, isFalse; simpl;
        (split; [intros H; try discriminate H; reflexivity
                |intros H; try discriminate H; eexists; reflexivity]). }
  destruct Hcfg as [Hok Hbad]. unfold created, newEC2Cloud.
  split.
  - split.
    + intros Hk. destruct (Hbad Hk) as [e He]. rewrite He. exists e. reflexivity.
    + intros [e He]. destruct known; [|reflexivity].
      rewrite (Hok eq_refl) in He. revert He.
      destruct (NewSession config); intros He; discriminate He.
  - intros Hk. rewrite (Hok Hk). split.
    + intros sess Hs. rewrite Hs. reflexivity.
    + intros e He. rewrite He. reflexivity.
Qed.

Lemma newEC2Cloud_outcomes_witness :
  (existsb (String.eqb (sampleEnv "yes" "http://localhost" "AWS_EC2_ENDPOINT_UNSECURE"))
     ["1"; "t"; "T"; "true"; "TRUE"; "True"]
   || existsb (String.eqb (sampleEnv "yes" "http://localhost" "AWS_EC2_ENDPOINT_UNSECURE"))
        ["0"; "f"; "F"; "false"; "FALSE"; "False"]
   || String.eqb (sampleEnv "yes" "http://localhost" "AWS_EC2_ENDPOINT_UNSECURE") EmptyString)
  = false
  /\ exists e,
      newEC2Cloud (sampleEnv "yes" "http://localhost") (fun str => str)
        (fun _ : awsConfig => inl tt) (fun _ : unit => scriptedEC2 (Some scriptedClient))
        scriptedDM "us-test-1"
      = CloudError e.
Proof.
  split; [reflexivity|].
  exact (proj1 (proj1 (newEC2Cloud_outcomes Script (sampleEnv "yes" "http://localhost")
                         (fun str => str) unit (fun _ => inl tt)
                         (fun _ => scriptedEC2 (Some scriptedClient)) scriptedDM "us-test-1"))
           eq_refl).
Defined.

(** ** Attach and detach: after the provider has accepted *)

(** X26. When the detach call is accepted, DetachDisk waits for the
    detached state and returns whatever the wait returns, error or none,
    then releases the Device with Release(true); so a volume that
    disappears during the wait makes it return the wait's ErrNotFound. *)
Theorem DetachDisk_after_accepted_detach :
  forall W (c : cloud W) (fuel : nat) (volumeID nodeID : string) (s s1 : St W)
         (instance : option Instance) (d : Device) (w2 : W) out w3 werr s4,
    getInstance c fuel nodeID s = Done (instance, None) s1 ->
    GetDevice (dm c) (instance, volumeID) (world s1) = ((Some d, None), w2) ->
    DetachVolumeWithContext (ec2 c) (detachRequest volumeID nodeID) w2 = ((out, None), w3) ->
    WaitForAttachmentState c fuel volumeID "detached"
      (st w3 ((trace s1 ++ [EvCall (CallGetDevice instance volumeID)])
              ++ [EvCall (CallDetachVolume (detachRequest volumeID nodeID))]))
    = Done werr s4 ->
    DetachDisk c fuel volumeID nodeID s
    = Done werr (st (world s4) (trace s4 ++ [EvRelease (Some d) true])).
Proof.
  intros W c fuel volumeID nodeID s s1 instance d w2 out w3 werr s4 Hinst Hdev Edetach Hwait.
  rewrite (DetachDisk_found _ c fuel volumeID nodeID s s1 instance (Some d) w2 Hinst Hdev).
  unfold defer. erewrite bind_Done by reflexivity.
  erewrite bind_Done by (apply invoke_eq; exact Edetach). cbv beta iota.
  erewrite bind_Done by exact Hwait.
  destruct werr; reflexivity.
Qed.

Lemma DetachDisk_after_accepted_detach_witness :
  getInstance mockCloud 1 "i-1"
    (start [instancesPage; ReplyDevice (Some assignedDevice) None;
            ReplyDetachVolume None None; volumesPage [] None])
  = Done (Some instance1, None)
      (st [ReplyDevice (Some assignedDevice) None; ReplyDetachVolume None None;
           volumesPage [] None]
          [EvCall (CallDescribeInstances (instanceRequest "i-1"))])
  /\ DetachDisk mockCloud 1 "vol-1" "i-1"
       (start [instancesPage; ReplyDevice (Some assignedDevice) None;
               ReplyDetachVolume None None; volumesPage [] None])
     = Done (Some ErrNotFound)
         (st [] ([EvCall (CallDescribeInstances (instanceRequest "i-1"));
                  EvCall (CallGetDevice (Some instance1) "vol-1");
                  EvCall (CallDetachVolume (detachRequest "vol-1" "i-1"));
                  EvCall (CallDescribeVolumes (idRequest "vol-1"))]
                 ++ [EvRelease (Some assignedDevice) true])).
Proof.
  split; [reflexivity|].
  exact (DetachDisk_after_accepted_detach _ mockCloud 1 "vol-1" "i-1"
           (start [instancesPage; ReplyDevice (Some assignedDevice) None;
                   ReplyDetachVolume None None; volumesPage [] None])
           _ (Some instance1) assignedDevice
           [ReplyDetachVolume None None; volumesPage [] None] None [volumesPage [] None]
           (Some ErrNotFound)
           (st [] [EvCall (CallDescribeInstances (instanceRequest "i-1"));
                   EvCall (CallGetDevice (Some instance1) "vol-1");
                   EvCall (CallDetachVolume (detachRequest "vol-1" "i-1"));
                   EvCall (CallDescribeVolumes (idRequest "vol-1"))])
           eq_refl eq_refl eq_refl eq_refl).
Defined.

(** X27. When a fresh attach call goes through the SDK client and is
    accepted, AttachDisk waits for the attached state: if the wait ends
    without error it returns the Device's path, and if it ends with an
    error it returns that error with the Device tainted; either way
    Release(false) comes last. *)
Theorem AttachDisk_after_accepted_attach :
  forall W (c : cloud W) (fuel : nat) (volumeID nodeID : string) (s s1 : St W)
         (instance : option Instance) (d : Device) (w2 : W) client out w3 werr s4,
    getInstance c fuel nodeID s = Done (instance, None) s1 ->
    NewDevice (dm c) (instance, volumeID) (world s1) = ((Some d, None), w2) ->
    IsAlreadyAssigned d = false ->
    dynamicEC2 (ec2 c) = Some client ->
    NewRequest_Send client attachOperation (attachRequest volumeID nodeID) w2
    = ((out, None), w3) ->
    WaitForAttachmentState c fuel volumeID "attached"
      (st w3 ((trace s1 ++ [EvCall (CallNewDevice instance volumeID)])
              ++ [EvCall (CallAttachVolume (attachRequest volumeID nodeID))]))
    = Done werr s4 ->
    AttachDisk c fuel volumeID nodeID s
    = Done (match werr with
            | None => (Path d, None)
            | Some e => (EmptyString, Some e)
            end)
        (st (world s4)
            (trace s4
             ++ match werr with
                | None => [EvRelease (Some d) false]
                | Some _ => [EvTaint (Some d); EvRelease (Some d) false]
                end)).
Proof.
  intros W c fuel volumeID nodeID s s1 instance d w2 client out w3 werr s4
         Hinst Hdev Hfresh Hdyn Esend Hwait.
  rewrite (AttachDisk_fresh _ c fuel volumeID nodeID s s1 instance d w2 Hinst Hdev Hfresh).
  unfold defer, bind, assertEC2, AttachVolumeWithContext, bind, invoke. rewrite Hdyn.
  unfold ret at 1. simpl world. unfold attachOperation in Esend. rewrite Esend.
  unfold ret at 1. unfold ret at 1. simpl trace.
  unfold st in Hwait. rewrite Hwait.
  destruct werr as [e|]; simpl; [rewrite <- app_assoc|]; reflexivity.
Qed.

Lemma AttachDisk_after_accepted_attach_witness :
  getInstance sdkCloud 1 "i-1"
    (start [instancesPage; ReplyDevice (Some freshDevice) None;
            ReplyAttachVolume {| Attachment_State := None |} None;
            volumesPage [Some attachedVolume] None])
  = Done (Some instance1, None)
      (st [ReplyDevice (Some freshDevice) None;
           ReplyAttachVolume {| Attachment_State := None |} None;
           volumesPage [Some attachedVolume] None]
          [EvCall (CallDescribeInstances (instanceRequest "i-1"))])
  /\ IsAlreadyAssigned freshDevice = false
  /\ AttachDisk sdkCloud 1 "vol-1" "i-1"
       (start [instancesPage; ReplyDevice (Some freshDevice) None;
               ReplyAttachVolume {| Attachment_State := None |} None;
               volumesPage [Some attachedVolume] None])
     = Done ("/dev/xvdba", None)
         (st [] ([EvCall (CallDescribeInstances (instanceRequest "i-1"));
                  EvCall (CallNewDevice (Some instance1) "vol-1");
                  EvCall (CallAttachVolume (attachRequest "vol-1" "i-1"));
                  EvCall (CallDescribeVolumes (idRequest "vol-1"))]
                 ++ [EvRelease (Some freshDevice) false])).
Proof.
  split; [reflexivity|]. split; [reflexivity|].
  exact (AttachDisk_after_accepted_attach _ sdkCloud 1 "vol-1" "i-1"
           (start [instancesPage; ReplyDevice (Some freshDevice) None;
                   ReplyAttachVolume {| Attachment_State := None |} None;
                   volumesPage [Some attachedVolume] None])
           _ (Some instance1) freshDevice
           [ReplyAttachVolume {| Attachment_State := None |} None;
            volumesPage [Some attachedVolume] None]
           scriptedClient {| Attachment_State := None |}
           [volumesPage [Some attachedVolume] None] None
           (st [] [EvCall (CallDescribeInstances (instanceRequest "i-1"));
                   EvCall (CallNewDevice (Some instance1) "vol-1");
                   EvCall (CallAttachVolume (attachRequest "vol-1" "i-1"));
                   EvCall (CallDescribeVolumes (idRequest "vol-1"))])
           eq_refl eq_refl eq_refl eq_refl eq_refl eq_refl).
Defined.
